(** * TemPy: tree, attribute and rendering engine

    A shallow embedding of [tempy/tempy.py]: the [DOMElement] tree with its
    mutation operations, the [TagAttrs] container, the cached [Tag.render],
    the [Content] placeholder and the [Css] rule renderer, followed by the
    properties of the specification that were checked against it.

    Modelling choices.
    - Python objects live in a heap; the identity of an object (its
      [uuid], which [__eq__] compares) is its position in the heap.
    - A method is a state transformer over the heap that ends in a returned
      value or in a propagating exception; what was written before the
      exception stays written.
    - Dictionaries keep insertion order (the language guarantees it from
      Python 3.7 on); their keys are strings.
    - [DOMElement] defines [__len__] and no [__bool__], so an element is
      truthy exactly when it has children.
    - The code runs on Python 3.3 to 3.9.  The one place where these
      versions differ for the engine, a [StopIteration] that escapes a
      generator, is a parameter ([generator_stop]).
    - The tag catalog ([tags.py]) is not part of the engine: a concrete tag
      class is given by its [__tag] name, its void flag and its
      [_needed_kwargs], and defines no other attribute; placeholders are
      built without a template element.
    - A call [f(x, **kw)] binds a keyword that names a parameter of [f] to
      that parameter: a second value for the first parameter is a
      [TypeError], and a keyword [attrs] of [attr] or [contents] of
      [inject] is the value of that parameter.
    - [setattr(self, name, child)], by which [_insert] publishes a named
      child, creates a new attribute when the element has none of that
      name; on the name of a property it is an [AttributeError], and on the
      name of any other attribute or method of the element it replaces
      that attribute, after which the element is no longer described here.
    - An index given to [list.insert] or [list.pop] is converted to the C
      type [ssize_t], 32 or 64 bits wide by platform.
    - The methods are modelled as they are written.  [__copy__], whose
      generator expression does not parse as written, and the accessors
      that only read the tree, other than [first], [last], [length] and
      [index], are left out. *)

From Stdlib Require Import ZArith Lia.
From stdpp Require Import base list strings.

Open Scope string_scope.
Open Scope list_scope.
Set Warnings "-register-all".


(** ** Python values *)

(** The values that flow through the engine.  [VRef n] is a reference to the
    tree object (a [DOMElement] or a [Content]) with identity [n]; [VGen l] is
    a generator object that would yield the elements of [l]; [VFun r] is a
    zero-argument function returning [r]. *)
Inductive pyval : Type :=
| VNone
| VStr (s : string)
| VRef (n : nat)
| VList (l : list pyval)
| VTuple (l : list pyval)
| VGen (l : list pyval)
| VDict (d : list (string * pyval))
| VFun (r : pyval).

(** Exceptions raised by the modelled code. *)
Inductive exn : Type :=
| TypeError | ValueError | KeyError | IndexError | AttributeError
| StopIteration | RuntimeError | TagError | NotImplementedError
| OverflowError.

(** The result of running a piece of Python: a value, a propagating
    exception, or [Beyond] when the run leaves the modelled fragment (the
    recursion fuel is exhausted, or a value is used in a way whose Python
    behaviour is not described here, such as [str] of a container). *)
Inductive outcome (A : Type) : Type :=
| Ok (a : A)
| Raise (e : exn)
| Beyond.
Arguments Ok {A} a.
Arguments Raise {A} e.
Arguments Beyond {A}.

(** A method body: it reads and writes a state [S] and ends in an outcome.
    The state written before an exception stays written. *)
Definition M (S A : Type) : Type := S -> outcome A * S.

Definition ret {S A} (a : A) : M S A := fun s => (Ok a, s).
Definition raise {S A} (e : exn) : M S A := fun s => (Raise e, s).
Definition beyond {S A} : M S A := fun s => (Beyond, s).
Definition bind {S A B} (m : M S A) (k : A -> M S B) : M S B :=
  fun s =>
    match m s with
    | (Ok a, s') => k a s'
    | (Raise e, s') => (Raise e, s')
    | (Beyond, s') => (Beyond, s')
    end.
Definition get_state {S} : M S S := fun s => (Ok s, s).
Definition modify {S} (f : S -> S) : M S unit := fun s => (Ok tt, f s).
Definition lift_outcome {S A} (o : outcome A) : M S A := fun s => (o, s).

Declare Scope py_scope.
Delimit Scope py_scope with py.
Notation "x <- m ;; k" := (bind m (fun x => k))
  (at level 100, m at next level, right associativity) : py_scope.
Notation "m ;;; k" := (bind m (fun _ => k))
  (at level 100, right associativity) : py_scope.
Open Scope py_scope.

(** [for x in l: body x], stopping at the first exception. *)
Fixpoint for_each {S A} (l : list A) (body : A -> M S unit) : M S unit :=
  match l with
  | [] => ret tt
  | x :: r => body x ;;; for_each r body
  end.

(** ** Truthiness and [str] *)

(** [bool(v)] for the values that do not need the heap; a reference is
    truthy according to its object's [__len__], see [truthy] below. *)
Definition truthy_plain (v : pyval) : option bool :=
  match v with
  | VNone => Some false
  | VStr s => Some (negb (String.eqb s ""))
  | VRef _ => None
  | VList l | VTuple l => Some (negb (Nat.eqb (length l) 0))
  | VGen _ => Some true
  | VDict d => Some (negb (Nat.eqb (length d) 0))
  | VFun _ => Some true
  end.

(** [str(v)].  The [repr] of containers, functions and objects is not
    modelled. *)
Definition py_str (v : pyval) : outcome string :=
  match v with
  | VStr s => Ok s
  | VNone => Ok "None"
  | _ => Beyond
  end.

(** ** Dictionaries, in insertion order *)

Abbreviation dict := (list (string * pyval)).

Fixpoint dict_get (k : string) (d : dict) : option pyval :=
  match d with
  | [] => None
  | (k', v) :: r => if String.eqb k k' then Some v else dict_get k r
  end.

Definition dict_has (k : string) (d : dict) : bool :=
  match dict_get k d with Some _ => true | None => false end.

(** [d[k] = v]: an existing key keeps its position, a new key goes last. *)
Fixpoint dict_set (k : string) (v : pyval) (d : dict) : dict :=
  match d with
  | [] => [(k, v)]
  | (k', v') :: r =>
      if String.eqb k k' then (k, v) :: r else (k', v') :: dict_set k v r
  end.

(** [d.update(other)]. *)
Definition dict_update (d other : dict) : dict :=
  fold_left (fun acc kv => dict_set (fst kv) (snd kv) acc) other d.

(** [del d[k]] when present. *)
Fixpoint dict_del (k : string) (d : dict) : dict :=
  match d with
  | [] => []
  | (k', v) :: r => if String.eqb k k' then r else (k', v) :: dict_del k r
  end.

Definition str_in (k : string) (l : list string) : bool :=
  existsb (String.eqb k) l.

(** A call [f(x, **kw)] of a function whose first parameter is named
    [param]: a keyword of that name is a second value for the parameter,
    a [TypeError] before the body runs. *)
Definition no_keyword {S A} (param : string) (kw : dict) (body : M S A)
  : M S A :=
  if dict_has param kw then raise TypeError else body.

(** The one-character string holding a double quote. *)
Definition dquote : string := String (Ascii.ascii_of_nat 34) EmptyString.

(** [sep.join(parts)]. *)
Definition join (sep : string) (parts : list string) : string :=
  String.concat sep parts.

(** Every element of a sequence as a [str], or the [TypeError] of
    [str.join] on a non-string element. *)
Fixpoint all_str (l : list pyval) : outcome (list string) :=
  match l with
  | [] => Ok []
  | VStr s :: r =>
      match all_str r with
      | Ok ss => Ok (s :: ss)
      | o => o
      end
  | _ :: _ => Raise TypeError
  end.

(** ** class TagAttrs(dict) *)

Module TagAttrs.

Definition _MAPPING_ATTRS : list string := ["style"].
Definition _MULTI_VALUES_ATTRS : list string := ["klass"; "typ"].
Definition _SPECIALS : list (string * string) :=
  [("klass", "class"); ("typ", "type")].

(** The container: the dictionary itself and the instance attribute
    [_comment] that the comment tag may put on it. *)
Record t : Type := mk {
  items : dict;
  _comment : option string
}.

(** [TagAttrs()]. *)
Definition empty : t := {| items := []; _comment := None |}.

(** [super().__setitem__(key, value)]. *)
Definition super_setitem (key : string) (value : pyval) : M t unit :=
  modify (fun a => {| items := dict_set key value (items a);
                      _comment := _comment a |}).

(** [self[key]] (the inherited [dict.__getitem__]). *)
Definition getitem (key : string) : M t pyval :=
  fun a => match dict_get key (items a) with
           | Some v => (Ok v, a)
           | None => (Raise KeyError, a)
           end.

(** [self[key].append(value)]. *)
Definition append_at (key : string) (value : pyval) : M t unit :=
  cur <- getitem key ;;
  match cur with
  | VList l => super_setitem key (VList (l ++ [value]))
  | VRef _ => beyond
  | _ => raise AttributeError
  end.

(** [self[key].update(value)]. *)
Definition update_at (key : string) (value : pyval) : M t unit :=
  cur <- getitem key ;;
  match cur with
  | VDict d =>
      match value with
      | VDict d' => super_setitem key (VDict (dict_update d d'))
      | VNone | VFun _ => raise TypeError
      | _ => beyond
      end
  | VRef _ => beyond
  | _ => raise AttributeError
  end.

Definition __setitem__ (key : string) (value : pyval) : M t unit :=
  if str_in key _MULTI_VALUES_ATTRS then
    a <- get_state ;;
    (if dict_has key (items a) then ret tt
     else super_setitem key (VList [])) ;;;
    append_at key value
  else if str_in key _MAPPING_ATTRS then
    a <- get_state ;;
    (if dict_has key (items a) then ret tt
     else super_setitem key (VDict [])) ;;;
    update_at key value
  else
    super_setitem key value.

(** [update(attrs=None, **kwargs)]; [attrs] is a mapping or an iterable
    of pairs. *)
Definition update (attrs : option dict) (kwargs : dict) : M t unit :=
  match attrs with
  | Some pairs => for_each pairs (fun kv => __setitem__ (fst kv) (snd kv))
  | None => ret tt
  end ;;;
  for_each kwargs (fun kv => __setitem__ (fst kv) (snd kv)).

(** [self.pop(attr, None)]. *)
Definition pop_default (key : string) : M t unit :=
  modify (fun a => {| items := dict_del key (items a);
                      _comment := _comment a |}).

(** [_SPECIALS.get(k, k)]. *)
Definition special_name (k : string) : string :=
  match find (fun p => String.eqb k (fst p)) _SPECIALS with
  | Some p => snd p
  | None => k
  end.

(** ['%s: %s;' % (k, v)] for every pair of a style mapping. *)
Fixpoint style_decls (d : dict) : outcome (list string) :=
  match d with
  | [] => Ok []
  | (k, v) :: r =>
      match py_str v with
      | Ok s =>
          match style_decls r with
          | Ok ss => Ok ((k +:+ ": " +:+ s +:+ ";") :: ss)
          | o => o
          end
      | Raise e => Raise e
      | Beyond => Beyond
      end
  end.

(** [_FORMAT.get(k, lambda x: x)(v)], then stringified by ["%s"]. *)
Definition format_value (k : string) (v : pyval) : outcome string :=
  if String.eqb k "style" then
    match v with
    | VDict d =>
        match style_decls d with
        | Ok ss => Ok (join " " ss)
        | Raise e => Raise e
        | Beyond => Beyond
        end
    | VRef _ => Beyond
    | _ => Raise AttributeError
    end
  else if String.eqb k "klass" || String.eqb k "typ" then
    match v with
    | VList l | VTuple l =>
        match all_str l with
        | Ok ss => Ok (join " " ss)
        | Raise e => Raise e
        | Beyond => Beyond
        end
    | VDict d => Ok (join " " (map fst d))
    | VNone | VFun _ => Raise TypeError
    | _ => Beyond
    end
  else py_str v.

(** The generator of [render]: one [' name="value"'] per truthy value. *)
Fixpoint render_items (d : dict) : outcome (list string) :=
  match d with
  | [] => Ok []
  | (k, v) :: r =>
      match truthy_plain v with
      | None => Beyond
      | Some false => render_items r
      | Some true =>
          match format_value k v with
          | Ok s =>
              match render_items r with
              | Ok ss =>
                  Ok ((" " +:+ special_name k +:+ "=" +:+ dquote +:+ s
                       +:+ dquote) :: ss)
              | o => o
              end
          | Raise e => Raise e
          | Beyond => Beyond
          end
      end
  end.

Definition render (self : t) : outcome string :=
  match _comment self with
  | Some c => Ok c
  | None =>
      match render_items (items self) with
      | Ok ss => Ok (join "" ss)
      | Raise e => Raise e
      | Beyond => Beyond
      end
  end.

End TagAttrs.

(** ** class Css(Tag): the rule renderer *)

Module Css.

Definition nl : string := String (Ascii.ascii_of_nat 10) "".

(** The number of mappings nested in a value: a bound on the number of
    iterations of the [while nodes_to_parse] loop. *)
Fixpoint dict_nodes (v : pyval) : nat :=
  match v with
  | VDict d =>
      S ((fix go (d : list (string * pyval)) : nat :=
            match d with
            | [] => 0
            | (_, x) :: r => dict_nodes x + go r
            end) d)
  | _ => 0
  end.

(** The [for key, value in node.items()] loop: the strings appended to
    [result] and the nodes appended to [nodes_to_parse]. *)
Fixpoint parse_node (pretty : bool) (parents : list string) (node : dict)
  : outcome (list string * list (list string * dict)) :=
  match node with
  | [] => Ok ([], [])
  | (key, value) :: r =>
      let line (s : string) :=
        key +:+ ": " +:+ s +:+ "; " +:+ (if pretty then nl else "") in
      let here : outcome (list string * list (list string * dict)) :=
        match value with
        | VStr s => Ok ([line s], [])
        | VFun res =>
            match py_str res with
            | Ok s => Ok ([line s], [])
            | Raise e => Raise e
            | Beyond => Beyond
            end
        | VDict d => Ok ([], [(parents ++ [key], d)])
        | _ => Ok ([], [])
        end in
      match here, parse_node pretty parents r with
      | Ok (out1, q1), Ok (out2, q2) => Ok (out1 ++ out2, q1 ++ q2)
      | Raise e, _ => Raise e
      | Beyond, _ => Beyond
      | Ok _, o => o
      end
  end.

(** The [while nodes_to_parse] loop; [result] is the list built so far. *)
Fixpoint parse_loop (fuel : nat) (pretty : bool)
    (nodes_to_parse : list (list string * dict)) (result : list string)
  : outcome (list string) :=
  match nodes_to_parse with
  | [] => Ok result
  | (parents, node) :: rest =>
      match fuel with
      | 0 => Beyond
      | S fuel' =>
          let result1 :=
            match parents with
            | [] => result
            | _ :: _ => result ++ [join " " parents +:+ " { "]
            end in
          match parse_node pretty parents node with
          | Ok (out, queued) =>
              let result2 := result1 ++ out in
              (* result.append("}" + "\n\n" if pretty else "") *)
              let result3 :=
                match result2 with
                | [] => result2
                | _ :: _ =>
                    result2 ++ [if pretty then "}" +:+ nl +:+ nl else ""]
                end in
              parse_loop fuel' pretty (rest ++ queued) result3
          | Raise e => Raise e
          | Beyond => Beyond
          end
      end
  end.

(** [Css.render(pretty=...)], a function of the attribute mapping only. *)
Definition render (attrs : TagAttrs.t) (pretty : bool) : outcome string :=
  let root := TagAttrs.items attrs in
  match parse_loop (dict_nodes (VDict root)) pretty [([], root)] [] with
  | Ok result => Ok ("<style>" +:+ join "" result +:+ "</style>")
  | Raise e => Raise e
  | Beyond => Beyond
  end.

End Css.

(** ** Tree objects and the heap *)

(** [TagC] and [VoidTagC] stand for the concrete subclasses of [Tag] and
    [VoidTag] of the tag catalog; [CssC] is [Css]. *)
Inductive pyclass : Type := TagC | VoidTagC | CssC.

(** An instance of a [Tag] subclass.  [tag_name] is the class attribute
    [__tag] that the tag catalog defines; [named] holds the attributes that
    [setattr] creates for named children. *)
Record tagobj : Type := mkTag {
  cls : pyclass;
  tag_name : string;
  _name : option string;
  childs : list pyval;
  parent : option nat;
  content_data : dict;
  attrs : TagAttrs.t;
  _render : option string;
  _stable : bool;
  named : list (string * nat)
}.

(** An instance of [Content] built without a template element. *)
Record contentobj : Type := mkContent {
  c_name : option string;
  _fixed_content : pyval;
  c_parent : option nat
}.

Inductive obj : Type :=
| OTag (t : tagobj)
| OContent (c : contentobj).

(** The heap: the object with identity [n] is at position [n]. *)
Abbreviation heap := (list obj).
Definition H (A : Type) : Type := M heap A.

Definition set_childs (cs : list pyval) (t : tagobj) : tagobj :=
  mkTag (cls t) (tag_name t) (_name t) cs (parent t) (content_data t)
        (attrs t) (_render t) (_stable t) (named t).
Definition set_parent (p : option nat) (t : tagobj) : tagobj :=
  mkTag (cls t) (tag_name t) (_name t) (childs t) p (content_data t)
        (attrs t) (_render t) (_stable t) (named t).
Definition set_content_data (d : dict) (t : tagobj) : tagobj :=
  mkTag (cls t) (tag_name t) (_name t) (childs t) (parent t) d
        (attrs t) (_render t) (_stable t) (named t).
Definition set_attrs (a : TagAttrs.t) (t : tagobj) : tagobj :=
  mkTag (cls t) (tag_name t) (_name t) (childs t) (parent t) (content_data t)
        a (_render t) (_stable t) (named t).
Definition set_render (r : option string) (t : tagobj) : tagobj :=
  mkTag (cls t) (tag_name t) (_name t) (childs t) (parent t) (content_data t)
        (attrs t) r (_stable t) (named t).
Definition set_stable (b : bool) (t : tagobj) : tagobj :=
  mkTag (cls t) (tag_name t) (_name t) (childs t) (parent t) (content_data t)
        (attrs t) (_render t) b (named t).
Definition set_named (k : string) (c : nat) (t : tagobj) : tagobj :=
  mkTag (cls t) (tag_name t) (_name t) (childs t) (parent t) (content_data t)
        (attrs t) (_render t) (_stable t) ((k, c) :: named t).

Definition obj_parent (o : obj) : option nat :=
  match o with OTag t => parent t | OContent c => c_parent c end.
Definition obj_name (o : obj) : option string :=
  match o with OTag t => _name t | OContent c => c_name c end.
Definition obj_set_parent (p : option nat) (o : obj) : obj :=
  match o with
  | OTag t => OTag (set_parent p t)
  | OContent c => OContent (mkContent (c_name c) (_fixed_content c) p)
  end.

Definition get_obj (n : nat) : H obj :=
  fun h => match h !! n with
           | Some o => (Ok o, h)
           | None => (Beyond, h)
           end.

(** Reading an attribute that only a [DOMElement] has. *)
Definition get_tag (n : nat) : H tagobj :=
  o <- get_obj n ;;
  match o with
  | OTag t => ret t
  | OContent _ => raise AttributeError
  end.

Definition upd_obj (n : nat) (f : obj -> obj) : H unit :=
  modify (fun h => match h !! n with
                   | Some o => <[n := f o]> h
                   | None => h
                   end).

Definition upd_tag (n : nat) (f : tagobj -> tagobj) : H unit :=
  upd_obj n (fun o => match o with OTag t => OTag (f t) | _ => o end).

Definition alloc (o : obj) : H nat :=
  fun h => (Ok (length h), h ++ [o]).

(** [bool(v)]: a [DOMElement] defines [__len__], so it is truthy exactly when
    it has children; a [Content] is always truthy. *)
Definition truthy (v : pyval) : H bool :=
  match truthy_plain v with
  | Some b => ret b
  | None =>
      match v with
      | VRef n =>
          o <- get_obj n ;;
          match o with
          | OTag t => ret (negb (Nat.eqb (length (childs t)) 0))
          | OContent _ => ret true
          end
      | _ => beyond
      end
  end.

Definition name_truthy (name : option string) : bool :=
  match name with
  | Some s => negb (String.eqb s "")
  | None => false
  end.

(** ** Python lists and slices *)

(** [l.insert(i, x)]. *)
Definition list_insert_at {A} (i : Z) (x : A) (l : list A) : list A :=
  let n := Z.of_nat (length l) in
  let j := if (i <? 0)%Z then Z.max 0 (i + n) else Z.min i n in
  take (Z.to_nat j) l ++ x :: drop (Z.to_nat j) l.

(** An index that is not a position of the list, on its way into
    [list.insert] or [list.pop]: the conversion to [ssize_t] succeeds for
    a value of at most 32 bits and is an [OverflowError] for a value of
    more than 64 bits; in between it depends on the platform.  A position
    of the list always fits, as the length of the list does. *)
Definition as_ssize (i : Z) : outcome unit :=
  if ((- 2 ^ 31 <=? i) && (i <? 2 ^ 31))%Z then Ok tt
  else if ((- 2 ^ 63 <=? i) && (i <? 2 ^ 63))%Z then Beyond
  else Raise OverflowError.

(** The conversion of the index [i] of [l.insert(i, x)] for a list of
    length [len]. *)
Definition index_fits (i : Z) (len : nat) : outcome unit :=
  if ((- Z.of_nat len <=? i) && (i <=? Z.of_nat len))%Z then Ok tt
  else as_ssize i.

(** [l[::step]] for the steps the engine uses; a zero step is a
    [ValueError]. *)
Definition slice_step {A} (step : Z) (l : list A) : outcome (list A) :=
  if (step =? 0)%Z then Raise ValueError
  else if (step =? 1)%Z then Ok l
  else if (step =? -1)%Z then Ok (rev l)
  else Beyond.

(** ** class DOMElement *)

Module DOMElement.

(** What a generator produces when it is run to its end: the values it
    yields and how it finishes.  The consumer's loop body runs between
    two yields, so an exception that ends the generator comes after the
    work done for the values already yielded. *)
Definition yields : Type := (list (nat * pyval) * outcome unit)%type.

Definition then_yields (a b : yields) : yields :=
  match snd a with
  | Ok _ => (fst a ++ fst b, snd b)
  | _ => a
  end.

(** One turn of the loop of [_yield_items] for the [_ChildElement] with
    name [name] and object [obj] at enumeration index [i].  The nested
    call [self._yield_items(item.obj, {})] runs with [reverse=False]; its
    first statement slices [item.obj], which a generator does not
    support. *)
Fixpoint yield_item (i : nat) (name : option string) (obj : pyval)
    {struct obj} : yields :=
  match obj with
  | VList l | VTuple l =>
      if name_truthy name then ([(i, obj)], Ok tt)
      else
        (fix items (j : nat) (l : list pyval) {struct l} : yields :=
           match l with
           | [] => ([], Ok tt)
           | x :: r => then_yields (yield_item j None x) (items (S j) r)
           end) 0 l
  | VGen _ =>
      if name_truthy name then ([(i, obj)], Ok tt)
      else ([], Raise TypeError)
  | _ => ([(i, obj)], Ok tt)
  end.

(** [enumerate(chain(...))] over the two generators of [contents]. *)
Fixpoint yield_chain (i : nat) (l : list (option string * pyval)) : yields :=
  match l with
  | [] => ([], Ok tt)
  | (name, obj) :: r =>
      then_yields (yield_item i name obj) (yield_chain (S i) r)
  end.

(** [_yield_items(items, kwitems, reverse)] for a tuple [items]. *)
Definition _yield_items (items : list pyval) (kwitems : dict)
    (reverse : bool) : yields :=
  let verse : Z := if reverse then 0%Z else 1%Z in (* (1, 0)[reverse] *)
  match slice_step verse items with
  | Ok its =>
      let unnamed := map (fun item => (@None string, item)) its in
      match slice_step verse kwitems with
      | Ok kws =>
          let named := map (fun kv => (Some (fst kv), snd kv)) kws in
          match slice_step verse [unnamed; named] with
          | Ok contents => yield_chain 0 (concat contents)
          | Raise e => ([], Raise e)
          | Beyond => ([], Beyond)
          end
      | Raise e => ([], Raise e)
      | Beyond => ([], Beyond)
      end
  | Raise e => ([], Raise e)
  | Beyond => ([], Beyond)
  end.

(** A function decorated by [content_receiver], by the positional
    parameters of its [def]. *)
Inductive receiver : Type :=
| Def3 (body : nat -> nat -> pyval -> H unit)  (* def f(self, i, child) *)
| Def2 (body : nat -> pyval -> H unit).        (* def f(self, child) *)

(** [func(inst, i, tag)]. *)
Definition call3 (func : receiver) (inst i : nat) (tag : pyval) : H unit :=
  match func with
  | Def3 body => body inst i tag
  | Def2 _ => raise TypeError
  end.

(** The function [wrapped(inst, *tags, **kwtags)] that
    [content_receiver(reverse)(func)] returns. *)
Definition content_receiver (reverse : bool) (func : receiver)
    (inst : nat) (tags : list pyval) (kwtags : dict) : H pyval :=
  no_keyword "inst" kwtags
    (let ys := _yield_items tags kwtags reverse in
     for_each (fst ys)
       (fun it => upd_tag inst (set_stable false) ;;;
                  call3 func inst (fst it) (snd it)) ;;;
     lift_outcome (snd ys) ;;;
     ret (VRef inst)).

(** [l.index(x)] for a [DOMElement] [x]: equality is [__eq__], which
    compares [uuid]s, so an element without a [uuid] met before [x] is an
    [AttributeError]. *)
Fixpoint index_of (self : nat) (l : list pyval) (i : nat) : outcome nat :=
  match l with
  | [] => Raise ValueError
  | VRef m :: r => if Nat.eqb m self then Ok i else index_of self r (S i)
  | _ :: _ => Raise AttributeError
  end.

Definition _own_index (self : nat) : H (option nat) :=
  t <- get_tag self ;;
  match parent t with
  | None => ret None
  | Some p =>
      b <- truthy (VRef p) ;;
      if b then
        pt <- get_tag p ;;
        i <- lift_outcome (index_of self (childs pt) 0) ;;
        ret (Some i)
      else ret None
  end.

(** The position at which [_insert] inserts: the value of [idx] after the
    first two statements of [_insert], for a child list of length [len]. *)
Definition insert_index (idx : option Z) (prepend : bool) (len : nat) : Z :=
  let idx1 :=                           (* if idx and idx < 0: idx = 0 *)
    match idx with
    | Some i => if (i <? 0)%Z then Some 0%Z else Some i
    | None => None
    end in
  if prepend then 0%Z
  else match idx1 with
       | Some i => i
       | None => Z.of_nat len
       end.

(** The properties of an element, which cannot be assigned to, and the
    other attributes and methods that an element has under a public
    name. *)
Definition property_names : list string :=
  ["_own_index"; "length"; "index"; "stable"].

Definition member_names : list string :=
  ["childs"; "parent"; "content_data"; "uuid"; "attrs"; "data";
   "content_receiver"; "inject"; "clone"; "after"; "before"; "prepend";
   "prepend_to"; "append"; "append_to"; "wrap"; "wrap_inner";
   "replace_with"; "remove"; "move"; "pop"; "empty"; "childrens";
   "contents"; "first"; "last"; "next"; "next_all"; "prev"; "prev_all";
   "siblings"; "slice"; "render"; "attr"; "remove_attr"; "add_class";
   "remove_class"; "css"; "hide"; "show"; "toggle"; "has_class";
   "toggle_class"; "html"; "text"].

(** A name that starts with an underscore: the private attributes of an
    element ([_name], [_stable], [_render], the [__tag] of its class, ...)
    and the attributes it has from [object] are among them. *)
Definition private_name (nm : string) : bool := String.prefix "_" nm.

(** A name under which an element has no attribute yet. *)
Definition new_attribute (nm : string) : bool :=
  negb (str_in nm property_names) && negb (private_name nm)
  && negb (str_in nm member_names).

(** [setattr(self, nm, child)] for the child with identity [c]. *)
Definition setattr (self : nat) (nm : string) (c : nat) : H unit :=
  if str_in nm property_names then raise AttributeError
  else if new_attribute nm then upd_tag self (set_named nm c)
  else beyond.

Definition _insert (self : nat) (child : pyval) (idx : option Z)
    (prepend : bool) : H unit :=
  t <- get_tag self ;;
  let idx' := insert_index idx prepend (length (childs t)) in
  (* self.childs.insert(idx, child) *)
  lift_outcome (index_fits idx' (length (childs t))) ;;;
  upd_tag self (set_childs (list_insert_at idx' child (childs t))) ;;;
  match child with
  | VRef c =>
      o <- get_obj c ;;
      upd_obj c (obj_set_parent (Some self)) ;;;
      match obj_name o with
      | Some nm =>
          if name_truthy (Some nm) then setattr self nm c
          else ret tt
      | None => ret tt
      end
  | _ => ret tt
  end.

Definition _find_content_step (rec : nat -> option string -> H pyval)
    (self : nat) (cont_name : option string) : H pyval :=
  t <- get_tag self ;;
  let found :=
    match cont_name with
    | Some k => dict_get k (content_data t)
    | None => None
    end in
  match found with
  | Some a => ret a
  | None =>
      match parent t with
      | None => ret (VStr "")
      | Some p =>
          b <- truthy (VRef p) ;;
          if b then rec p cont_name else ret (VStr "")
      end
  end.

Fixpoint _find_content (fuel : nat) (self : nat) (cont_name : option string)
  : H pyval :=
  match fuel with
  | 0 => beyond
  | S fuel' => _find_content_step (_find_content fuel') self cont_name
  end.

(** The body of [inject] once its parameters are bound. *)
Definition inject_body (self : nat) (contents : option dict)
    (kwargs : dict) : H pyval :=
  upd_tag self (set_stable false) ;;;
  let contents1 :=
    match contents with
    | Some (x :: r) => x :: r
    | _ => []
    end in
  let contents2 :=
    match kwargs with
    | [] => contents1
    | _ :: _ => dict_update contents1 kwargs
    end in
  upd_tag self (fun t => set_content_data
                           (dict_update (content_data t) contents2) t) ;;;
  ret (VRef self).

(** [inject(self, contents=None, **kwargs)]: a keyword [contents] is the
    value of the parameter. *)
Definition inject (self : nat) (contents : option dict) (kwargs : dict)
  : H pyval :=
  no_keyword "self" kwargs
    match dict_get "contents" kwargs with
    | None => inject_body self contents kwargs
    | Some v =>
        match contents with
        | Some _ => raise TypeError
        | None =>
            match v with
            | VDict d => inject_body self (Some d) (dict_del "contents" kwargs)
            | VNone => inject_body self None (dict_del "contents" kwargs)
            | _ => upd_tag self (set_stable false) ;;; beyond
            end
        end
    end.

Definition __call__ : nat -> list pyval -> dict -> H pyval :=
  content_receiver false
    (Def3 (fun self _ child => _insert self child None false)).

(** [self.parent._insert(child, idx=self._own_index + delta)]. *)
Definition insert_sibling (self : nat) (child : pyval) (delta : Z)
  : H unit :=
  t <- get_tag self ;;
  match parent t with
  | None => raise AttributeError
  | Some p =>
      own <- _own_index self ;;
      match own with
      | None => raise TypeError
      | Some k => _insert p child (Some (Z.of_nat k + delta)%Z) false
      end
  end.

Definition after : nat -> list pyval -> dict -> H pyval :=
  content_receiver false
    (Def3 (fun self i child =>
             insert_sibling self child (1 + Z.of_nat i)%Z)).

Definition before : nat -> list pyval -> dict -> H pyval :=
  content_receiver true
    (Def3 (fun self i child =>
             insert_sibling self child (- Z.of_nat i)%Z)).

Definition prepend : nat -> list pyval -> dict -> H pyval :=
  content_receiver true
    (Def2 (fun self child => _insert self child None true)).

Definition append : nat -> list pyval -> dict -> H pyval :=
  content_receiver false
    (Def2 (fun self child => _insert self child None false)).

Definition pop (self : nat) (idx : option Z) : H pyval :=
  upd_tag self (set_stable false) ;;;
  t <- get_tag self ;;
  let n := Z.of_nat (length (childs t)) in
  let idx1 :=
    match idx with
    | Some i => if (i =? 0)%Z then (n - 1)%Z else i
    | None => (n - 1)%Z
    end in
  (* elem = self.childs.pop(idx) *)
  let j := if (idx1 <? 0)%Z then (idx1 + n)%Z else idx1 in
  if (j <? 0)%Z || (n <=? j)%Z
  then lift_outcome (as_ssize idx1) ;;; raise IndexError
  else
    match childs t !! Z.to_nat j with
    | None => raise IndexError
    | Some elem =>
        upd_tag self (set_childs (delete (Z.to_nat j) (childs t))) ;;;
        match elem with
        | VRef c =>
            o <- get_obj c ;;
            match o with
            | OTag _ => upd_tag c (set_parent None)
            | OContent _ => ret tt
            end
        | _ => ret tt
        end ;;;
        ret elem
    end.

(** A call [x.pop(kw=v)]: [pop] has the single parameter [idx]. *)
Definition pop_keyword (self : nat) (kw : string) (v : option Z)
  : H pyval :=
  if String.eqb kw "idx" then pop self v else raise TypeError.

Definition as_index (own : option nat) : option Z :=
  match own with
  | Some k => Some (Z.of_nat k)
  | None => None
  end.

Definition remove (self : nat) : H pyval :=
  own <- _own_index self ;;
  match own with
  | Some (S _) =>
      t <- get_tag self ;;
      b <- match parent t with
           | Some p => truthy (VRef p)
           | None => ret false
           end ;;
      if b then
        match parent t with
        | Some p =>
            own' <- _own_index self ;;
            pop_keyword p "i" (as_index own') ;;; ret tt
        | None => raise AttributeError
        end
      else ret tt
  | _ => ret tt
  end ;;;
  ret (VRef self).

Definition move (self new_father : nat) (idx : option Z)
    (prepend : option bool) : H pyval :=
  t <- get_tag self ;;
  match parent t with
  | None => raise AttributeError
  | Some p =>
      own <- _own_index self ;;
      pop_keyword p "i" (as_index own) ;;;
      (* new_father._insert(self._name, self, idx, prepend): one
         positional argument more than [_insert] has parameters *)
      raise TypeError
  end.

Definition empty (self : nat) : H pyval :=
  upd_tag self (set_stable false) ;;;
  t <- get_tag self ;;
  (* map(...) builds an iterator; nothing consumes it *)
  let _map : list (H pyval) :=
    map (fun child =>
           match child with
           | VRef c => own <- _own_index c ;; pop self (as_index own)
           | _ => raise AttributeError
           end) (childs t) in
  ret (VRef self).

Definition wrap (self other : nat) : H pyval :=
  ot <- get_tag other ;;
  match childs ot with
  | _ :: _ => raise TagError
  | [] =>
      t <- get_tag self ;;
      b <- match parent t with
           | Some p => truthy (VRef p)
           | None => ret false
           end ;;
      (if b then
         before self [VRef other] [] ;;;
         t' <- get_tag self ;;
         match parent t' with
         | None => raise AttributeError
         | Some p =>
             own <- _own_index self ;;
             pop p (as_index own) ;;; ret tt
         end
       else ret tt) ;;;
      append other [VRef self] []
  end.

Definition replace_with (self : nat) (other : pyval) : H pyval :=
  let splice (l : list pyval) : H pyval :=
    t <- get_tag self ;;
    match parent t with
    | None => raise AttributeError
    | Some p =>
        pt <- get_tag p ;;
        own <- _own_index self ;;
        match own with
        | None => raise TypeError
        | Some k =>
            upd_tag p (set_childs (take k (childs pt) ++ l
                                   ++ drop (S k) (childs pt))) ;;;
            ret (VRef self)
        end
    end in
  match other with
  | VRef n =>
      o <- get_obj n ;;
      match o with
      | OTag _ => ret (VRef n)
      | OContent _ => raise TagError
      end
  | VList l | VTuple l | VGen l => splice l
  | VNone | VFun _ => raise TagError
  | VStr _ | VDict _ => beyond
  end.

(** [prepend_to(father)] and [append_to(father)]: the call on the father,
    whose result is dropped. *)
Definition prepend_to (self father : nat) : H pyval :=
  prepend father [VRef self] [] ;;; ret VNone.

Definition append_to (self father : nat) : H pyval :=
  append father [VRef self] [] ;;; ret VNone.

(** [self.childs[0]] and [self.childs[-1]]. *)
Definition first (self : nat) : H pyval :=
  t <- get_tag self ;;
  match childs t with
  | x :: _ => ret x
  | [] => raise IndexError
  end.


End DOMElement.

(** ** class Content *)

Module Content.

(** [Content(name, content)]. *)
Definition __init__ (name : option string) (content : pyval) : H nat :=
  b <- (if name_truthy name then ret true else truthy content) ;;
  if b then alloc (OContent (mkContent name content None))
  else raise TagError.

(** [list(s)] for a string: its characters, one string each. *)
Fixpoint chars (s : string) : list pyval :=
  match s with
  | EmptyString => []
  | String a r => VStr (String a EmptyString) :: chars r
  end.

(** The property [content]; [find] is the method [_find_content] of the
    parent. *)
Definition content (find : nat -> option string -> H pyval)
    (c : contentobj) : H (list pyval) :=
  fixed <- truthy (_fixed_content c) ;;
  v <- (if fixed then ret (_fixed_content c)
        else match c_parent c with
             | None => raise AttributeError
             | Some p => find p (c_name c)
             end) ;;
  b <- truthy v ;;
  if b then
    match v with
    | VList l | VTuple l => ret l
    | VStr s => ret (chars s)
    | VDict d => ret (map (fun kv => VStr (fst kv)) d)
    | VRef n =>
        o <- get_obj n ;;
        match o with
        | OTag t => ret (childs t)
        | OContent _ => ret [v]
        end
    | VFun _ => ret [v]
    | VGen _ | VNone => beyond
    end
  else raise StopIteration.

(** The loop of [render] over the resolved items; [dispatch n] is the
    call [content.render(pretty)] on the element [n]. *)
Fixpoint render_items (dispatch : nat -> H string) (l : list pyval)
  : H (list string) :=
  match l with
  | [] => ret []
  | x :: r =>
      s <- match x with
           | VRef n =>
               o <- get_obj n ;;
               match o with
               | OTag _ => dispatch n
               | OContent _ => beyond
               end
           | _ => lift_outcome (py_str x)
           end ;;
      ss <- render_items dispatch r ;;
      ret (s :: ss)
  end.

Definition render_with (dispatch : nat -> H string)
    (find : nat -> option string -> H pyval) (c : contentobj) : H string :=
  l <- content find c ;;
  ret' <- render_items dispatch l ;;
  ret (join "" ret').

End Content.

(** ** class Tag(DOMElement) *)

Module Tag.

(** A method of [self.attrs], run on the container of the element. *)
Definition on_attrs {A} (self : nat) (m : M TagAttrs.t A) : H A :=
  t <- get_tag self ;;
  let res := m (attrs t) in
  upd_tag self (set_attrs (snd res)) ;;;
  lift_outcome (fst res).

(** The binding of a call [attr(attrs, **kwargs)] and the value of
    [attrs or kwargs] in its body: a keyword [attrs] is the value of the
    parameter, next to a positional one it is a [TypeError].  Only a
    mapping or a falsy value is described as the value of [attrs]. *)
Definition attr_chosen (attrs : option dict) (kwargs : dict)
  : outcome dict :=
  if dict_has "self" kwargs then Raise TypeError
  else
    match dict_get "attrs" kwargs with
    | None =>
        Ok match attrs with
           | Some (x :: r) => x :: r
           | _ => kwargs
           end
    | Some v =>
        match attrs with
        | Some _ => Raise TypeError
        | None =>
            match v with
            | VDict (x :: r) => Ok (x :: r)
            | _ =>
                match truthy_plain v with
                | Some false => Ok (dict_del "attrs" kwargs)
                | _ => Beyond
                end
            end
        end
    end.

Definition attr (self : nat) (attrs : option dict) (kwargs : dict)
  : H pyval :=
  chosen <- lift_outcome (attr_chosen attrs kwargs) ;;
  upd_tag self (set_stable false) ;;;
  on_attrs self (TagAttrs.update (Some chosen) []) ;;;
  ret (VRef self).

Definition remove_attr (self : nat) (attr : string) : H pyval :=
  upd_tag self (set_stable false) ;;;
  on_attrs self (TagAttrs.pop_default attr) ;;;
  ret (VRef self).

Definition add_class (self : nat) (cssclass : pyval) : H pyval :=
  upd_tag self (set_stable false) ;;;
  on_attrs self (TagAttrs.append_at "klass" cssclass) ;;;
  ret (VRef self).

Definition css (self : nat) (props : list pyval) (kwprops : dict)
  : H pyval :=
  no_keyword "self" kwprops
    (upd_tag self (set_stable false) ;;;
     styles <- match props with
               | [] =>
                   match kwprops with
                   | [] => raise TagError
                   | _ :: _ => ret (VDict kwprops)
                   end
               | [VDict d] => ret (VDict d)
               | [_; _] => raise TypeError     (* dict(a, b) *)
               | _ => raise TagError
               end ;;
     attr self (Some [("style", styles)]) []).

(** [self.attrs['style'][key] = value]. *)
Definition style_setitem (key : string) (value : pyval)
  : M TagAttrs.t unit :=
  st <- TagAttrs.getitem "style" ;;
  match st with
  | VDict d => TagAttrs.super_setitem "style" (VDict (dict_set key value d))
  | _ => raise TypeError
  end.

(** [self.attrs['style'].pop(key)]. *)
Definition style_pop (key : string) : M TagAttrs.t unit :=
  st <- TagAttrs.getitem "style" ;;
  match st with
  | VDict d =>
      if dict_has key d
      then TagAttrs.super_setitem "style" (VDict (dict_del key d))
      else raise KeyError
  | _ => beyond
  end.

Definition hide (self : nat) : H pyval :=
  upd_tag self (set_stable false) ;;;
  on_attrs self (style_setitem "display" VNone) ;;;
  ret (VRef self).

Definition show (self : nat) : H pyval :=
  upd_tag self (set_stable false) ;;;
  on_attrs self (style_pop "display") ;;;
  ret (VRef self).

(** [self.attrs['style']['display'] == None]. *)
Definition display_is_none : M TagAttrs.t bool :=
  st <- TagAttrs.getitem "style" ;;
  match st with
  | VDict d =>
      match dict_get "display" d with
      | None => raise KeyError
      | Some VNone => ret true
      | Some (VRef _) => beyond
      | Some _ => ret false
      end
  | _ => beyond
  end.

Definition toggle (self : nat) : H pyval :=
  upd_tag self (set_stable false) ;;;
  b <- on_attrs self display_is_none ;;
  if b then show self else hide self.

(** The position of the first element of a list that is equal to the
    string [s], as [in] and [list.remove] look for it.  Only a string is
    equal to a string; the comparison with a tree object goes through the
    object's [__eq__] and is not described here. *)
Fixpoint find_str (s : string) (l : list pyval) (i : nat)
  : outcome (option nat) :=
  match l with
  | [] => Ok None
  | VStr s' :: r => if String.eqb s' s then Ok (Some i) else find_str s r (S i)
  | VRef _ :: _ => Beyond
  | _ :: r => find_str s r (S i)
  end.

(** [self.attrs['klass'].remove(cssclass)] for a string [cssclass]. *)
Definition klass_remove (cssclass : pyval) : M TagAttrs.t unit :=
  cur <- TagAttrs.getitem "klass" ;;
  match cur with
  | VList l =>
      match cssclass with
      | VStr s =>
          found <- lift_outcome (find_str s l 0) ;;
          match found with
          | Some i => TagAttrs.super_setitem "klass" (VList (delete i l))
          | None => raise ValueError
          end
      | _ => beyond
      end
  | VRef _ => beyond
  | _ => raise AttributeError
  end.

Definition remove_class (self : nat) (cssclass : pyval) : H pyval :=
  upd_tag self (set_stable false) ;;;
  on_attrs self (klass_remove cssclass) ;;;
  ret (VRef self).

(** [csscl in self.attrs['klass']] for a string [csscl]. *)
Definition klass_contains (csscl : pyval) : M TagAttrs.t bool :=
  cur <- TagAttrs.getitem "klass" ;;
  match csscl with
  | VStr s =>
      match cur with
      | VList l | VTuple l =>
          found <- lift_outcome (find_str s l 0) ;;
          ret (match found with Some _ => true | None => false end)
      | VDict d => ret (dict_has s d)
      | VNone | VFun _ => raise TypeError
      | _ => beyond
      end
  | _ => beyond
  end.

Definition has_class (self : nat) (csscl : pyval) : H bool :=
  on_attrs self (klass_contains csscl).

Definition toggle_class (self : nat) (csscl : pyval) : H pyval :=
  upd_tag self (set_stable false) ;;;
  b <- has_class self csscl ;;
  if b then remove_class self csscl else add_class self csscl.

Section Rendering.

(** Whether a [StopIteration] that escapes the body of a generator is
    turned into a [RuntimeError] (Python 3.7 and later) or ends the
    generator silently (earlier versions). *)
Variable generator_stop : bool.

(** Running a generator expression to its end, as [str.join] does. *)
Fixpoint run_genexp {A} (steps : list (H A)) : H (list A) :=
  match steps with
  | [] => ret []
  | s :: r =>
      fun h =>
        match s h with
        | (Ok x, h') => (xs <- run_genexp r ;; ret (x :: xs)) h'
        | (Raise StopIteration, h') =>
            if generator_stop then (Raise RuntimeError, h')
            else (Ok [], h')
        | (Raise e, h') => (Raise e, h')
        | (Beyond, h') => (Beyond, h')
        end
  end.

(** [dispatch n] is the call [child.render()] on the object [n]. *)
Definition _get_child_renders (dispatch : nat -> H string) (self : nat)
  : H string :=
  t <- get_tag self ;;
  parts <- run_genexp
             (map (fun child =>
                     match child with
                     | VRef n => dispatch n
                     | _ => lift_outcome (py_str child)
                     end) (childs t)) ;;
  ret (join "" parts).

Definition is_void (c : pyclass) : bool :=
  match c with VoidTagC => true | _ => false end.

(** [self._template.format(tag=..., attrs=..., inner=...)]. *)
Definition format_template (c : pyclass) (name a inner : string)
  : string :=
  if is_void c then "<" +:+ name +:+ a +:+ "/>"
  else "<" +:+ name +:+ a +:+ ">" +:+ inner +:+ "</" +:+ name +:+ ">".

(** [getattr(self, '_%s__tag' % self.__class__.__name__)]: the classes of
    the catalog define [__tag], [Css] does not. *)
Definition class_tag (t : tagobj) : outcome string :=
  match cls t with
  | CssC => Raise AttributeError
  | _ => Ok (tag_name t)
  end.

(** [Tag.render(self, *args, **kwargs)], the method of the class [Tag]. *)
Definition render_with (dispatch : nat -> H string) (self : nat)
    (args : list pyval) (kwargs : dict) : H string :=
  no_keyword "self" kwargs
    (for_each args
       (fun arg => match arg with
                   | VDict d => DOMElement.inject self (Some d) [] ;;; ret tt
                   | _ => ret tt
                   end) ;;;
     match kwargs with
     | [] => ret tt
     | _ :: _ => DOMElement.inject self (Some kwargs) [] ;;; ret tt
     end ;;;
     t <- get_tag self ;;
     let cached :=
       if _stable t then
         match _render t with
         | Some r => if String.eqb r "" then None else Some r
         | None => None
         end
       else None in
     match cached with
     | Some r => ret r
     | None =>
         name <- lift_outcome (class_tag t) ;;
         a <- lift_outcome (TagAttrs.render (attrs t)) ;;
         inner <- (if negb (is_void (cls t))
                      && negb (Nat.eqb (length (childs t)) 0)
                   then _get_child_renders dispatch self
                   else ret "") ;;
         let r := format_template (cls t) name a inner in
         upd_tag self (set_render (Some r)) ;;;
         upd_tag self (set_stable true) ;;;
         ret r
     end).

(** The method that [x.render()] resolves to, by the class of [x]:
    [Css.render] for a style sheet, [Tag.render] for any other element and
    [Content.render] for a placeholder; [fuel] bounds the depth of the
    calls. *)
Fixpoint render_obj (fuel : nat) (self : nat) : H string :=
  match fuel with
  | 0 => beyond
  | S fuel' =>
      o <- get_obj self ;;
      match o with
      | OTag t =>
          match cls t with
          | CssC => lift_outcome (Css.render (attrs t) false)
          | _ => render_with (render_obj fuel') self [] []
          end
      | OContent c =>
          Content.render_with (render_obj fuel')
            (DOMElement._find_content fuel') c
      end
  end.

(** [Tag.render], with the renders of the children resolved by their
    classes.  It is what [x.render(...)] runs for an element [x] other
    than a style sheet. *)
Definition render (fuel : nat) (self : nat) (args : list pyval)
    (kwargs : dict) : H string :=
  render_with (render_obj fuel) self args kwargs.

(** [html()]. *)
Definition html (fuel : nat) (self : nat) : H string :=
  _get_child_renders (render_obj fuel) self.

(** [text()]. *)
Fixpoint text (fuel : nat) (self : nat) : H string :=
  match fuel with
  | 0 => beyond
  | S fuel' =>
      t <- get_tag self ;;
      texts <- (fix loop (cs : list pyval) : H (list pyval) :=
                  match cs with
                  | [] => ret []
                  | child :: r =>
                      x <- match child with
                           | VRef n =>
                               o <- get_obj n ;;
                               match o with
                               | OTag _ =>
                                   s <- text fuel' n ;; ret (VStr s)
                               | OContent c =>
                                   s <- Content.render_with
                                          (render_obj fuel')
                                          (DOMElement._find_content fuel')
                                          c ;;
                                   ret (VStr s)
                               end
                           | _ => ret child
                           end ;;
                      xs <- loop r ;;
                      ret (x :: xs)
                  end) (childs t) ;;
      ss <- lift_outcome (all_str texts) ;;
      ret (join "" ss)
  end.

End Rendering.

(** The property [stable]. *)
Fixpoint stable (fuel : nat) (self : nat) : H bool :=
  match fuel with
  | 0 => beyond
  | S fuel' =>
      t <- get_tag self ;;
      let all :=
        (fix all (cs : list pyval) : H bool :=
           match cs with
           | [] => ret true
           | VRef c :: r =>
               o <- get_obj c ;;
               b <- match o with
                    | OTag _ => stable fuel' c
                    | OContent _ => ret false
                    end ;;
               if b then all r else ret false
           | _ :: _ => raise AttributeError
           end) in
      a <- all (childs t) ;;
      t' <- get_tag self ;;
      let b := a && _stable t' in
      upd_tag self (set_stable b) ;;;
      ret b
  end.

(** [Tag.__init__(self, **kwargs)] for a class of the catalog with the
    given [__tag] and [_needed_kwargs]. *)
Definition __init__ (c : pyclass) (name : string)
    (_needed_kwargs : list string) (kwargs : dict) : H nat :=
  no_keyword "self" kwargs
    (if negb (Nat.eqb (length _needed_kwargs) 0)
        && negb (forallb (fun k => dict_has k kwargs) _needed_kwargs)
     then raise TagError
     else
       (* self.attr( **kwargs ) *)
       chosen <- lift_outcome (attr_chosen None kwargs) ;;
       let res := TagAttrs.update (Some chosen) [] TagAttrs.empty in
       lift_outcome (fst res) ;;;
       self <- alloc (OTag (mkTag c name None [] None [] (snd res)
                                  None false [])) ;;
       (if is_void c
        then r <- render_with true (fun _ => beyond) self [] [] ;;
             upd_tag self (set_render (Some r))
        else ret tt) ;;;
       ret self).

(** The properties [length] and [index]. *)
Definition length (self : nat) : H nat :=
  t <- get_tag self ;;
  ret (List.length (childs t)).

Definition index (self : nat) : H (option nat) :=
  DOMElement._own_index self.

End Tag.

(** [Content.render()] on the placeholder with identity [self]. *)
Definition Content_render (generator_stop : bool) (fuel : nat) (self : nat)
  : H string :=
  o <- get_obj self ;;
  match o with
  | OContent c =>
      Content.render_with (Tag.render_obj generator_stop fuel)
        (DOMElement._find_content fuel) c
  | OTag _ => raise AttributeError
  end.

(** ** Properties: vocabulary *)

(** The child list of an element and the parent reference of a node. *)
Definition child_list (h : heap) (p : nat) : option (list pyval) :=
  match h !! p with
  | Some (OTag t) => Some (childs t)
  | _ => None
  end.

Definition parent_ref (h : heap) (n : nat) : option nat :=
  match h !! n with
  | Some o => obj_parent o
  | None => None
  end.

(** [n] is in the child list of [p]. *)
Definition child_of (h : heap) (p n : nat) : Prop :=
  exists cs, child_list h p = Some cs /\ VRef n ∈ cs.

(** The single-parent invariant of the data model: a node is in at most one
    child list, and its parent reference is set exactly when it is in
    one. *)
Definition single_parent (h : heap) : Prop :=
  (forall n p q, child_of h p n -> child_of h q n -> p = q) /\
  (forall n, n < length h ->
     (parent_ref h n <> None <-> exists p, child_of h p n)).

(** The part of an object that the tree structure consists of: its parent
    reference and, for an element, its child list. *)
Definition skeleton (o : obj) : option nat * option (list pyval) :=
  (obj_parent o,
   match o with
   | OTag t => Some (childs t)
   | OContent _ => None
   end).

(** Discarding every cached render and stability flag. *)
Definition discard_cache (h : heap) : heap :=
  map (fun o => match o with
                | OTag t => OTag (set_stable false (set_render None t))
                | OContent _ => o
                end) h.

(** The render recomputed from scratch. *)
Definition render_from_scratch (generator_stop : bool) (fuel : nat)
    (E : nat) : H string :=
  fun h => Tag.render generator_stop fuel E [] [] (discard_cache h).

(** N calls, one for each element in order. *)
Definition one_by_one (method : nat -> list pyval -> dict -> H pyval)
    (P : nat) (elements : list pyval) : H pyval :=
  for_each elements (fun x => method P [x] [] ;;; ret tt) ;;;
  ret (VRef P).

(** A child that [_yield_items] passes on as it is. *)
Definition single_child (v : pyval) : bool :=
  match v with
  | VList _ | VTuple _ | VGen _ => false
  | _ => true
  end.

(** Computations that only read the state. *)
Definition reads_only {S A} (m : M S A) : Prop := forall s, snd (m s) = s.

(** Computations that change no child list and no parent reference. *)
Definition keeps_tree {A} (m : H A) : Prop :=
  forall h, skeleton <$> snd (m h) = skeleton <$> h.

(** Computations that rename no object and add none. *)
Definition keeps_names {A} (m : H A) : Prop :=
  forall h, obj_name <$> snd (m h) = obj_name <$> h.

(** The elements of an unnamed list, as [_yield_items] yields them. *)
Fixpoint numbered (j : nat) (l : list pyval) : list (nat * pyval) :=
  match l with
  | [] => []
  | x :: r => (j, x) :: numbered (S j) r
  end.

(** The text that the two style writes add to the attribute string. *)
Definition merged_style : string :=
  " style=" +:+ dquote +:+ "color: red; border: 1px;" +:+ dquote.

(** The tree nodes among the children. *)
Definition refs (cs : list pyval) : list nat :=
  omap (fun v => match v with VRef n => Some n | _ => None end) cs.

(** Parent references and child lists agree, and no node is twice in a
    child list. *)
Definition well_linked (h : heap) : Prop :=
  (forall p cs n, child_list h p = Some cs -> n ∈ refs cs ->
                  parent_ref h n = Some p) /\
  (forall n p, parent_ref h n = Some p -> child_of h p n) /\
  (forall p cs, child_list h p = Some cs -> NoDup (refs cs)).

(** A value that may be inserted: a plain value, or a node that is in the
    heap and has no parent. *)
Definition unattached (h : heap) (child : pyval) : Prop :=
  match child with
  | VRef c => c < length h /\ parent_ref h c = None
  | _ => True
  end.

(** The steps that build a tree: the two constructors, an insertion of an
    unattached value that stays within what is described here (the name of
    the child does not replace an attribute of the parent, and the index
    is converted on every platform alike), a [pop] that does not take out
    a placeholder, and anything that leaves child lists and parent
    references alone. *)
Inductive step : heap -> heap -> Prop :=
| step_new_tag (c : pyclass) (name : string) (needed : list string)
    (kwargs : dict) (h : heap) :
    step h (snd (Tag.__init__ c name needed kwargs h))
| step_new_content (name : option string) (content : pyval) (h : heap) :
    step h (snd (Content.__init__ name content h))
| step_insert (p : nat) (child : pyval) (idx : option Z) (prepend : bool)
    (h : heap) :
    unattached h child ->
    fst (DOMElement._insert p child idx prepend h) <> Beyond ->
    step h (snd (DOMElement._insert p child idx prepend h))
| step_pop (p : nat) (idx : option Z) (h : heap) :
    (forall c, fst (DOMElement.pop p idx h) = Ok (VRef c) ->
               exists t, h !! c = Some (OTag t)) ->
    step h (snd (DOMElement.pop p idx h))
| step_keeps_tree {A} (m : H A) (h : heap) :
    keeps_tree m -> step h (snd (m h)).

(** The states reached from the empty heap. *)
Inductive reachable : heap -> Prop :=
| reachable_empty : reachable []
| reachable_step (h h' : heap) : reachable h -> step h h' -> reachable h'.

(** A document as the markup describes it: text, the value [None], and
    elements with their class, tag name, rendered attributes and
    children. *)
Inductive dom : Type :=
| DText (s : string)
| DNone
| DNode (c : pyclass) (name : string) (a : string) (kids : list dom).

(** The markup of a document. *)
Fixpoint markup (d : dom) : string :=
  match d with
  | DText s => s
  | DNone => "None"
  | DNode c name a kids =>
      Tag.format_template c name a (join "" (map markup kids))
  end.

(** The text of a document: its strings, in order, without the tags. *)
Fixpoint text_of (d : dom) : string :=
  match d with
  | DText s => s
  | DNone => "None"
  | DNode _ _ _ kids => join "" (map text_of kids)
  end.

Fixpoint strings_only (d : dom) : bool :=
  match d with
  | DText _ => true
  | DNone => false
  | DNode _ _ _ kids => forallb strings_only kids
  end.

(** The nesting depth of a document. *)
Fixpoint height (d : dom) : nat :=
  match d with
  | DNode _ _ _ kids => S (foldr Nat.max 0 (map height kids))
  | _ => 0
  end.

(** The value [v] stands for the document [d] in the heap [h]: a string or
    [None] for itself, a reference to an element other than a style sheet
    for the element with its attributes and the documents of its
    children. *)
Inductive rep (h : heap) : pyval -> dom -> Prop :=
| rep_text (s : string) : rep h (VStr s) (DText s)
| rep_none : rep h VNone DNone
| rep_node (n : nat) (t : tagobj) (a : string) (kids : list dom) :
    h !! n = Some (OTag t) ->
    cls t <> CssC ->
    TagAttrs.render (attrs t) = Ok a ->
    Forall2 (rep h) (childs t) kids ->
    rep h (VRef n) (DNode (cls t) (tag_name t) a kids).

(** Every render that an element holds as valid is the markup of the
    document below the element. *)
Definition honest (h : heap) : Prop :=
  forall n t r d,
    h !! n = Some (OTag t) -> _stable t = true -> _render t = Some r ->
    r <> "" -> rep h (VRef n) d -> r = markup d.

(** An object without its cached render and stability flag. *)
Definition uncache (o : obj) : obj :=
  match o with
  | OTag t => OTag (set_stable false (set_render None t))
  | OContent _ => o
  end.

(** The values that [_yield_items] makes of an unnamed argument. *)
Fixpoint flatten (v : pyval) : list pyval :=
  match v with
  | VList l | VTuple l => concat (map flatten l)
  | _ => [v]
  end.

(** No generator inside the lists and tuples of an argument. *)
Fixpoint gen_free (v : pyval) : bool :=
  match v with
  | VList l | VTuple l => forallb gen_free l
  | VGen _ => false
  | _ => true
  end.

(** A value whose object, if it is a reference, is in the heap. *)
Definition live (h : heap) (v : pyval) : Prop :=
  match v with
  | VRef c => c < length h
  | _ => True
  end.

(** A value that [_insert] takes in without touching an attribute of the
    parent: a plain value, or a node of the heap whose name, if it has
    one, is not the name of an attribute of an element. *)
Definition insertable (h : heap) (v : pyval) : bool :=
  match v with
  | VRef c =>
      match h !! c with
      | Some o =>
          match obj_name o with
          | Some nm =>
              negb (name_truthy (Some nm)) || DOMElement.new_attribute nm
          | None => true
          end
      | None => false
      end
  | _ => true
  end.

(** An index that [list.insert] and [list.pop] convert on every
    platform. *)
Definition small_index (idx : option Z) : Prop :=
  match idx with
  | Some i => (- 2 ^ 31 <= i < 2 ^ 31)%Z
  | None => True
  end.

(** The walk of [_find_content] from the element [c] up to the element
    [a]: [n] steps, each from an element that does not bind [k] to its
    parent, an element with children. *)
Inductive climbs (h : heap) (k : string) : nat -> nat -> nat -> Prop :=
| climbs_here (a : nat) : climbs h k a a 0
| climbs_up (c p a n : nat) (t tp : tagobj) :
    h !! c = Some (OTag t) -> dict_get k (content_data t) = None ->
    parent t = Some p ->
    h !! p = Some (OTag tp) -> childs tp <> [] ->
    climbs h k p a n -> climbs h k c a (S n).

(** A flat style sheet: selectors with their declarations, all strings. *)
Definition flat_sheet (rules : list (string * list (string * string)))
  : TagAttrs.t :=
  TagAttrs.mk
    (map (fun r => (fst r,
                    VDict (map (fun kv => (fst kv, VStr (snd kv))) (snd r))))
         rules)
    None.

(** The strings that one rule of a flat sheet adds to the output: the
    selector with the opening brace, one string per declaration, and what
    closes the block. *)
Definition rule_strings (pretty : bool)
    (rule : string * list (string * string)) : list string :=
  (fst rule +:+ " { ")
  :: map (fun kv => fst kv +:+ ": " +:+ snd kv +:+ "; "
                    +:+ (if pretty then Css.nl else ""))
         (snd rule)
  ++ [if pretty then "}" +:+ Css.nl +:+ Css.nl else ""].

(** The markup of the children of a document. *)
Definition inner_markup (d : dom) : string :=
  match d with
  | DNode _ _ _ kids => join "" (map markup kids)
  | _ => ""
  end.


(** ** Scenarios built with the constructors and the public operations *)

Module Scenario.

(** [div = Div()(P()); div.render(); div[0].attr(id='x')]: the heap
    afterwards; [div] is object 0 and the paragraph is object 1. *)
Definition mutated_descendant (generator_stop : bool) : heap :=
  snd ((div <- Tag.__init__ TagC "div" [] [] ;;
        p <- Tag.__init__ TagC "p" [] [] ;;
        DOMElement.__call__ div [VRef p] [] ;;;
        Tag.render generator_stop 2 div [] [] ;;;
        Tag.attr p None [("id", VStr "x")]) []).

(** [a = Div(); b = Div(); c = P(); a(c); b(c)]: objects 0, 1 and 2. *)
Definition inserted_twice : heap :=
  snd ((a <- Tag.__init__ TagC "div" [] [] ;;
        b <- Tag.__init__ TagC "div" [] [] ;;
        c <- Tag.__init__ TagC "p" [] [] ;;
        DOMElement.__call__ a [VRef c] [] ;;;
        DOMElement.__call__ b [VRef c] []) []).

(** [a = Div(); b = Div(); c = P(); a(c)]. *)
Definition inserted_once : heap :=
  snd ((a <- Tag.__init__ TagC "div" [] [] ;;
        b <- Tag.__init__ TagC "div" [] [] ;;
        c <- Tag.__init__ TagC "p" [] [] ;;
        DOMElement.__call__ a [VRef c] []) []).

(** [ul = Ul()(Li(), Li())]: objects 0, 1 and 2. *)
Definition two_children : heap :=
  snd ((ul <- Tag.__init__ TagC "ul" [] [] ;;
        li1 <- Tag.__init__ TagC "li" [] [] ;;
        li2 <- Tag.__init__ TagC "li" [] [] ;;
        DOMElement.__call__ ul [VRef li1; VRef li2] []) []).

(** [div = Div()(Content(name='x'), 'tail')]: objects 0 and 1. *)
Definition unbound_placeholder : heap :=
  snd ((div <- Tag.__init__ TagC "div" [] [] ;;
        c <- Content.__init__ (Some "x") VNone ;;
        DOMElement.__call__ div [VRef c; VStr "tail"] []) []).

(** [div = Div()('tail')]: the same element without the placeholder. *)
Definition no_placeholder : heap :=
  snd ((div <- Tag.__init__ TagC "div" [] [] ;;
        DOMElement.__call__ div [VStr "tail"] []) []).

(** The attribute mapping [{"html body": {"color": "red"}}]. *)
Definition sheet : TagAttrs.t :=
  TagAttrs.mk [("html body", VDict [("color", VStr "red")])] None.

(** [page = Html(); head = Head(); body = Body()]: objects 0, 1, 2. *)
Definition page_head_body : heap :=
  snd ((page <- Tag.__init__ TagC "html" [] [] ;;
        head <- Tag.__init__ TagC "head" [] [] ;;
        Tag.__init__ TagC "body" [] []) []).

(** [div = Div()]. *)
Definition fresh_div : heap :=
  snd (Tag.__init__ TagC "div" [] [] []).

(** [p = P()('y'); div = Div(id='a')('x', p, Br())]: objects 0 ([div]),
    1 ([p]) and 2 ([br]). *)
Definition small_page : heap :=
  snd ((div <- Tag.__init__ TagC "div" [] [("id", VStr "a")] ;;
        p <- Tag.__init__ TagC "p" [] [] ;;
        br <- Tag.__init__ VoidTagC "br" [] [] ;;
        DOMElement.__call__ p [VStr "y"] [] ;;;
        DOMElement.__call__ div [VStr "x"; VRef p; VRef br] []) []).

(** The document of [small_page]. *)
Definition small_page_doc : dom :=
  DNode TagC "div" (" id=" +:+ dquote +:+ "a" +:+ dquote)
    [DText "x"; DNode TagC "p" "" [DText "y"]; DNode VoidTagC "br" "" []].

(** [ul = Ul()(Li(), Li())] and two more elements [a] and [b], objects 3
    and 4. *)
Definition two_children_two_fresh : heap :=
  snd ((a <- Tag.__init__ TagC "a" [] [] ;;
        Tag.__init__ TagC "b" [] []) two_children).

(** [div = Div()('text', P())]: objects 0 and 1. *)
Definition text_then_element : heap :=
  snd ((div <- Tag.__init__ TagC "div" [] [] ;;
        p <- Tag.__init__ TagC "p" [] [] ;;
        DOMElement.__call__ div [VStr "text"; VRef p] []) []).



(** [div = Div(klass='a')]: object 0, with the class list [['a']]. *)
Definition div_with_class : heap :=
  snd (Tag.__init__ TagC "div" [] [("klass", VStr "a")] []).

(** [div = Div().css(color='red')]: object 0. *)
Definition styled_div : heap :=
  snd ((div <- Tag.__init__ TagC "div" [] [] ;;
        Tag.css div [] [("color", VStr "red")]) []).

(** [css = Css(id='x')]: object 0. *)
Definition small_sheet : heap :=
  snd (Tag.__init__ CssC "" [] [("id", VStr "x")] []).

(** [div = Div(); c = Content(name=nm)]: objects 0 and 1, not yet
    linked. *)
Definition div_and_placeholder (nm : string) : heap :=
  snd ((div <- Tag.__init__ TagC "div" [] [] ;;
        Content.__init__ (Some nm) VNone) []).

End Scenario.

(** ** Properties *)

(** *** Running a computation *)

(** One step of a sequenced computation. *)
Lemma bind_run {S A B} (m : M S A) (k : A -> M S B) (s : S) :
  bind m k s = match m s with
               | (Ok a, s') => k a s'
               | (Raise e, s') => (Raise e, s')
               | (Beyond, s') => (Beyond, s')
               end.
Proof. reflexivity. Qed.

Lemma bind_ret_run {S A B} (a : A) (k : A -> M S B) (s : S) :
  bind (ret a) k s = k a s.
Proof. reflexivity. Qed.

(** A call without keywords runs the body. *)
Lemma no_keyword_nil {S A} (param : string) (body : M S A) :
  no_keyword param [] body = body.
Proof. reflexivity. Qed.

Lemma no_keyword_run {S A} (param : string) (kw : dict) (body : M S A) :
  dict_has param kw = false -> no_keyword param kw body = body.
Proof. intros E. unfold no_keyword. rewrite E. reflexivity. Qed.

Lemma reads_only_ret {S A} (a : A) : reads_only (@ret S A a).
Proof. intros s; reflexivity. Qed.

Lemma reads_only_raise {S A} (e : exn) : reads_only (@raise S A e).
Proof. intros s; reflexivity. Qed.

Lemma reads_only_beyond {S A} : reads_only (@beyond S A).
Proof. intros s; reflexivity. Qed.

Lemma reads_only_lift {S A} (o : outcome A) : reads_only (@lift_outcome S A o).
Proof. intros s; reflexivity. Qed.

Lemma reads_only_bind {S A B} (m : M S A) (k : A -> M S B) :
  reads_only m -> (forall a, reads_only (k a)) -> reads_only (bind m k).
Proof.
  intros Hm Hk s. unfold bind. specialize (Hm s).
  destruct (m s) as [[a|e|] s']; simpl in *; subst; auto.
  apply Hk.
Qed.

Lemma reads_only_get_obj (n : nat) : reads_only (get_obj n).
Proof. intros h. unfold get_obj. destruct (h !! n); reflexivity. Qed.

Lemma reads_only_get_tag (n : nat) : reads_only (get_tag n).
Proof.
  apply reads_only_bind; [apply reads_only_get_obj|].
  intros [t|c]; [apply reads_only_ret | apply reads_only_raise].
Qed.

Lemma reads_only_truthy (v : pyval) : reads_only (truthy v).
Proof.
  unfold truthy. destruct (truthy_plain v).
  - apply reads_only_ret.
  - destruct v; try apply reads_only_beyond.
    apply reads_only_bind; [apply reads_only_get_obj|].
    intros [t|c]; apply reads_only_ret.
Qed.

Create HintDb reads.
#[local] Hint Resolve reads_only_ret reads_only_raise reads_only_beyond
  reads_only_lift reads_only_get_obj reads_only_get_tag reads_only_truthy
  : reads.

Lemma get_tag_run (n : nat) (h : heap) (t : tagobj) :
  h !! n = Some (OTag t) -> get_tag n h = (Ok t, h).
Proof. intros E. unfold get_tag, get_obj, bind. rewrite E. reflexivity. Qed.

Lemma upd_tag_run (n : nat) (f : tagobj -> tagobj) (h : heap) (t : tagobj) :
  h !! n = Some (OTag t) -> upd_tag n f h = (Ok tt, <[n := OTag (f t)]> h).
Proof. intros E. unfold upd_tag, upd_obj, modify. rewrite E. reflexivity. Qed.

Lemma lookup_insert_same (n : nat) (o o' : obj) (h : heap) :
  h !! n = Some o -> <[n := o']> h !! n = Some o'.
Proof. intros E. apply list_lookup_insert_eq, (lookup_lt_Some _ _ _ E). Qed.

(** A method of the attribute container, seen from the element. *)
Lemma on_attrs_run {A} (self : nat) (m : M TagAttrs.t A) (h : heap)
    (t : tagobj) :
  h !! self = Some (OTag t) ->
  Tag.on_attrs self m h
  = (fst (m (attrs t)), <[self := OTag (set_attrs (snd (m (attrs t))) t)]> h).
Proof.
  intros E. unfold Tag.on_attrs.
  rewrite bind_run, (get_tag_run _ _ _ E), bind_run, (upd_tag_run _ _ _ _ E).
  reflexivity.
Qed.

(** Reading [_own_index] changes nothing. *)
Lemma own_index_pure (self : nat) (h : heap) :
  snd (DOMElement._own_index self h) = h.
Proof.
  revert h. change (reads_only (DOMElement._own_index self)).
  unfold DOMElement._own_index.
  apply reads_only_bind; auto with reads. intros t.
  destruct (parent t) as [p|]; auto with reads.
  apply reads_only_bind; auto with reads. intros [|]; auto with reads.
  apply reads_only_bind; auto with reads. intros pt.
  apply reads_only_bind; auto with reads.
Qed.

Lemma reads_only_own_index (self : nat) :
  reads_only (DOMElement._own_index self).
Proof. intros h. apply own_index_pure. Qed.

#[local] Hint Resolve reads_only_own_index : reads.

Lemma reads_only_find_content (fuel : nat) (self : nat)
    (cont_name : option string) :
  reads_only (DOMElement._find_content fuel self cont_name).
Proof.
  revert self. induction fuel as [|fuel IH]; intros self;
    cbn [DOMElement._find_content]; auto with reads.
  unfold DOMElement._find_content_step.
  apply reads_only_bind; auto with reads. intros t.
  destruct (match cont_name with Some k => _ | None => _ end);
    auto with reads.
  destruct (parent t); auto with reads.
  apply reads_only_bind; auto with reads. intros [|]; auto with reads.
Qed.

(** *** The tree structure of a heap *)

Lemma child_list_skeleton (h h' : heap) (p : nat) :
  skeleton <$> h = skeleton <$> h' -> child_list h p = child_list h' p.
Proof.
  intros E. unfold child_list.
  assert (skeleton <$> (h !! p) = skeleton <$> (h' !! p)) as E'
    by (rewrite <- !list_lookup_fmap, E; reflexivity).
  destruct (h !! p) as [[t|c]|], (h' !! p) as [[t'|c']|]; simpl in E';
    try discriminate; try reflexivity.
  injection E' as _ ->. reflexivity.
Qed.

Lemma parent_ref_skeleton (h h' : heap) (n : nat) :
  skeleton <$> h = skeleton <$> h' -> parent_ref h n = parent_ref h' n.
Proof.
  intros E. unfold parent_ref.
  assert (skeleton <$> (h !! n) = skeleton <$> (h' !! n)) as E'
    by (rewrite <- !list_lookup_fmap, E; reflexivity).
  destruct (h !! n) as [o|], (h' !! n) as [o'|]; simpl in E';
    try discriminate; try reflexivity.
  injection E' as E1 _. exact E1.
Qed.

(** Writing a field other than [childs] and [parent] keeps the tree. *)
Lemma upd_tag_skeleton (n : nat) (f : tagobj -> tagobj) (h : heap) :
  (forall t, childs (f t) = childs t /\ parent (f t) = parent t) ->
  fst (upd_tag n f h) = Ok tt /\
  skeleton <$> snd (upd_tag n f h) = skeleton <$> h.
Proof.
  intros Hf. unfold upd_tag, upd_obj, modify. cbn [fst snd].
  split; [reflexivity|].
  destruct (h !! n) as [o|] eqn:E; [|reflexivity].
  rewrite list_fmap_insert. apply list_insert_id.
  rewrite list_lookup_fmap, E. simpl. f_equal.
  destruct o as [t|c]; [|reflexivity].
  unfold skeleton. simpl. destruct (Hf t) as [-> ->]. reflexivity.
Qed.

Lemma set_stable_skeleton (n : nat) (b : bool) (h : heap) :
  skeleton <$> snd (upd_tag n (set_stable b) h) = skeleton <$> h.
Proof. apply upd_tag_skeleton. intros t; split; reflexivity. Qed.

Lemma skeleton_length (h h' : heap) :
  skeleton <$> h = skeleton <$> h' -> length h = length h'.
Proof.
  intros E. rewrite <- (length_fmap skeleton h), E. apply length_fmap.
Qed.

Lemma child_list_Some (h : heap) (p : nat) (L : list pyval) :
  child_list h p = Some L ->
  exists t, h !! p = Some (OTag t) /\ childs t = L.
Proof.
  unfold child_list. destruct (h !! p) as [[t|c]|]; try discriminate.
  intros [= <-]. eauto.
Qed.

Lemma child_list_tag (h : heap) (n : nat) :
  child_list h n <> None -> exists t, h !! n = Some (OTag t).
Proof.
  unfold child_list. destruct (h !! n) as [[t|c]|]; try congruence. eauto.
Qed.

Lemma child_list_set_childs (h : heap) (p q : nat) (t t' : tagobj) :
  h !! p = Some (OTag t) ->
  child_list (<[p := OTag t']> h) q
  = if decide (q = p) then Some (childs t') else child_list h q.
Proof.
  intros E. unfold child_list. destruct (decide (q = p)) as [->|Hq].
  - rewrite (lookup_insert_same _ _ _ _ E). reflexivity.
  - rewrite list_lookup_insert_ne by congruence. reflexivity.
Qed.

Lemma parent_ref_set_childs (h : heap) (p n : nat) (t t' : tagobj) :
  h !! p = Some (OTag t) -> parent t' = parent t ->
  parent_ref (<[p := OTag t']> h) n = parent_ref h n.
Proof.
  intros E Hp. unfold parent_ref. destruct (decide (n = p)) as [->|Hn].
  - rewrite (lookup_insert_same _ _ _ _ E), E. exact Hp.
  - rewrite list_lookup_insert_ne by congruence. reflexivity.
Qed.

Lemma child_list_set_parent (h : heap) (c q : nat) (o : obj)
    (x : option nat) :
  h !! c = Some o ->
  child_list (<[c := obj_set_parent x o]> h) q = child_list h q.
Proof.
  intros E. unfold child_list. destruct (decide (q = c)) as [->|Hq].
  - rewrite (lookup_insert_same _ _ _ _ E), E. destruct o; reflexivity.
  - rewrite list_lookup_insert_ne by congruence. reflexivity.
Qed.

Lemma parent_ref_set_parent (h : heap) (c n : nat) (o : obj)
    (x : option nat) :
  h !! c = Some o ->
  parent_ref (<[c := obj_set_parent x o]> h) n
  = if decide (n = c) then x else parent_ref h n.
Proof.
  intros E. unfold parent_ref. destruct (decide (n = c)) as [->|Hn].
  - rewrite (lookup_insert_same _ _ _ _ E). destruct o; reflexivity.
  - rewrite list_lookup_insert_ne by congruence. reflexivity.
Qed.

(** *** Operations that change no child list and no parent reference *)

Lemma reads_only_keeps_tree {A} (m : H A) : reads_only m -> keeps_tree m.
Proof. intros Hm h. rewrite (Hm h). reflexivity. Qed.

Lemma keeps_tree_bind {A B} (m : H A) (k : A -> H B) :
  keeps_tree m -> (forall a, keeps_tree (k a)) -> keeps_tree (bind m k).
Proof.
  intros Hm Hk h. rewrite bind_run. specialize (Hm h).
  destruct (m h) as [[a|e|] h1]; cbn [snd] in *; try exact Hm.
  rewrite (Hk a h1). exact Hm.
Qed.

Lemma keeps_tree_upd_tag (n : nat) (f : tagobj -> tagobj) :
  (forall t, childs (f t) = childs t /\ parent (f t) = parent t) ->
  keeps_tree (upd_tag n f).
Proof. intros Hf h. apply upd_tag_skeleton, Hf. Qed.

Lemma keeps_tree_for_each {A} (l : list A) (body : A -> H unit) :
  (forall x, keeps_tree (body x)) -> keeps_tree (for_each l body).
Proof.
  intros Hb. induction l as [|x r IH]; cbn [for_each].
  - apply reads_only_keeps_tree, reads_only_ret.
  - apply keeps_tree_bind; [apply Hb | intros _; exact IH].
Qed.

Lemma keeps_tree_no_keyword {A} (param : string) (kw : dict) (m : H A) :
  keeps_tree m -> keeps_tree (no_keyword param kw m).
Proof.
  intros Hm. unfold no_keyword. destruct (dict_has param kw);
    [apply reads_only_keeps_tree, reads_only_raise | exact Hm].
Qed.

Ltac keeps_tree_step :=
  cbv zeta;
  first
    [ apply reads_only_keeps_tree; solve [auto with reads]
    | apply keeps_tree_upd_tag; intros ?; split; reflexivity
    | apply keeps_tree_for_each; intros ?
    | apply keeps_tree_no_keyword
    | apply keeps_tree_bind; [|intros ?] ].

Ltac keeps_tree_auto :=
  repeat first
    [ keeps_tree_step
    | match goal with
      | |- keeps_tree (match ?c with _ => _ end) => destruct c
      end ].

Lemma keeps_tree_on_attrs {A} (self : nat) (m : M TagAttrs.t A) :
  keeps_tree (Tag.on_attrs self m).
Proof. unfold Tag.on_attrs. repeat keeps_tree_step. Qed.

Lemma keeps_tree_attr (self : nat) (attrs : option dict) (kwargs : dict) :
  keeps_tree (Tag.attr self attrs kwargs).
Proof.
  unfold Tag.attr. repeat keeps_tree_step.
Qed.

Lemma keeps_tree_css (self : nat) (props : list pyval) (kwprops : dict) :
  keeps_tree (Tag.css self props kwprops).
Proof.
  unfold Tag.css. keeps_tree_step.
  keeps_tree_step; [keeps_tree_step|].
  keeps_tree_step; [|apply keeps_tree_attr].
  destruct props as [|[] [|? [|? ?]]]; try destruct kwprops;
    repeat keeps_tree_step.
Qed.

Lemma keeps_tree_add_class (self : nat) (cssclass : pyval) :
  keeps_tree (Tag.add_class self cssclass).
Proof.
  unfold Tag.add_class. repeat keeps_tree_step.
Qed.

Lemma keeps_tree_inject (self : nat) (contents : option dict)
    (kwargs : dict) :
  keeps_tree (DOMElement.inject self contents kwargs).
Proof.
  unfold DOMElement.inject, DOMElement.inject_body. keeps_tree_auto.
Qed.

Lemma keeps_tree_empty (self : nat) : keeps_tree (DOMElement.empty self).
Proof. unfold DOMElement.empty. repeat keeps_tree_step. Qed.

Lemma keeps_tree_before (self : nat) (args : list pyval) (kwargs : dict) :
  keeps_tree (DOMElement.before self args kwargs).
Proof.
  apply keeps_tree_no_keyword. intros h. reflexivity.
Qed.

Lemma keeps_tree_prepend (self : nat) (args : list pyval) (kwargs : dict) :
  keeps_tree (DOMElement.prepend self args kwargs).
Proof.
  apply keeps_tree_no_keyword. intros h. reflexivity.
Qed.

Lemma keeps_tree_remove (self : nat) : keeps_tree (DOMElement.remove self).
Proof.
  unfold DOMElement.remove, DOMElement.pop_keyword.
  change (String.eqb "i" "idx") with false. cbv iota.
  keeps_tree_auto.
Qed.

(** The render of a subtree writes caches and flags only. *)
Lemma keeps_tree_run_genexp {A} (gs : bool) (steps : list (H A)) :
  Forall keeps_tree steps -> keeps_tree (Tag.run_genexp gs steps).
Proof.
  induction 1 as [|s r Hs Hr IH]; intros h; cbn [Tag.run_genexp].
  - reflexivity.
  - specialize (Hs h). destruct (s h) as [[x|e|] h1]; cbn [snd] in *.
    + rewrite bind_run. specialize (IH h1).
      destruct (Tag.run_genexp gs r h1) as [[xs|e|] h2];
        unfold ret; cbn [snd] in *; rewrite IH; exact Hs.
    + destruct e; try exact Hs. destruct gs; exact Hs.
    + exact Hs.
Qed.

Lemma keeps_tree_render_with (gs : bool) (dispatch : nat -> H string)
    (self : nat) (args : list pyval) (kwargs : dict) :
  (forall n, keeps_tree (dispatch n)) ->
  keeps_tree (Tag.render_with gs dispatch self args kwargs).
Proof.
  intros Hd. unfold Tag.render_with, Tag._get_child_renders.
  keeps_tree_auto.
  apply keeps_tree_run_genexp.
  match goal with |- Forall _ (map _ ?l) => induction l as [|c r IH] end;
    constructor; [|exact IH].
  destruct c; try (apply reads_only_keeps_tree; solve [auto with reads]).
  apply Hd.
Qed.

Lemma keeps_tree_content_render (dispatch : nat -> H string)
    (find : nat -> option string -> H pyval) (c : contentobj) :
  (forall n, keeps_tree (dispatch n)) ->
  (forall n k, reads_only (find n k)) ->
  keeps_tree (Content.render_with dispatch find c).
Proof.
  intros Hd Hf. unfold Content.render_with.
  keeps_tree_step.
  { apply reads_only_keeps_tree. unfold Content.content.
    apply reads_only_bind; auto with reads. intros fixed.
    apply reads_only_bind.
    { destruct fixed; auto with reads. destruct (c_parent c); auto with reads. }
    intros v. apply reads_only_bind; auto with reads. intros [|];
      auto with reads.
    destruct v; auto with reads.
    apply reads_only_bind; auto with reads. intros [t|c']; auto with reads. }
  keeps_tree_step; [|keeps_tree_step].
  induction a as [|x r IH]; cbn [Content.render_items];
    [keeps_tree_step|].
  keeps_tree_step; [|keeps_tree_step; [exact IH | keeps_tree_step]].
  destruct x; try (apply reads_only_keeps_tree; solve [auto with reads]).
  keeps_tree_step; [keeps_tree_step|].
  match goal with o : obj |- _ => destruct o end;
    [apply Hd | keeps_tree_step].
Qed.

Lemma keeps_tree_render_obj (gs : bool) (fuel : nat) (self : nat) :
  keeps_tree (Tag.render_obj gs fuel self).
Proof.
  revert self. induction fuel as [|fuel IH]; intros self;
    cbn [Tag.render_obj]; [keeps_tree_step|].
  keeps_tree_step; [keeps_tree_step|].
  destruct a as [t|c].
  - destruct (cls t); try (apply keeps_tree_render_with, IH).
    keeps_tree_step.
  - apply keeps_tree_content_render; [apply IH|].
    intros n k. apply reads_only_find_content.
Qed.

Lemma keeps_tree_render (gs : bool) (fuel : nat) (self : nat)
    (args : list pyval) (kwargs : dict) :
  keeps_tree (Tag.render gs fuel self args kwargs).
Proof. apply keeps_tree_render_with, keeps_tree_render_obj. Qed.

(** *** The render cache *)

(** The cache test of [render] looks at the element alone: a stable element
    with a cached string returns it whatever has happened below it. *)
Lemma render_returns_cache (gs : bool) (fuel : nat) (E : nat) (h : heap)
    (t : tagobj) (r : string) :
  h !! E = Some (OTag t) ->
  _stable t = true -> _render t = Some r -> r <> "" ->
  Tag.render gs fuel E [] [] h = (Ok r, h).
Proof.
  intros Et Hs Hr Hne. unfold Tag.render, Tag.render_with.
  rewrite no_keyword_nil.
  cbn [for_each]. rewrite !bind_ret_run, bind_run.
  rewrite (get_tag_run _ _ _ Et), Hs, Hr.
  apply String.eqb_neq in Hne. rewrite Hne. reflexivity.
Qed.

(** C1. After [div.render()], changing an attribute of the paragraph inside
    [div] leaves the cache of [div] in use: [div.render()] returns the old
    string, while the render recomputed from scratch shows the new
    attribute. *)
Theorem C1_render_keeps_stale_cache_of_ancestor :
  forall generator_stop,
    let h := Scenario.mutated_descendant generator_stop in
    fst (Tag.render generator_stop 2 0 [] [] h) = Ok "<div><p></p></div>" /\
    fst (render_from_scratch generator_stop 2 0 h)
    = Ok ("<div><p id=" +:+ dquote +:+ "x" +:+ dquote +:+ "></p></div>").
Proof.
  intros [|]; split; vm_compute; reflexivity.
Qed.

(** The property [stable], which looks at the children, does report the
    change that [render] misses. *)
Lemma stable_sees_mutated_descendant :
  forall generator_stop,
    fst (Tag.stable 2 0 (Scenario.mutated_descendant generator_stop))
    = Ok false.
Proof. intros [|]; vm_compute; reflexivity. Qed.

(** *** The linking invariant *)

Lemma elem_of_refs (n : nat) (cs : list pyval) :
  n ∈ refs cs <-> VRef n ∈ cs.
Proof.
  unfold refs. rewrite list_elem_of_omap. split.
  - intros (x & Hx & E). destruct x; try discriminate.
    injection E as ->. exact Hx.
  - intros Hn. exists (VRef n). split; [exact Hn | reflexivity].
Qed.

Lemma well_linked_skeleton (h h' : heap) :
  skeleton <$> h = skeleton <$> h' -> well_linked h -> well_linked h'.
Proof.
  intros E (W1 & W2 & W3).
  assert (forall p, child_list h' p = child_list h p) as Ec
    by (intros p; symmetry; apply child_list_skeleton, E).
  assert (forall n, parent_ref h' n = parent_ref h n) as Ep
    by (intros n; symmetry; apply parent_ref_skeleton, E).
  split; [|split].
  - intros p cs n Hc Hn. rewrite Ep. rewrite Ec in Hc. eauto.
  - intros n p Hp. rewrite Ep in Hp. destruct (W2 n p Hp) as (cs & Hc & Hn).
    exists cs. rewrite Ec. auto.
  - intros p cs Hc. rewrite Ec in Hc. eauto.
Qed.

Lemma well_linked_single_parent (h : heap) :
  well_linked h -> single_parent h.
Proof.
  intros (W1 & W2 & W3). split.
  - intros n p q (cs & Hc & Hn) (cs' & Hc' & Hn').
    apply elem_of_refs in Hn, Hn'.
    pose proof (W1 p cs n Hc Hn) as E1.
    pose proof (W1 q cs' n Hc' Hn') as E2. congruence.
  - intros n Hlt. split.
    + destruct (parent_ref h n) as [p|] eqn:E; [|congruence].
      intros _. exists p. apply W2, E.
    + intros (p & cs & Hc & Hn). apply elem_of_refs in Hn.
      rewrite (W1 p cs n Hc Hn). discriminate.
Qed.

Lemma well_linked_nil : well_linked [].
Proof.
  split; [|split].
  - intros p cs n Hc. discriminate.
  - intros n p Hp. discriminate.
  - intros p cs Hc. discriminate.
Qed.

(** A fresh object has no parent and no children. *)
Lemma well_linked_alloc (h : heap) (o : obj) :
  obj_parent o = None ->
  (forall t, o = OTag t -> childs t = []) ->
  well_linked h -> well_linked (h ++ [o]).
Proof.
  intros Hp Hc (W1 & W2 & W3).
  assert (forall q, child_list (h ++ [o]) q = child_list h q
                    \/ child_list (h ++ [o]) q = Some []) as Ec.
  { intros q. unfold child_list.
    destruct (decide (q < length h)) as [Hlt|Hge].
    - left. rewrite lookup_app_l by exact Hlt. reflexivity.
    - rewrite lookup_app_r by lia.
      destruct (q - length h) as [|k]; simpl.
      + destruct o as [t|c]; [right; rewrite (Hc t eq_refl); reflexivity|].
        left. rewrite lookup_ge_None_2 by lia. reflexivity.
      + left. rewrite lookup_ge_None_2 by lia. reflexivity. }
  assert (forall n, parent_ref (h ++ [o]) n = parent_ref h n) as Ep.
  { intros n. unfold parent_ref.
    destruct (decide (n < length h)) as [Hlt|Hge].
    - rewrite lookup_app_l by exact Hlt. reflexivity.
    - rewrite lookup_app_r by lia. rewrite (lookup_ge_None_2 h) by lia.
      destruct (n - length h) as [|k]; simpl; [exact Hp | reflexivity]. }
  split; [|split].
  - intros p cs n Hcs Hn. rewrite Ep.
    destruct (Ec p) as [E|E]; rewrite E in Hcs.
    + eauto.
    + injection Hcs as <-. inversion Hn.
  - intros n p Hpn. rewrite Ep in Hpn.
    destruct (W2 n p Hpn) as (cs & Hcs & Hn). exists cs. split; [|exact Hn].
    clear Ec. unfold child_list in Hcs |- *.
    destruct (h !! p) as [[t|c]|] eqn:El; try discriminate.
    rewrite (lookup_app_l_Some _ _ _ _ El). exact Hcs.
  - intros p cs Hcs. destruct (Ec p) as [E|E]; rewrite E in Hcs.
    + eauto.
    + injection Hcs as <-. constructor.
Qed.

(** A node with no parent enters the child list of [p]. *)
Lemma well_linked_attach (h h' : heap) (p c : nat) (cs cs' : list pyval) :
  child_list h p = Some cs ->
  parent_ref h c = None ->
  child_list h' p = Some cs' ->
  refs cs' ≡ₚ c :: refs cs ->
  (forall q, q <> p -> child_list h' q = child_list h q) ->
  parent_ref h' c = Some p ->
  (forall n, n <> c -> parent_ref h' n = parent_ref h n) ->
  well_linked h -> well_linked h'.
Proof.
  intros Hcs Hpc Hcs' Hperm Hcq Hpc' Hpn (W1 & W2 & W3).
  assert (c ∉ refs cs) as Hfresh.
  { intros Hin. rewrite (W1 p cs c Hcs Hin) in Hpc. discriminate. }
  split; [|split].
  - intros q l n Hl Hn. destruct (decide (q = p)) as [->|Hq].
    + rewrite Hcs' in Hl. injection Hl as <-.
      rewrite Hperm in Hn. apply elem_of_cons in Hn as [->|Hn];
        [exact Hpc'|].
      rewrite Hpn; [eauto|]. intros ->. contradiction.
    + rewrite (Hcq q Hq) in Hl. pose proof (W1 q l n Hl Hn) as E.
      rewrite Hpn; [exact E|]. intros ->. congruence.
  - intros n q Hq. destruct (decide (n = c)) as [->|Hn].
    + rewrite Hpc' in Hq. injection Hq as <-.
      exists cs'. split; [exact Hcs'|]. apply elem_of_refs.
      rewrite Hperm. apply elem_of_cons. left. reflexivity.
    + rewrite (Hpn n Hn) in Hq. destruct (W2 n q Hq) as (l & Hl & Hin).
      destruct (decide (q = p)) as [->|Hqp].
      * exists cs'. split; [exact Hcs'|]. apply elem_of_refs.
        rewrite Hperm. apply elem_of_cons. right.
        apply elem_of_refs. congruence.
      * exists l. rewrite (Hcq q Hqp). auto.
  - intros q l Hl. destruct (decide (q = p)) as [->|Hq].
    + rewrite Hcs' in Hl. injection Hl as <-. rewrite Hperm.
      apply NoDup_cons. split; [exact Hfresh | eauto].
    + rewrite (Hcq q Hq) in Hl. eauto.
Qed.

(** The child list of [p] changes in its plain values only. *)
Lemma well_linked_plain (h h' : heap) (p : nat) (cs cs' : list pyval) :
  child_list h p = Some cs ->
  child_list h' p = Some cs' ->
  refs cs' ≡ₚ refs cs ->
  (forall q, q <> p -> child_list h' q = child_list h q) ->
  (forall n, parent_ref h' n = parent_ref h n) ->
  well_linked h -> well_linked h'.
Proof.
  intros Hcs Hcs' Hperm Hcq Hpn (W1 & W2 & W3).
  split; [|split].
  - intros q l n Hl Hn. rewrite Hpn. destruct (decide (q = p)) as [->|Hq].
    + rewrite Hcs' in Hl. injection Hl as <-. rewrite Hperm in Hn. eauto.
    + rewrite (Hcq q Hq) in Hl. eauto.
  - intros n q Hq. rewrite Hpn in Hq. destruct (W2 n q Hq) as (l & Hl & Hin).
    destruct (decide (q = p)) as [->|Hqp].
    + exists cs'. split; [exact Hcs'|]. apply elem_of_refs. rewrite Hperm.
      apply elem_of_refs. congruence.
    + exists l. rewrite (Hcq q Hqp). auto.
  - intros q l Hl. destruct (decide (q = p)) as [->|Hq].
    + rewrite Hcs' in Hl. injection Hl as <-. rewrite Hperm. eauto.
    + rewrite (Hcq q Hq) in Hl. eauto.
Qed.

(** A child leaves the child list of [p] and loses its parent. *)
Lemma well_linked_detach (h h' : heap) (p c : nat) (cs cs' : list pyval) :
  child_list h p = Some cs ->
  child_list h' p = Some cs' ->
  refs cs ≡ₚ c :: refs cs' ->
  (forall q, q <> p -> child_list h' q = child_list h q) ->
  parent_ref h' c = None ->
  (forall n, n <> c -> parent_ref h' n = parent_ref h n) ->
  well_linked h -> well_linked h'.
Proof.
  intros Hcs Hcs' Hperm Hcq Hpc' Hpn (W1 & W2 & W3).
  pose proof (W3 p cs Hcs) as Hnd. rewrite Hperm in Hnd.
  apply NoDup_cons in Hnd as [Hfresh Hnd].
  assert (parent_ref h c = Some p) as Hpc.
  { apply (W1 p cs c Hcs). rewrite Hperm. apply elem_of_cons. auto. }
  split; [|split].
  - intros q l n Hl Hn. destruct (decide (q = p)) as [->|Hq].
    + rewrite Hcs' in Hl. injection Hl as <-.
      rewrite Hpn by (intros ->; contradiction).
      apply (W1 p cs n Hcs). rewrite Hperm. apply elem_of_cons. auto.
    + rewrite (Hcq q Hq) in Hl. pose proof (W1 q l n Hl Hn) as E.
      rewrite Hpn; [exact E|]. intros ->. congruence.
  - intros n q Hq. destruct (decide (n = c)) as [->|Hn]; [congruence|].
    rewrite (Hpn n Hn) in Hq. destruct (W2 n q Hq) as (l & Hl & Hin).
    destruct (decide (q = p)) as [->|Hqp].
    + exists cs'. split; [exact Hcs'|]. apply elem_of_refs.
      assert (n ∈ refs cs) as Hin' by (apply elem_of_refs; congruence).
      rewrite Hperm in Hin'. apply elem_of_cons in Hin' as [->|Hin'];
        [contradiction | exact Hin'].
    + exists l. rewrite (Hcq q Hqp). auto.
  - intros q l Hl. destruct (decide (q = p)) as [->|Hq].
    + rewrite Hcs' in Hl. injection Hl as <-. exact Hnd.
    + rewrite (Hcq q Hq) in Hl. eauto.
Qed.

(** *** What [_insert] and [pop] do to the tree *)

Lemma refs_app (l1 l2 : list pyval) : refs (l1 ++ l2) = refs l1 ++ refs l2.
Proof. apply omap_app. Qed.

Lemma refs_insert_at_ref (i : Z) (c : nat) (l : list pyval) :
  refs (list_insert_at i (VRef c) l) ≡ₚ c :: refs l.
Proof.
  unfold list_insert_at. rewrite refs_app.
  change (refs (VRef c :: ?r)) with (c :: refs r).
  rewrite <- Permutation_middle, <- refs_app, take_drop. reflexivity.
Qed.

Lemma refs_insert_at_plain (i : Z) (x : pyval) (l : list pyval) :
  (forall n, x <> VRef n) -> refs (list_insert_at i x l) = refs l.
Proof.
  intros Hx. unfold list_insert_at. rewrite refs_app.
  assert (refs (x :: drop (Z.to_nat
            (if (i <? 0)%Z then Z.max 0 (i + Z.of_nat (length l))
             else Z.min i (Z.of_nat (length l)))) l)
          = refs (drop (Z.to_nat
            (if (i <? 0)%Z then Z.max 0 (i + Z.of_nat (length l))
             else Z.min i (Z.of_nat (length l)))) l)) as ->.
  { destruct x; try reflexivity. exfalso. apply (Hx n). reflexivity. }
  rewrite <- refs_app, take_drop. reflexivity.
Qed.

Lemma refs_delete_ref (k c : nat) (l : list pyval) :
  l !! k = Some (VRef c) -> refs l ≡ₚ c :: refs (delete k l).
Proof.
  intros E. rewrite <- (take_drop_middle l k (VRef c) E) at 1.
  rewrite delete_take_drop, !refs_app.
  change (refs (VRef c :: ?r)) with (c :: refs r).
  rewrite <- Permutation_middle. reflexivity.
Qed.

Lemma refs_delete_plain (k : nat) (x : pyval) (l : list pyval) :
  l !! k = Some x -> (forall n, x <> VRef n) -> refs (delete k l) = refs l.
Proof.
  intros E Hx. rewrite <- (take_drop_middle l k x E) at 2.
  rewrite delete_take_drop, !refs_app. f_equal.
  destruct x; try reflexivity. exfalso. apply (Hx n). reflexivity.
Qed.

(** [_insert] renames nothing, so a value that can be inserted before it
    can be inserted after it. *)
Lemma keeps_names_bind {A B} (m : H A) (k : A -> H B) :
  keeps_names m -> (forall a, keeps_names (k a)) -> keeps_names (bind m k).
Proof.
  intros Hm Hk h. rewrite bind_run. specialize (Hm h).
  destruct (m h) as [[a|e|] h1]; cbn [snd] in *; try exact Hm.
  rewrite (Hk a h1). exact Hm.
Qed.

Lemma reads_only_keeps_names {A} (m : H A) : reads_only m -> keeps_names m.
Proof. intros Hm h. rewrite (Hm h). reflexivity. Qed.

Lemma keeps_names_upd_obj (n : nat) (f : obj -> obj) :
  (forall o, obj_name (f o) = obj_name o) -> keeps_names (upd_obj n f).
Proof.
  intros Hf h. unfold upd_obj, modify. cbn [snd].
  destruct (h !! n) as [o|] eqn:E; [|reflexivity].
  rewrite list_fmap_insert. apply list_insert_id.
  rewrite list_lookup_fmap, E. cbn. rewrite Hf. reflexivity.
Qed.

Lemma keeps_names_upd_tag (n : nat) (f : tagobj -> tagobj) :
  (forall t, _name (f t) = _name t) -> keeps_names (upd_tag n f).
Proof.
  intros Hf. apply keeps_names_upd_obj. intros [t|c]; [apply Hf|reflexivity].
Qed.

Lemma keeps_names_insert (p : nat) (child : pyval) (idx : option Z)
    (prepend : bool) :
  keeps_names (DOMElement._insert p child idx prepend).
Proof.
  unfold DOMElement._insert.
  apply keeps_names_bind;
    [apply reads_only_keeps_names; auto with reads | intros t].
  cbv zeta. apply keeps_names_bind;
    [apply reads_only_keeps_names; auto with reads | intros _].
  apply keeps_names_bind;
    [apply keeps_names_upd_tag; reflexivity | intros _].
  destruct child; try (apply reads_only_keeps_names; solve [auto with reads]).
  apply keeps_names_bind;
    [apply reads_only_keeps_names; auto with reads | intros o].
  apply keeps_names_bind;
    [apply keeps_names_upd_obj; intros [t0|c0]; reflexivity | intros _].
  destruct (obj_name o) as [nm|];
    [|apply reads_only_keeps_names; auto with reads].
  destruct (name_truthy (Some nm));
    [|apply reads_only_keeps_names; auto with reads].
  unfold DOMElement.setattr.
  destruct (str_in nm DOMElement.property_names);
    [apply reads_only_keeps_names; auto with reads|].
  destruct (DOMElement.new_attribute nm);
    [apply keeps_names_upd_tag; reflexivity
    |apply reads_only_keeps_names; auto with reads].
Qed.

Lemma insertable_names (h h' : heap) (v : pyval) :
  obj_name <$> h' = obj_name <$> h -> insertable h' v = insertable h v.
Proof.
  intros E. destruct v; try reflexivity. cbn [insertable].
  assert (obj_name <$> (h' !! n) = obj_name <$> (h !! n)) as E'
    by (rewrite <- !list_lookup_fmap, E; reflexivity).
  destruct (h' !! n) as [o'|], (h !! n) as [o|]; cbn in E';
    try discriminate; [|reflexivity].
  injection E' as ->. reflexivity.
Qed.

Lemma forallb_insertable_names (h h' : heap) (l : list pyval) :
  obj_name <$> h' = obj_name <$> h ->
  forallb (insertable h') l = forallb (insertable h) l.
Proof.
  intros E. induction l as [|x r IH]; [reflexivity|].
  cbn [forallb]. rewrite IH, (insertable_names _ _ x E). reflexivity.
Qed.

Lemma insertable_live (h : heap) (v : pyval) :
  insertable h v = true -> live h v.
Proof.
  destruct v; cbn [insertable live]; try (intros _; exact I).
  destruct (h !! n) as [o|] eqn:E; [|discriminate].
  intros _. apply (lookup_lt_Some _ _ _ E).
Qed.

(** An index of at most 32 bits is converted on every platform, and so
    is a position of the list. *)
Lemma index_fits_small (idx : option Z) (prepend : bool) (n : nat) :
  small_index idx ->
  index_fits (DOMElement.insert_index idx prepend n) n = Ok tt.
Proof.
  intros Hs. unfold index_fits, as_ssize.
  set (i := DOMElement.insert_index idx prepend n).
  assert ((0 <= i <= Z.of_nat n)%Z \/ (0 <= i < 2 ^ 31)%Z) as Hi.
  { unfold i, DOMElement.insert_index.
    destruct prepend; [left; lia|].
    destruct idx as [j|]; [|left; lia].
    cbn [small_index] in Hs.
    destruct (Z.ltb_spec j 0); [left; lia | right; lia]. }
  destruct ((- Z.of_nat n <=? i) && (i <=? Z.of_nat n))%Z eqn:E1;
    [reflexivity|].
  destruct ((- 2 ^ 31 <=? i) && (i <? 2 ^ 31))%Z eqn:E2; [reflexivity|].
  exfalso. apply andb_false_iff in E1, E2.
  rewrite Z.leb_gt in E1, E2. rewrite Z.leb_gt in E1. rewrite Z.ltb_ge in E2.
  lia.
Qed.

(** An index that is not converted: [_insert] stops before it writes. *)
Lemma insert_refused (p : nat) (child : pyval) (idx : option Z)
    (prepend : bool) (h : heap) (t : tagobj) :
  h !! p = Some (OTag t) ->
  index_fits (DOMElement.insert_index idx prepend (length (childs t)))
    (length (childs t)) <> Ok tt ->
  snd (DOMElement._insert p child idx prepend h) = h /\
  forall u, fst (DOMElement._insert p child idx prepend h) <> Ok u.
Proof.
  intros Ep Hno. unfold DOMElement._insert.
  rewrite bind_run, (get_tag_run _ _ _ Ep). cbv zeta.
  rewrite bind_run. unfold lift_outcome at 1.
  destruct (index_fits _ _) as [[]|e|]; [congruence| |];
    (split; [reflexivity | intros u; discriminate]).
Qed.

(** [setattr] under a new name adds the attribute. *)
Lemma setattr_run (self : nat) (nm : string) (c : nat) :
  DOMElement.new_attribute nm = true ->
  DOMElement.setattr self nm c = upd_tag self (set_named nm c).
Proof.
  intros Hn. unfold DOMElement.setattr. rewrite Hn.
  unfold DOMElement.new_attribute in Hn.
  destruct (str_in nm DOMElement.property_names); [discriminate|].
  reflexivity.
Qed.

Lemma keeps_tree_setattr (self : nat) (nm : string) (c : nat) :
  keeps_tree (DOMElement.setattr self nm c).
Proof.
  unfold DOMElement.setattr.
  destruct (str_in nm DOMElement.property_names); [keeps_tree_step|].
  destruct (DOMElement.new_attribute nm); keeps_tree_step.
Qed.

(** The insertion of a reference to a live object at an index that is
    converted: the heap afterwards is this one up to the fields that are
    not part of the tree, and the insertion returns when the name of the
    child is not in the way. *)
Lemma insert_ref_run (p c : nat) (idx : option Z) (prepend : bool)
    (h : heap) (t : tagobj) (o : obj) :
  h !! p = Some (OTag t) -> h !! c = Some o ->
  index_fits (DOMElement.insert_index idx prepend (length (childs t)))
    (length (childs t)) = Ok tt ->
  let cs' := list_insert_at
               (DOMElement.insert_index idx prepend (length (childs t)))
               (VRef c) (childs t) in
  exists o1 r h',
    <[p := OTag (set_childs cs' t)]> h !! c = Some o1 /\
    DOMElement._insert p (VRef c) idx prepend h = (r, h') /\
    (insertable h (VRef c) = true -> r = Ok tt) /\
    skeleton <$> h'
    = skeleton <$> (<[c := obj_set_parent (Some p) o1]>
                      (<[p := OTag (set_childs cs' t)]> h)).
Proof.
  intros Ep Ec Hfit cs'. unfold DOMElement._insert.
  rewrite bind_run, (get_tag_run _ _ _ Ep). cbv zeta. fold cs'.
  rewrite bind_run. unfold lift_outcome at 1. rewrite Hfit.
  rewrite bind_run, (upd_tag_run _ _ _ _ Ep).
  set (h1 := <[p := OTag (set_childs cs' t)]> h).
  assert (exists o1, h1 !! c = Some o1 /\ obj_name o1 = obj_name o)
    as (o1 & Ec1 & Enm).
  { unfold h1. destruct (decide (c = p)) as [->|Hne].
    - rewrite (lookup_insert_same _ _ _ _ Ep). eexists. split; [reflexivity|].
      rewrite Ep in Ec. injection Ec as <-. reflexivity.
    - rewrite list_lookup_insert_ne by congruence. eauto. }
  exists o1.
  rewrite bind_run. unfold get_obj at 1. rewrite Ec1.
  rewrite bind_run. unfold upd_obj at 1, modify. rewrite Ec1.
  set (h2 := <[c := obj_set_parent (Some p) o1]> h1).
  cbn [insertable]. rewrite Ec, <- Enm.
  destruct (obj_name o1) as [nm|]; [|exists (Ok tt), h2; auto].
  destruct (name_truthy (Some nm)); [|exists (Ok tt), h2; auto].
  cbn [negb orb].
  pose proof (keeps_tree_setattr p nm c h2) as E2.
  destruct (DOMElement.new_attribute nm) eqn:Hnew.
  - rewrite (setattr_run _ _ _ Hnew) in E2 |- *.
    unfold upd_tag, upd_obj, modify in E2 |- *. cbn [snd] in E2.
    eexists (Ok tt), _. split; [reflexivity|]. split; [reflexivity|].
    split; [reflexivity | exact E2].
  - destruct (DOMElement.setattr p nm c h2) as [r h3]. cbn [snd] in E2.
    exists r, h3. split; [reflexivity|]. split; [reflexivity|].
    split; [discriminate | exact E2].
Qed.

(** The insertion of a plain value only changes the child list. *)
Lemma insert_plain_run (p : nat) (child : pyval) (idx : option Z)
    (prepend : bool) (h : heap) (t : tagobj) :
  h !! p = Some (OTag t) -> (forall n, child <> VRef n) ->
  index_fits (DOMElement.insert_index idx prepend (length (childs t)))
    (length (childs t)) = Ok tt ->
  DOMElement._insert p child idx prepend h
  = (Ok tt,
     <[p := OTag (set_childs
                    (list_insert_at
                       (DOMElement.insert_index idx prepend
                          (length (childs t)))
                       child (childs t)) t)]> h).
Proof.
  intros Ep Hplain Hfit. unfold DOMElement._insert.
  rewrite bind_run, (get_tag_run _ _ _ Ep). cbv zeta.
  rewrite bind_run. unfold lift_outcome at 1. rewrite Hfit.
  rewrite bind_run, (upd_tag_run _ _ _ _ Ep).
  destruct child; try reflexivity. exfalso. apply (Hplain n). reflexivity.
Qed.

(** Inserting a reference: the node enters the child list of [p] and its
    parent reference becomes [p]; nothing else in the tree changes, so a
    child list the node was in before still has it. *)
Lemma insert_ref_effect (p c : nat) (idx : option Z) (prepend : bool)
    (h : heap) (t : tagobj) (o : obj) :
  h !! p = Some (OTag t) -> h !! c = Some o ->
  index_fits (DOMElement.insert_index idx prepend (length (childs t)))
    (length (childs t)) = Ok tt ->
  let h' := snd (DOMElement._insert p (VRef c) idx prepend h) in
  exists cs',
    refs cs' ≡ₚ c :: refs (childs t) /\
    child_list h' p = Some cs' /\
    (forall q, q <> p -> child_list h' q = child_list h q) /\
    parent_ref h' c = Some p /\
    (forall n, n <> c -> parent_ref h' n = parent_ref h n).
Proof.
  intros Ep Ec Hfit h'.
  destruct (insert_ref_run p c idx prepend h t o Ep Ec Hfit)
    as (o1 & r & h0 & Ec1 & Erun & _ & Esk).
  assert (h' = h0) as -> by (unfold h'; rewrite Erun; reflexivity).
  clear Erun.
  set (cs' := list_insert_at _ (VRef c) (childs t)) in *.
  assert (refs cs' ≡ₚ c :: refs (childs t)) as Hperm
    by apply refs_insert_at_ref.
  set (h1 := <[p := OTag (set_childs cs' t)]> h) in *.
  set (h2 := <[c := obj_set_parent (Some p) o1]> h1) in *.
  assert (forall q, child_list h0 q
                    = if decide (q = p) then Some cs' else child_list h q)
    as Hcl.
  { intros q. rewrite (child_list_skeleton _ _ q Esk). unfold h2.
    rewrite (child_list_set_parent _ _ _ _ _ Ec1).
    unfold h1. rewrite (child_list_set_childs _ _ _ _ _ Ep). reflexivity. }
  assert (forall n, parent_ref h0 n
                    = if decide (n = c) then Some p else parent_ref h n)
    as Hpr.
  { intros n. rewrite (parent_ref_skeleton _ _ n Esk). unfold h2.
    rewrite (parent_ref_set_parent _ _ _ _ _ Ec1).
    destruct (decide (n = c)); [reflexivity|].
    unfold h1. apply (parent_ref_set_childs _ _ _ _ _ Ep). reflexivity. }
  exists cs'. split; [exact Hperm|].
  split; [rewrite Hcl, decide_True; reflexivity|].
  split; [intros q Hq; rewrite Hcl, decide_False; [reflexivity|exact Hq]|].
  split; [rewrite Hpr, decide_True; reflexivity|].
  intros n Hn. rewrite Hpr, decide_False; [reflexivity|exact Hn].
Qed.

Lemma insert_well_linked (p : nat) (child : pyval) (idx : option Z)
    (prepend : bool) (h : heap) :
  unattached h child -> well_linked h ->
  well_linked (snd (DOMElement._insert p child idx prepend h)).
Proof.
  intros Hu W.
  destruct (h !! p) as [[t|c0]|] eqn:Ep.
  - destruct (index_fits
                (DOMElement.insert_index idx prepend (length (childs t)))
                (length (childs t))) as [[]|e|] eqn:Hfit.
    2,3: destruct (insert_refused p child idx prepend h t Ep) as [-> _];
         [rewrite Hfit; discriminate | exact W].
    assert (child_list h p = Some (childs t)) as Hcs
      by (unfold child_list; rewrite Ep; reflexivity).
    assert ((exists c, child = VRef c) \/ (forall n, child <> VRef n))
      as [[c ->]|Hplain].
    { destruct child; try (right; intros n0; discriminate). left. eauto. }
    + destruct Hu as [Hlt Hpc].
      destruct (lookup_lt_is_Some_2 h c Hlt) as [o Ec].
      destruct (insert_ref_effect p c idx prepend h t o Ep Ec Hfit)
        as (cs' & Hperm & Hcs' & Hcq & Hpc' & Hpn).
      exact (well_linked_attach _ _ p c _ cs' Hcs Hpc Hcs' Hperm Hcq Hpc'
               Hpn W).
    + rewrite (insert_plain_run p child idx prepend h t Ep Hplain Hfit).
      cbn [snd].
      set (i := DOMElement.insert_index idx prepend (length (childs t))).
      set (h1 := <[p := OTag (set_childs (list_insert_at i child (childs t))
                                 t)]> h).
      apply (well_linked_plain h h1 p (childs t)
               (list_insert_at i child (childs t)) Hcs); [| | | |exact W].
      * unfold h1. rewrite (child_list_set_childs _ _ _ _ _ Ep), decide_True;
          reflexivity.
      * rewrite (refs_insert_at_plain _ _ _ Hplain). reflexivity.
      * intros q Hq. unfold h1.
        rewrite (child_list_set_childs _ _ _ _ _ Ep), decide_False;
          [reflexivity | exact Hq].
      * intros n. unfold h1.
        apply (parent_ref_set_childs _ _ _ _ _ Ep). reflexivity.
  - unfold DOMElement._insert, get_tag, get_obj.
    rewrite !bind_run, Ep. exact W.
  - unfold DOMElement._insert, get_tag, get_obj.
    rewrite !bind_run, Ep. exact W.
Qed.

Lemma pop_well_linked (p : nat) (idx : option Z) (h : heap) :
  (forall c, fst (DOMElement.pop p idx h) = Ok (VRef c) ->
             exists t, h !! c = Some (OTag t)) ->
  well_linked h -> well_linked (snd (DOMElement.pop p idx h)).
Proof.
  intros Hc W.
  destruct (DOMElement.pop p idx h) as [res h'] eqn:Epop.
  cbn [fst snd] in *. revert Epop. unfold DOMElement.pop.
  destruct (h !! p) as [[t|c0]|] eqn:Ep.
  - rewrite bind_run, (upd_tag_run _ _ _ _ Ep).
    set (h0 := <[p := OTag (set_stable false t)]> h).
    assert (h0 !! p = Some (OTag (set_stable false t))) as Ep0
      by apply (lookup_insert_same _ _ _ _ Ep).
    assert (skeleton <$> h0 = skeleton <$> h) as Esk0.
    { pose proof (upd_tag_skeleton p (set_stable false) h) as [_ E].
      { intros t0; split; reflexivity. }
      rewrite (upd_tag_run _ _ _ _ Ep) in E. exact E. }
    rewrite bind_run, (get_tag_run _ _ _ Ep0). cbv zeta.
    cbn [childs set_stable].
    match goal with
    | |- context [if ?b then bind _ _ else _] => destruct b
    end.
    { rewrite bind_run. unfold lift_outcome at 1.
      destruct (as_ssize _) as [[]|e|]; intros [= <- <-];
        (apply (well_linked_skeleton h h0); [|exact W]);
        symmetry; exact Esk0. }
    match goal with
    | |- context [childs t !! ?k] =>
        set (k0 := k); destruct (childs t !! k0) as [elem|] eqn:Ek
    end.
    2:{ intros [= <- <-]. apply (well_linked_skeleton h h0); [|exact W].
        symmetry. exact Esk0. }
    rewrite bind_run, (upd_tag_run _ _ _ _ Ep0).
    unfold h0. rewrite list_insert_insert_eq.
    set (t1 := set_childs (delete k0 (childs t)) (set_stable false t)).
    set (h1 := <[p := OTag t1]> h).
    assert (child_list h p = Some (childs t)) as Hcs
      by (unfold child_list; rewrite Ep; reflexivity).
    assert (forall q, child_list h1 q
                      = if decide (q = p) then Some (delete k0 (childs t))
                        else child_list h q) as Hcl1.
    { intros q. unfold h1, t1.
      rewrite (child_list_set_childs _ _ _ _ _ Ep). reflexivity. }
    assert (forall n, parent_ref h1 n = parent_ref h n) as Hpr1.
    { intros n. unfold h1.
      apply (parent_ref_set_childs _ _ _ _ _ Ep). reflexivity. }
    assert ((exists c, elem = VRef c) \/ (forall n, elem <> VRef n))
      as [[c ->]|Hplain].
    { destruct elem; try (right; intros n0; discriminate). left. eauto. }
    + assert (parent_ref h c = Some p) as Hpc.
      { destruct W as (W1 & _). apply (W1 p (childs t) c Hcs).
        apply elem_of_refs, (list_elem_of_lookup_2 _ k0), Ek. }
      assert (exists o1, h1 !! c = Some o1) as [o1 Ec1].
      { apply lookup_lt_is_Some. unfold h1. rewrite length_insert.
        unfold parent_ref in Hpc. destruct (h !! c) eqn:Ec; [|discriminate].
        apply (lookup_lt_Some _ _ _ Ec). }
      rewrite !bind_run. unfold get_obj at 1. rewrite Ec1.
      destruct o1 as [tc|cc].
      * rewrite (upd_tag_run _ _ _ _ Ec1).
        intros [= <- <-].
        change (OTag (set_parent None tc))
          with (obj_set_parent None (OTag tc)).
        apply (well_linked_detach h _ p c (childs t)
                 (delete k0 (childs t)) Hcs); [| | | | |exact W].
        -- rewrite (child_list_set_parent _ _ _ _ _ Ec1), Hcl1, decide_True;
             reflexivity.
        -- apply (refs_delete_ref _ _ _ Ek).
        -- intros q Hq.
           rewrite (child_list_set_parent _ _ _ _ _ Ec1), Hcl1.
           rewrite decide_False by exact Hq. reflexivity.
        -- rewrite (parent_ref_set_parent _ _ _ _ _ Ec1), decide_True;
             reflexivity.
        -- intros n Hn. rewrite (parent_ref_set_parent _ _ _ _ _ Ec1).
           rewrite decide_False by exact Hn. apply Hpr1.
      * intros [= <- <-]. exfalso.
        destruct (Hc c eq_refl) as [tc Etc].
        unfold h1 in Ec1. destruct (decide (c = p)) as [->|Hne].
        -- rewrite (lookup_insert_same _ _ _ _ Ep) in Ec1. discriminate.
        -- rewrite list_lookup_insert_ne in Ec1 by congruence. congruence.
    + assert (forall s, (match elem with
                         | VRef c =>
                             o <- get_obj c ;;
                             match o with
                             | OTag _ => upd_tag c (set_parent None)
                             | OContent _ => ret tt
                             end
                         | _ => ret tt
                         end) s = (Ok tt, s)) as Eplain.
      { intros s. destruct elem; try reflexivity.
        exfalso. apply (Hplain n). reflexivity. }
      rewrite !bind_run, Eplain. intros [= <- <-].
      apply (well_linked_plain h h1 p (childs t) (delete k0 (childs t)) Hcs);
        [| | | |exact W].
      * rewrite Hcl1, decide_True; reflexivity.
      * rewrite (refs_delete_plain _ _ _ Ek Hplain). reflexivity.
      * intros q Hq. rewrite Hcl1, decide_False; [reflexivity|exact Hq].
      * exact Hpr1.
  - unfold upd_tag, upd_obj, modify, get_tag, get_obj.
    rewrite !bind_run, Ep. cbn. rewrite list_insert_id by exact Ep.
    rewrite Ep. intros [= <- <-]. exact W.
  - unfold upd_tag, upd_obj, modify, get_tag, get_obj.
    rewrite !bind_run, Ep. cbn. rewrite Ep. intros [= <- <-]. exact W.
Qed.

(** *** The constructors *)

Lemma init_tag_well_linked (c : pyclass) (name : string)
    (needed : list string) (kwargs : dict) (h : heap) :
  well_linked h -> well_linked (snd (Tag.__init__ c name needed kwargs h)).
Proof.
  intros W. unfold Tag.__init__, no_keyword.
  destruct (dict_has "self" kwargs); [exact W|].
  match goal with |- context [if ?b then raise TagError else _] =>
    destruct b end; [exact W|].
  rewrite bind_run. unfold lift_outcome at 1.
  destruct (Tag.attr_chosen None kwargs) as [chosen|e|]; try exact W.
  cbv zeta. rewrite bind_run.
  destruct (fst (TagAttrs.update (Some chosen) [] TagAttrs.empty))
    as [[]|e|]; try exact W.
  unfold lift_outcome at 1. rewrite bind_run. unfold alloc at 1.
  match goal with
  | |- well_linked (snd (?m (h ++ [?o]))) =>
      assert (keeps_tree m) as Hk; [|
        apply (well_linked_skeleton (h ++ [o]));
          [symmetry; apply Hk|apply well_linked_alloc; auto]]
  end.
  - apply keeps_tree_bind; [|intros _; keeps_tree_step].
    destruct (Tag.is_void c); [|keeps_tree_step].
    apply keeps_tree_bind; [|intros r; keeps_tree_step].
    apply keeps_tree_render_with. intros n. keeps_tree_step.
  - intros t [= <-]. reflexivity.
Qed.

Lemma init_content_well_linked (name : option string) (content : pyval)
    (h : heap) :
  well_linked h -> well_linked (snd (Content.__init__ name content h)).
Proof.
  intros W. unfold Content.__init__. rewrite bind_run.
  assert (reads_only (if name_truthy name then ret true
                      else truthy content)) as Hr
    by (destruct (name_truthy name); auto with reads).
  specialize (Hr h).
  destruct ((if name_truthy name then ret true else truthy content) h)
    as [[[|]|e|] h1]; cbn [snd] in Hr; subst h1; try exact W.
  unfold alloc. cbn [snd]. apply well_linked_alloc; auto.
  intros t [=].
Qed.

(** *** Reachable states *)

Lemma step_well_linked (h h' : heap) :
  step h h' -> well_linked h -> well_linked h'.
Proof.
  intros [c name needed kwargs h0|name content h0
         |p child idx prepend h0 Hu _|p idx h0 Hc|A m h0 Hk] W.
  - apply init_tag_well_linked, W.
  - apply init_content_well_linked, W.
  - apply insert_well_linked; assumption.
  - apply pop_well_linked; assumption.
  - apply (well_linked_skeleton h0); [symmetry; apply Hk | exact W].
Qed.

Lemma reachable_well_linked (h : heap) : reachable h -> well_linked h.
Proof.
  induction 1 as [|h h' _ IH Hs]; [apply well_linked_nil|].
  apply (step_well_linked h h' Hs IH).
Qed.

(** [a = Div(); b = Div(); c = P(); a(c)] is such a state. *)
Lemma inserted_once_reachable : reachable Scenario.inserted_once.
Proof.
  set (h1 := snd (Tag.__init__ TagC "div" [] [] [])).
  set (h2 := snd (Tag.__init__ TagC "div" [] [] h1)).
  set (h3 := snd (Tag.__init__ TagC "p" [] [] h2)).
  set (h4 := snd (upd_tag 0 (set_stable false) h3)).
  change Scenario.inserted_once
    with (snd (DOMElement._insert 0 (VRef 2) None false h4)).
  apply (reachable_step h4);
    [|apply step_insert; vm_compute; [split; [lia | reflexivity]
                                     |discriminate]].
  apply (reachable_step h3);
    [|apply (step_keeps_tree (upd_tag 0 (set_stable false)));
      keeps_tree_step].
  apply (reachable_step h2); [|apply step_new_tag].
  apply (reachable_step h1); [|apply step_new_tag].
  apply (reachable_step []); [constructor | apply step_new_tag].
Qed.

(** C2, as stated, fails on a state that the public operations produce:
    after [a(c); b(c)] the paragraph is in the child lists of both [a] and
    [b], with [b] as its parent. *)
Lemma C2_inserted_twice_has_two_parents :
  child_of Scenario.inserted_twice 0 2 /\
  child_of Scenario.inserted_twice 1 2 /\
  parent_ref Scenario.inserted_twice 2 = Some 1 /\
  ~ single_parent Scenario.inserted_twice.
Proof.
  assert (child_of Scenario.inserted_twice 0 2) as H0.
  { exists [VRef 2]. split; [reflexivity|]. apply elem_of_cons. auto. }
  assert (child_of Scenario.inserted_twice 1 2) as H1.
  { exists [VRef 2]. split; [reflexivity|]. apply elem_of_cons. auto. }
  repeat split; try assumption.
  intros [Hone _]. specialize (Hone 2 0 1 H0 H1). discriminate.
Qed.

(** C2, as amended.  In every state built from the empty heap by the
    constructors, by insertions of plain values and of nodes that have no
    parent at that time (insertions that stay within what is described
    here: the name of the child does not replace an attribute of the
    parent and the index is converted on every platform alike), by [pop]s
    that do not take out a placeholder, and by operations that leave child
    lists and parent references alone, every node is in at most one child
    list and has a parent reference exactly when it is in one.  An
    insertion does not detach: a node of such a state that is a child of
    [a], inserted into another element [b] at an index of at most 32 bits,
    its name, if it has one, not being the name of an attribute of an
    element, is afterwards in the child lists of both, with [b] as its
    parent. *)
Theorem C2_single_parent_for_unattached_insertions :
  forall h, reachable h ->
    single_parent h /\
    (forall a b c idx prepend,
       a <> b -> child_of h a c -> (exists t, h !! b = Some (OTag t)) ->
       small_index idx -> insertable h (VRef c) = true ->
       let h' := snd (DOMElement._insert b (VRef c) idx prepend h) in
       fst (DOMElement._insert b (VRef c) idx prepend h) = Ok tt /\
       child_of h' a c /\ child_of h' b c /\ parent_ref h' c = Some b).
Proof.
  intros h Hr. pose proof (reachable_well_linked h Hr) as W.
  split; [apply well_linked_single_parent, W|].
  intros a b c idx prepend Hab (cs & Hcs & Hin) [t Eb] Hsm Hnm h'.
  assert (parent_ref h c = Some a) as Hpc.
  { destruct W as (W1 & _). apply (W1 a cs c Hcs), elem_of_refs, Hin. }
  assert (exists o, h !! c = Some o) as [o Ec].
  { unfold parent_ref in Hpc. destruct (h !! c); [eauto | discriminate]. }
  pose proof (index_fits_small idx prepend (length (childs t)) Hsm) as Hfit.
  destruct (insert_ref_effect b c idx prepend h t o Eb Ec Hfit)
    as (cs' & Hperm & Hcs' & Hcq & Hpc' & _).
  fold h' in Hcs', Hcq, Hpc'.
  split; [|split; [|split; [|exact Hpc']]].
  - destruct (insert_ref_run b c idx prepend h t o Eb Ec Hfit)
      as (o1 & r & h0 & _ & Erun & Hok & _).
    rewrite Erun. cbn [fst]. apply Hok, Hnm.
  - exists cs. rewrite (Hcq a Hab). auto.
  - exists cs'. split; [exact Hcs'|]. apply elem_of_refs. rewrite Hperm.
    apply elem_of_cons. auto.
Qed.

(** The theorem at [a = Div(); b = Div(); c = P(); a(c)], then [b] given
    [c]. *)
Lemma C2_single_parent_for_unattached_insertions_witness :
  let h := Scenario.inserted_once in
  let h' := snd (DOMElement._insert 1 (VRef 2) None false h) in
  single_parent h /\
  fst (DOMElement._insert 1 (VRef 2) None false h) = Ok tt /\
  child_of h' 0 2 /\ child_of h' 1 2 /\ parent_ref h' 2 = Some 1.
Proof.
  destruct (C2_single_parent_for_unattached_insertions
              Scenario.inserted_once inserted_once_reachable) as [HS HI].
  split; [exact HS|].
  apply (HI 0 1 2 None false).
  - lia.
  - exists [VRef 2]. split; [reflexivity|]. apply elem_of_cons. auto.
  - eexists. reflexivity.
  - exact I.
  - reflexivity.
Defined.

(** *** remove *)

(** A node at position 0 of its parent: [remove] does nothing at all. *)
Lemma remove_first_child_noop (self : nat) (h : heap) :
  fst (DOMElement._own_index self h) = Ok (Some 0) ->
  DOMElement.remove self h = (Ok (VRef self), h).
Proof.
  intros Hown. pose proof (own_index_pure self h) as Hpure.
  unfold DOMElement.remove, bind at 1 2.
  destruct (DOMElement._own_index self h) as [o h']; simpl in *; subst.
  reflexivity.
Qed.

(** A node at a later position: [remove] ends in the [TypeError] of the
    call [pop(i=...)]. *)
Lemma remove_later_child_raises (self k : nat) (h : heap) :
  fst (DOMElement._own_index self h) = Ok (Some (S k)) ->
  DOMElement.remove self h = (Raise TypeError, h).
Proof.
  intros Hown. pose proof (own_index_pure self h) as Hpure.
  assert (DOMElement._own_index self h = (Ok (Some (S k)), h)) as Eown.
  { destruct (DOMElement._own_index self h) as [o h'].
    cbn [fst snd] in Hown, Hpure. subst. reflexivity. }
  clear Hown Hpure.
  assert (exists t p, get_tag self h = (Ok t, h) /\ parent t = Some p
                      /\ truthy (VRef p) h = (Ok true, h))
    as (t & p & Et & Hp & Eb).
  { revert Eown. unfold DOMElement._own_index. rewrite bind_run.
    pose proof (reads_only_get_tag self h) as Ht.
    destruct (get_tag self h) as [[t|e|] h1]; try discriminate.
    cbn [snd] in Ht. subst h1.
    destruct (parent t) as [p|] eqn:Hp; [|discriminate].
    rewrite bind_run.
    pose proof (reads_only_truthy (VRef p) h) as Hb.
    destruct (truthy (VRef p) h) as [[[|]|e|] h1] eqn:Eb;
      cbn [snd] in Hb; subst h1; unfold ret; try discriminate.
    intros _. exists t, p. auto. }
  unfold DOMElement.remove.
  unfold DOMElement.pop_keyword.
  change (String.eqb "i" "idx") with false. cbv iota.
  do 6 (rewrite ?bind_run, ?Eown, ?Et, ?Hp, ?Eb; cbv beta iota).
  reflexivity.
Qed.

(** C3. In [Ul()(Li(), Li())] both items have the list as parent; [remove]
    on the first item returns with the tree unchanged, so the item stays in
    the child list with its parent reference set, and [remove] on the second
    item ends in a [TypeError], again with the tree unchanged. *)
Theorem C3_remove_does_not_detach :
  let h := Scenario.two_children in
  parent_ref h 1 = Some 0 /\ parent_ref h 2 = Some 0 /\
  child_list h 0 = Some [VRef 1; VRef 2] /\
  DOMElement.remove 1 h = (Ok (VRef 1), h) /\
  DOMElement.remove 2 h = (Raise TypeError, h).
Proof. vm_compute. repeat split; reflexivity. Qed.

(** *** empty *)

(** C4. [empty()] on [Ul()(Li(), Li())] returns the element with both
    children still in its child list and both still pointing to it. *)
Theorem C4_empty_removes_nothing :
  let h := Scenario.two_children in
  let h' := snd (DOMElement.empty 0 h) in
  fst (DOMElement.empty 0 h) = Ok (VRef 0) /\
  child_list h' 0 = Some [VRef 1; VRef 2] /\
  parent_ref h' 1 = Some 0 /\ parent_ref h' 2 = Some 0.
Proof. vm_compute. repeat split; reflexivity. Qed.

(** *** Placeholders *)

(** A placeholder without fixed content whose parent chain resolves its
    name to nothing: [render] ends in [StopIteration]. *)
Lemma unbound_placeholder_raises (gs : bool) (fuel : nat) (self p : nat)
    (c : contentobj) (h : heap) :
  h !! self = Some (OContent c) ->
  truthy_plain (_fixed_content c) = Some false ->
  c_parent c = Some p ->
  fst (DOMElement._find_content fuel p (c_name c) h) = Ok (VStr "") ->
  Content_render gs fuel self h = (Raise StopIteration, h).
Proof.
  intros Ec Hfix Hp Hfind.
  pose proof (reads_only_find_content fuel p (c_name c) h) as Hpure.
  unfold Content_render, get_obj. rewrite bind_run, Ec.
  unfold Content.render_with, Content.content.
  rewrite !bind_run. unfold truthy at 1. rewrite Hfix. unfold ret at 1.
  rewrite Hp, ?bind_ret_run, !bind_run.
  destruct (DOMElement._find_content fuel p (c_name c) h) as [res h1].
  cbn [fst snd] in Hfind, Hpure. subst res h1. reflexivity.
Qed.

(** C5. In [Div()(Content(name='x'), 'tail')] nothing binds [x].  The
    placeholder's own [render] ends in [StopIteration]; the render of the
    [div] ends in a [RuntimeError] where generators convert the signal and
    otherwise returns the [div] without its text child, which the same
    element without the placeholder does render. *)
Theorem C5_unbound_placeholder_disturbs_render :
  let h := Scenario.unbound_placeholder in
  (forall gs, fst (Content_render gs 3 1 h) = Raise StopIteration) /\
  fst (Tag.render true 3 0 [] [] h) = Raise RuntimeError /\
  fst (Tag.render false 3 0 [] [] h) = Ok "<div></div>" /\
  (forall gs, fst (Tag.render gs 3 0 [] [] Scenario.no_placeholder)
              = Ok "<div>tail</div>").
Proof.
  repeat split; try (intros [|]); vm_compute; reflexivity.
Qed.

(** *** Style sheets *)

(** C6. The compact render of [{"html body": {"color": "red"}}] has no
    closing brace. *)
Theorem C6_compact_sheet_has_no_closing_brace :
  Css.render Scenario.sheet false
  = Ok "<style>html body { color: red; </style>" /\
  Css.render Scenario.sheet false
  <> Ok "<style>html body { color: red; }</style>".
Proof. split; [vm_compute; reflexivity | vm_compute; discriminate]. Qed.

(** The pretty render does close the block. *)
Lemma pretty_sheet_closes_block :
  Css.render Scenario.sheet true
  = Ok ("<style>html body { color: red; " +:+ Css.nl +:+ "}"
        +:+ Css.nl +:+ Css.nl +:+ "</style>").
Proof. vm_compute; reflexivity. Qed.

(** *** Flattening of the arguments *)

Lemma yield_item_single (i : nat) (name : option string) (x : pyval) :
  single_child x = true ->
  DOMElement.yield_item i name x = ([(i, x)], Ok tt).
Proof. destruct x; simpl; intros H; try discriminate; reflexivity. Qed.

Lemma yield_list_elements (i : nat) (l : list pyval) :
  forallb single_child l = true ->
  DOMElement.yield_item i None (VList l) = (numbered 0 l, Ok tt).
Proof.
  simpl. generalize 0 as j. induction l as [|x r IH]; intros j Hl.
  - reflexivity.
  - simpl in Hl. apply andb_prop in Hl as [Hx Hr].
    rewrite (IH (S j) Hr), (yield_item_single j None x Hx). reflexivity.
Qed.

Lemma yield_tuple_elements (i : nat) (l : list pyval) :
  forallb single_child l = true ->
  DOMElement.yield_item i None (VTuple l) = (numbered 0 l, Ok tt).
Proof.
  simpl. generalize 0 as j. induction l as [|x r IH]; intros j Hl.
  - reflexivity.
  - simpl in Hl. apply andb_prop in Hl as [Hx Hr].
    rewrite (IH (S j) Hr), (yield_item_single j None x Hx). reflexivity.
Qed.

Lemma yield_items_forward (items : list pyval) :
  DOMElement._yield_items items [] false
  = DOMElement.yield_chain 0 (map (fun item => (@None string, item)) items).
Proof.
  unfold DOMElement._yield_items, slice_step. simpl.
  rewrite app_nil_r. reflexivity.
Qed.

Lemma yield_chain_single (l : list pyval) (j : nat) :
  forallb single_child l = true ->
  DOMElement.yield_chain j (map (fun item => (@None string, item)) l)
  = (numbered j l, Ok tt).
Proof.
  revert j. induction l as [|x r IH]; intros j Hl; [reflexivity|].
  cbn [forallb] in Hl. apply andb_prop in Hl as [Hx Hr].
  cbn [map DOMElement.yield_chain numbered].
  rewrite (yield_item_single j None x Hx), (IH (S j) Hr). reflexivity.
Qed.

(** A call with one child: mark the element dirty, insert at the end. *)
Lemma call_single (P : nat) (x : pyval) (h : heap) :
  single_child x = true ->
  DOMElement.__call__ P [x] [] h
  = ((upd_tag P (set_stable false) ;;;
      DOMElement._insert P x None false) ;;; ret (VRef P)) h.
Proof.
  intros Hx. unfold DOMElement.__call__, DOMElement.content_receiver.
  rewrite no_keyword_nil.
  rewrite yield_items_forward. cbn [map DOMElement.yield_chain].
  rewrite (yield_item_single 0 None x Hx).
  cbn [DOMElement.then_yields fst snd app for_each DOMElement.call3].
  unfold bind, ret, lift_outcome.
  destruct (upd_tag P (set_stable false) h) as [[[]|e|] h1]; try reflexivity.
  destruct (DOMElement._insert P x None false h1) as [[[]|e|] h2]; reflexivity.
Qed.

(** The body of [__call__] does not look at the index. *)
Lemma call_loop_one_by_one (P : nat) (j : nat) (l : list pyval) (h : heap) :
  forallb single_child l = true ->
  for_each (numbered j l)
    (fun it => upd_tag P (set_stable false) ;;;
               DOMElement._insert P (snd it) None false) h
  = for_each l (fun x => DOMElement.__call__ P [x] [] ;;; ret tt) h.
Proof.
  revert j h. induction l as [|x r IH]; intros j h Hl; [reflexivity|].
  simpl in Hl. apply andb_prop in Hl as [Hx Hr].
  specialize (IH (S j)).
  cbn [numbered for_each snd].
  rewrite !bind_run, (call_single P x h Hx), !bind_run.
  destruct (upd_tag P (set_stable false) h) as [[[]|e|] h1]; try reflexivity.
  destruct (DOMElement._insert P x None false h1) as [[[]|e|] h2];
    try reflexivity.
  apply IH, Hr.
Qed.

(** What holds of the constructor-call insertion: a list or a tuple of
    children is spliced, with the same result as one call per element. *)
Lemma call_splices_sequence (P : nat) (l : list pyval) (h : heap) :
  forallb single_child l = true ->
  DOMElement.__call__ P [VList l] [] h = one_by_one DOMElement.__call__ P l h
  /\ DOMElement.__call__ P [VTuple l] [] h
     = one_by_one DOMElement.__call__ P l h.
Proof.
  intros Hl. unfold one_by_one.
  unfold DOMElement.__call__ at 1 3, DOMElement.content_receiver.
  rewrite !no_keyword_nil.
  rewrite !yield_items_forward. cbn [map DOMElement.yield_chain].
  rewrite (yield_list_elements 0 l Hl), (yield_tuple_elements 0 l Hl).
  cbn [DOMElement.then_yields fst snd DOMElement.call3].
  rewrite app_nil_r.
  pose proof (call_loop_one_by_one P 0 l h Hl) as E.
  rewrite !bind_run, E.
  split; destruct (for_each l _ h) as [[[]|e|] h1]; reflexivity.
Qed.

(** [append] hands three arguments to a function of two parameters. *)
Lemma append_raises (P : nat) (x : pyval) (tags : list pyval)
    (kwtags : dict) (h : heap) :
  single_child x = true ->
  fst (DOMElement.append P (x :: tags) kwtags h) = Raise TypeError
  /\ child_list (snd (DOMElement.append P (x :: tags) kwtags h)) P
     = child_list h P.
Proof.
  intros Hx. unfold DOMElement.append, DOMElement.content_receiver,
    DOMElement._yield_items, slice_step, no_keyword.
  destruct (dict_has "inst" kwtags); [split; reflexivity|].
  cbn [Z.eqb map Pos.eqb concat app DOMElement.yield_chain].
  rewrite (yield_item_single 0 None x Hx).
  destruct (DOMElement.yield_chain 1 _) as [ys fin].
  cbn [DOMElement.then_yields fst snd app for_each DOMElement.call3].
  rewrite !bind_run.
  pose proof (upd_tag_skeleton P (set_stable false) h) as [E1 E2].
  { intros t; split; reflexivity. }
  destruct (upd_tag P (set_stable false) h) as [o h1].
  simpl in E1, E2. subst o. unfold raise. simpl.
  split; [reflexivity|]. apply child_list_skeleton, E2.
Qed.

(** C7. With [page], [head] and [body] freshly built: [page.append] of the
    list [[head, body]] ends in a [TypeError] and adds no child, as does each
    single [append]; the call [page(g)] with a generator [g] of the two
    elements ends in a [TypeError] and adds no child, while one call per
    element gives the two children in order. *)
Theorem C7_append_and_generator_raise :
  let h := Scenario.page_head_body in
  let seq := [VRef 1; VRef 2] in
  fst (DOMElement.append 0 [VList seq] [] h) = Raise TypeError /\
  child_list (snd (DOMElement.append 0 [VList seq] [] h)) 0 = Some [] /\
  fst (one_by_one DOMElement.append 0 seq h) = Raise TypeError /\
  fst (DOMElement.__call__ 0 [VGen seq] [] h) = Raise TypeError /\
  child_list (snd (DOMElement.__call__ 0 [VGen seq] [] h)) 0 = Some [] /\
  child_list (snd (one_by_one DOMElement.__call__ 0 seq h)) 0 = Some seq.
Proof. vm_compute. repeat split; reflexivity. Qed.

(** *** before and after *)

(** With [reverse=True] the slice step is 0: the first statement of
    [_yield_items] raises before anything is yielded. *)
Lemma yield_items_reverse (items : list pyval) (kwitems : dict) :
  DOMElement._yield_items items kwitems true = ([], Raise ValueError).
Proof.
  unfold DOMElement._yield_items.
  change (slice_step 0 items) with (@Raise (list pyval) ValueError).
  reflexivity.
Qed.

(** C8. [node.before(a1, ..., an)] ends in a [ValueError] for every node and
    every argument list, and the heap is as it was: nothing is inserted
    before the node.  (The one call that does not get as far as the
    [ValueError] is the one with a keyword named [inst], which the
    parameter list of the decorator's wrapper refuses with a [TypeError];
    it inserts nothing either.) *)
Theorem C8_before_always_raises :
  forall (node : nat) (args : list pyval) (kwargs : dict) (h : heap),
    DOMElement.before node args kwargs h
    = (Raise (if dict_has "inst" kwargs then TypeError else ValueError), h).
Proof.
  intros node args kwargs h.
  unfold DOMElement.before, DOMElement.content_receiver, no_keyword.
  destruct (dict_has "inst" kwargs); [reflexivity|].
  rewrite yield_items_reverse. cbn [fst snd for_each].
  rewrite bind_ret_run, bind_run. reflexivity.
Qed.

(** [prepend] shares the defect. *)
Lemma prepend_always_raises (node : nat) (args : list pyval) (kwargs : dict)
    (h : heap) :
  DOMElement.prepend node args kwargs h
  = (Raise (if dict_has "inst" kwargs then TypeError else ValueError), h).
Proof.
  unfold DOMElement.prepend, DOMElement.content_receiver, no_keyword.
  destruct (dict_has "inst" kwargs); [reflexivity|].
  rewrite yield_items_reverse. cbn [fst snd for_each].
  rewrite bind_ret_run, bind_run. reflexivity.
Qed.

(** The position that [index] finds depends on the list up to it only. *)
Lemma index_of_prefix (self : nat) (L : list pyval) (i k : nat) :
  DOMElement.index_of self L i = Ok k ->
  exists j, k = i + j /\ j < length L /\
            forall rest,
              DOMElement.index_of self (take (S j) L ++ rest) i = Ok k.
Proof.
  revert i. induction L as [|x r IH]; intros i; cbn [DOMElement.index_of].
  - discriminate.
  - destruct x; try discriminate.
    destruct (Nat.eqb n self) eqn:E.
    + intros [= <-]. exists 0. cbn [length]. split; [lia|]. split; [lia|].
      intros rest. cbn [take app DOMElement.index_of]. rewrite E.
      reflexivity.
    + intros Hk. destruct (IH (S i) Hk) as (j & -> & Hj & Hrest).
      exists (S j). cbn [length]. split; [lia|]. split; [lia|].
      intros rest. cbn [take app DOMElement.index_of]. rewrite E.
      apply Hrest.
Qed.

Lemma list_insert_at_middle {A} (l1 l2 : list A) (x : A) :
  list_insert_at (Z.of_nat (length l1)) x (l1 ++ l2) = l1 ++ x :: l2.
Proof.
  unfold list_insert_at.
  assert ((Z.of_nat (length l1) <? 0)%Z = false) as ->
    by (apply Z.ltb_ge; lia).
  rewrite length_app, Z.min_l by lia. rewrite Nat2Z.id.
  rewrite take_app_length, drop_app_length. reflexivity.
Qed.

(** The index of a node whose parent has it at position [k]. *)
Lemma own_index_run (self p k : nat) (h : heap) (L : list pyval) :
  parent_ref h self = Some p -> child_list h self <> None ->
  child_list h p = Some L ->
  DOMElement.index_of self L 0 = Ok k ->
  DOMElement._own_index self h = (Ok (Some k), h).
Proof.
  intros Hp Hs HL Hk.
  destruct (child_list_tag h self Hs) as [ts Es].
  destruct (child_list_Some h p L HL) as (tp & Etp & <-).
  unfold parent_ref in Hp. rewrite Es in Hp. cbn [obj_parent] in Hp.
  unfold DOMElement._own_index.
  rewrite bind_run, (get_tag_run _ _ _ Es), Hp, bind_run.
  unfold truthy. cbn [truthy_plain]. rewrite bind_run. unfold get_obj at 1.
  rewrite Etp. unfold ret at 1.
  destruct (childs tp) as [|x r] eqn:Ecs; [discriminate|].
  cbn [length Nat.eqb negb].
  rewrite bind_run, (get_tag_run _ _ _ Etp), Ecs, bind_run.
  unfold lift_outcome at 1. rewrite Hk. reflexivity.
Qed.

(** One turn of the loop of [after]: the child goes to position
    [k + 1 + i] of the parent's list. *)
Lemma after_step (self p k i : nat) (child : pyval) (L : list pyval)
    (h : heap) :
  parent_ref h self = Some p -> child_list h self <> None ->
  child_list h p = Some L ->
  DOMElement.index_of self L 0 = Ok k ->
  k + 1 + i <= length L ->
  insertable h child = true ->
  exists h',
    (upd_tag self (set_stable false) ;;;
     DOMElement.insert_sibling self child (1 + Z.of_nat i)%Z) h = (Ok tt, h')
    /\ parent_ref h' self = Some p /\ child_list h' self <> None
    /\ child_list h' p
       = Some (list_insert_at (Z.of_nat k + (1 + Z.of_nat i))%Z child L)
    /\ obj_name <$> h' = obj_name <$> h.
Proof.
  intros Hp Hs HL Hk Hpos Hins.
  assert (keeps_names (upd_tag self (set_stable false) ;;;
                       DOMElement.insert_sibling self child
                         (1 + Z.of_nat i)%Z)) as Hnames.
  { apply keeps_names_bind;
      [apply keeps_names_upd_tag; reflexivity | intros _].
    unfold DOMElement.insert_sibling.
    apply keeps_names_bind;
      [apply reads_only_keeps_names; auto with reads | intros t].
    destruct (parent t); [|apply reads_only_keeps_names; auto with reads].
    apply keeps_names_bind;
      [apply reads_only_keeps_names; auto with reads | intros [k0|]];
      [apply keeps_names_insert
      |apply reads_only_keeps_names; auto with reads]. }
  specialize (Hnames h). revert Hnames.
  pose proof (upd_tag_skeleton self (set_stable false) h) as [E1 Esk1].
  { intros t0; split; reflexivity. }
  assert (obj_name <$> snd (upd_tag self (set_stable false) h)
          = obj_name <$> h) as Enm1
    by (apply keeps_names_upd_tag; reflexivity).
  rewrite bind_run.
  destruct (upd_tag self (set_stable false) h) as [r h1].
  cbn [fst snd] in E1, Esk1, Enm1. subst r.
  rewrite (parent_ref_skeleton _ _ self (eq_sym Esk1)) in Hp.
  rewrite (child_list_skeleton _ _ self (eq_sym Esk1)) in Hs.
  rewrite (child_list_skeleton _ _ p (eq_sym Esk1)) in HL.
  rewrite <- (insertable_names _ _ child Enm1) in Hins.
  clear Esk1 Enm1. generalize (obj_name <$> h). clear h. intros names.
  destruct (child_list_tag h1 self Hs) as [ts Es].
  destruct (child_list_Some h1 p L HL) as (tp & Etp & Ecs).
  assert (parent ts = Some p) as Hpt
    by (unfold parent_ref in Hp; rewrite Es in Hp; exact Hp).
  unfold DOMElement.insert_sibling.
  rewrite bind_run, (get_tag_run _ _ _ Es), Hpt, bind_run.
  rewrite (own_index_run self p k h1 L Hp Hs HL Hk).
  set (z := (Z.of_nat k + (1 + Z.of_nat i))%Z).
  assert (DOMElement.insert_index (Some z) false (length (childs tp)) = z)
    as Hz.
  { unfold DOMElement.insert_index.
    assert ((z <? 0)%Z = false) as ->
      by (apply Z.ltb_ge; unfold z; lia).
    reflexivity. }
  assert (index_fits
            (DOMElement.insert_index (Some z) false (length (childs tp)))
            (length (childs tp)) = Ok tt) as Hfit.
  { rewrite Hz, Ecs. unfold index_fits.
    assert ((- Z.of_nat (length L) <=? z)%Z = true) as ->
      by (apply Z.leb_le; unfold z; lia).
    assert ((z <=? Z.of_nat (length L))%Z = true) as ->
      by (apply Z.leb_le; unfold z; lia).
    reflexivity. }
  assert ((exists c, child = VRef c) \/ (forall n, child <> VRef n))
    as [[c ->]|Hplain].
  { destruct child; try (right; intros n0; discriminate). left. eauto. }
  - destruct (lookup_lt_is_Some_2 h1 c (insertable_live _ _ Hins)) as [o Ec].
    destruct (insert_ref_run p c (Some z) false h1 tp o Etp Ec Hfit)
      as (o1 & r & h' & Ec1 & Erun & Hok & Esk).
    rewrite (Hok Hins) in Erun. clear Hok.
    rewrite Hz, Ecs in Ec1, Esk. rewrite Erun. cbn [snd]. intros Hnames.
    exists h'. split; [reflexivity|].
    set (h2 := <[p := OTag (set_childs (list_insert_at z (VRef c) L) tp)]>
                 h1) in *.
    split; [|split; [|split]].
    + rewrite (parent_ref_skeleton _ _ self Esk).
      rewrite (parent_ref_set_parent _ _ _ _ _ Ec1).
      destruct (decide (self = c)); [reflexivity|].
      unfold h2. rewrite (parent_ref_set_childs _ _ _ _ _ Etp) by reflexivity.
      exact Hp.
    + rewrite (child_list_skeleton _ _ self Esk).
      rewrite (child_list_set_parent _ _ _ _ _ Ec1).
      unfold h2. rewrite (child_list_set_childs _ _ _ _ _ Etp).
      destruct (decide (self = p)); [discriminate | exact Hs].
    + rewrite (child_list_skeleton _ _ p Esk).
      rewrite (child_list_set_parent _ _ _ _ _ Ec1).
      unfold h2. rewrite (child_list_set_childs _ _ _ _ _ Etp).
      rewrite decide_True by reflexivity. reflexivity.
    + exact Hnames.
  - rewrite (insert_plain_run p child (Some z) false h1 tp Etp Hplain Hfit).
    rewrite Hz, Ecs. cbn [snd]. intros Hnames.
    eexists. split; [reflexivity|].
    split; [|split; [|split]].
    + rewrite (parent_ref_set_childs _ _ _ _ _ Etp) by reflexivity.
      exact Hp.
    + rewrite (child_list_set_childs _ _ _ _ _ Etp).
      destruct (decide (self = p)); [discriminate | exact Hs].
    + rewrite (child_list_set_childs _ _ _ _ _ Etp).
      rewrite decide_True by reflexivity. reflexivity.
    + exact Hnames.
Qed.

Lemma after_loop (self p k : nat) (T D rest A : list pyval) (h : heap) :
  (forall X, DOMElement.index_of self (T ++ X) 0 = Ok k) ->
  length T = S k ->
  parent_ref h self = Some p -> child_list h self <> None ->
  child_list h p = Some (T ++ A ++ D) ->
  forallb (insertable h) rest = true ->
  exists h',
    for_each (numbered (length A) rest)
      (fun it => upd_tag self (set_stable false) ;;;
                 DOMElement.insert_sibling self (snd it)
                   (1 + Z.of_nat (fst it))%Z) h = (Ok tt, h')
    /\ child_list h' p = Some (T ++ (A ++ rest) ++ D).
Proof.
  intros HT HlenT. revert A h.
  induction rest as [|x r IH]; intros A h Hp Hs HL Hins.
  - exists h. rewrite app_nil_r. split; [reflexivity | exact HL].
  - cbn [numbered for_each fst snd]. rewrite bind_run.
    cbn [forallb] in Hins. apply andb_prop in Hins as [Hx Hr].
    destruct (after_step self p k (length A) x (T ++ A ++ D) h Hp Hs HL
                (HT _)) as (h1 & -> & Hp1 & Hs1 & HL1 & Hnm1).
    { rewrite !length_app. lia. }
    { exact Hx. }
    assert (list_insert_at (Z.of_nat k + (1 + Z.of_nat (length A)))%Z x
              (T ++ A ++ D) = T ++ (A ++ [x]) ++ D) as E.
    { rewrite (app_assoc T A D).
      replace (Z.of_nat k + (1 + Z.of_nat (length A)))%Z
        with (Z.of_nat (length (T ++ A)))
        by (rewrite length_app, HlenT; lia).
      rewrite list_insert_at_middle, <- !app_assoc. reflexivity. }
    rewrite E in HL1.
    destruct (IH (A ++ [x]) h1 Hp1 Hs1 HL1) as (h' & Hrun & HL').
    { rewrite <- Hr. apply forallb_insertable_names, Hnm1. }
    rewrite length_app in Hrun. cbn [length] in Hrun.
    replace (length A + 1) with (S (length A)) in Hrun by lia.
    exists h'. split; [exact Hrun|].
    rewrite HL', <- !app_assoc. reflexivity.
Qed.

(** What holds of [after]: for a node at position [k] of its parent's
    child list with no plain value before it, [node.after(a1, ..., an)] puts
    the arguments right after the node, in argument order; the arguments
    are single children that can be inserted. *)
Lemma after_inserts_in_order (self p k : nat) (args L : list pyval)
    (h : heap) :
  parent_ref h self = Some p -> child_list h self <> None ->
  child_list h p = Some L ->
  DOMElement.index_of self L 0 = Ok k ->
  forallb single_child args = true ->
  forallb (insertable h) args = true ->
  exists h',
    DOMElement.after self args [] h = (Ok (VRef self), h') /\
    child_list h' p = Some (take (S k) L ++ args ++ drop (S k) L).
Proof.
  intros Hp Hs HL Hk Hargs Hins.
  destruct (index_of_prefix self L 0 k Hk) as (j & Hj & Hlt & Hrest).
  cbn [Nat.add] in Hj. subst j.
  assert (length (take (S k) L) = S k) as HlenT
    by (rewrite length_take; lia).
  assert (child_list h p = Some (take (S k) L ++ [] ++ drop (S k) L)) as HL0
    by (cbn [app]; rewrite take_drop; exact HL).
  destruct (after_loop self p k (take (S k) L) (drop (S k) L) args [] h
              Hrest HlenT Hp Hs HL0 Hins) as (h' & Hrun & HL').
  exists h'. split; [|exact HL'].
  unfold DOMElement.after, DOMElement.content_receiver.
  rewrite no_keyword_nil.
  rewrite yield_items_forward, (yield_chain_single args 0 Hargs).
  cbn [fst snd DOMElement.call3 length] in Hrun |- *.
  rewrite bind_run, Hrun. reflexivity.
Qed.

(** [after] keeps the order of its arguments: in [Ul()(Li(), Li())],
    [first.after(a, b)] puts [a] and [b] between the two items. *)
Example after_keeps_argument_order :
  child_list
    (snd ((a <- Tag.__init__ TagC "a" [] [] ;;
           b <- Tag.__init__ TagC "b" [] [] ;;
           DOMElement.after 1 [VRef a; VRef b] [])
            Scenario.two_children)) 0
  = Some [VRef 1; VRef 3; VRef 4; VRef 2].
Proof. vm_compute; reflexivity. Qed.

(** *** The style mapping *)

Lemma dict_set_absent (k : string) (v : pyval) (d : dict) :
  dict_get k d = None -> dict_set k v d = d ++ [(k, v)].
Proof.
  induction d as [|[k' v'] r IH]; simpl; [reflexivity|].
  destruct (String.eqb k k'); [discriminate|].
  intros E. rewrite (IH E). reflexivity.
Qed.

Lemma dict_get_last (k : string) (v : pyval) (d : dict) :
  dict_get k d = None -> dict_get k (d ++ [(k, v)]) = Some v.
Proof.
  induction d as [|[k' v'] r IH]; simpl.
  - rewrite String.eqb_refl. reflexivity.
  - destruct (String.eqb k k'); [discriminate|]. exact IH.
Qed.

Lemma dict_set_last (k : string) (v v' : pyval) (d : dict) :
  dict_get k d = None -> dict_set k v' (d ++ [(k, v)]) = d ++ [(k, v')].
Proof.
  induction d as [|[k' w] r IH]; simpl.
  - rewrite String.eqb_refl. reflexivity.
  - destruct (String.eqb k k'); [discriminate|].
    intros E. rewrite (IH E). reflexivity.
Qed.



(** [attr] with keywords that name none of its parameters, and [attr]
    with a mapping in the place of [attrs]. *)
Lemma attr_keywords (self : nat) (kw : dict) :
  dict_has "self" kw = false -> dict_get "attrs" kw = None ->
  Tag.attr self None kw
  = (upd_tag self (set_stable false) ;;;
     Tag.on_attrs self (TagAttrs.update (Some kw) []) ;;;
     ret (VRef self)).
Proof.
  intros E1 E2. unfold Tag.attr, Tag.attr_chosen. rewrite E1, E2.
  reflexivity.
Qed.








(** The whole element after the two writes. *)
Example fresh_div_with_merged_style :
  fst ((Tag.css 0 [VDict [("color", VStr "red")]] [] ;;;
        Tag.css 0 [VDict [("border", VStr "1px")]] [] ;;;
        Tag.render true 1 0 [] []) Scenario.fresh_div)
  = Ok ("<div" +:+ merged_style +:+ "></div>").
Proof. vm_compute; reflexivity. Qed.

(** *** The class list *)

(** The first write to the class key of a container that has none creates
    the list. *)
Lemma setitem_klass_first (value : pyval) (a : TagAttrs.t) :
  dict_get "klass" (TagAttrs.items a) = None ->
  TagAttrs.__setitem__ "klass" value a
  = (Ok tt, TagAttrs.mk (TagAttrs.items a ++ [("klass", VList [value])])
                        (TagAttrs._comment a)).
Proof.
  intros E. unfold TagAttrs.__setitem__.
  change (str_in "klass" TagAttrs._MULTI_VALUES_ATTRS) with true.
  cbv beta iota delta [get_state TagAttrs.append_at TagAttrs.getitem
    TagAttrs.super_setitem modify bind ret dict_has].
  rewrite E. cbn [TagAttrs.items TagAttrs._comment].
  rewrite (dict_set_absent _ _ _ E), (dict_get_last _ _ _ E).
  cbn [TagAttrs.items TagAttrs._comment app].
  rewrite (dict_set_last _ _ _ _ E). reflexivity.
Qed.

(** C10. For every element whose attribute container has no class list:
    [add_class] ends in a [KeyError] and leaves the container as it was,
    and it is the assignment [attr(klass=c)] that creates the class list.
    Likewise, for every element whose container has no style mapping,
    [hide] and [toggle] end in a [KeyError]. *)
Theorem C10_add_class_needs_existing_list :
  forall (h : heap) (self : nat) (t : tagobj) (cssclass : pyval),
    h !! self = Some (OTag t) ->
    (dict_get "klass" (TagAttrs.items (attrs t)) = None ->
     (fst (Tag.add_class self cssclass h) = Raise KeyError /\
      exists t', snd (Tag.add_class self cssclass h) !! self = Some (OTag t')
                 /\ attrs t' = attrs t) /\
     (fst (Tag.attr self None [("klass", cssclass)] h) = Ok (VRef self) /\
      exists t', snd (Tag.attr self None [("klass", cssclass)] h) !! self
                 = Some (OTag t')
                 /\ dict_get "klass" (TagAttrs.items (attrs t'))
                    = Some (VList [cssclass]))) /\
    (dict_get "style" (TagAttrs.items (attrs t)) = None ->
     fst (Tag.hide self h) = Raise KeyError /\
     fst (Tag.toggle self h) = Raise KeyError).
Proof.
  intros h self t cssclass Ht.
  pose proof (lookup_insert_same self _ (OTag (set_stable false t)) h Ht)
    as Ht1.
  split; [intros Hklass|intros Hstyle]; repeat split.
  - unfold Tag.add_class.
    rewrite bind_run, (upd_tag_run _ _ _ _ Ht), bind_run,
      (on_attrs_run _ _ _ _ Ht1).
    unfold TagAttrs.append_at, TagAttrs.getitem. rewrite bind_run.
    cbn [attrs set_stable]. rewrite Hklass. reflexivity.
  - unfold Tag.add_class.
    rewrite bind_run, (upd_tag_run _ _ _ _ Ht), bind_run,
      (on_attrs_run _ _ _ _ Ht1).
    unfold TagAttrs.append_at, TagAttrs.getitem. rewrite bind_run.
    cbn [attrs set_stable]. rewrite Hklass. cbn [fst snd].
    rewrite list_insert_insert_eq.
    eexists. split; [apply (lookup_insert_same self _ _ h Ht)|reflexivity].
  - rewrite attr_keywords by reflexivity.
    rewrite bind_run, (upd_tag_run _ _ _ _ Ht), bind_run,
      (on_attrs_run _ _ _ _ Ht1).
    unfold TagAttrs.update. cbn [for_each]. rewrite !bind_run.
    cbn [attrs set_stable fst snd].
    rewrite (setitem_klass_first _ _ Hklass). reflexivity.
  - rewrite attr_keywords by reflexivity.
    rewrite bind_run, (upd_tag_run _ _ _ _ Ht), bind_run,
      (on_attrs_run _ _ _ _ Ht1).
    unfold TagAttrs.update. cbn [for_each]. rewrite !bind_run.
    cbn [attrs set_stable fst snd].
    rewrite (setitem_klass_first _ _ Hklass). cbn [fst snd].
    rewrite list_insert_insert_eq.
    eexists. split; [apply (lookup_insert_same self _ _ h Ht)|].
    cbn [attrs set_attrs TagAttrs.items]. apply dict_get_last, Hklass.
  - unfold Tag.hide.
    rewrite bind_run, (upd_tag_run _ _ _ _ Ht), bind_run,
      (on_attrs_run _ _ _ _ Ht1).
    unfold Tag.style_setitem, TagAttrs.getitem. rewrite bind_run.
    cbn [attrs set_stable]. rewrite Hstyle. reflexivity.
  - unfold Tag.toggle.
    rewrite bind_run, (upd_tag_run _ _ _ _ Ht), bind_run,
      (on_attrs_run _ _ _ _ Ht1).
    unfold Tag.display_is_none, TagAttrs.getitem. rewrite bind_run.
    cbn [attrs set_stable]. rewrite Hstyle. reflexivity.
Qed.

(** The hypotheses hold of a fresh [Div()]. *)
Lemma C10_add_class_needs_existing_list_witness :
  let h := Scenario.fresh_div in
  let c := VStr "big" in
  ((fst (Tag.add_class 0 c h) = Raise KeyError /\
    exists t', snd (Tag.add_class 0 c h) !! 0 = Some (OTag t')
               /\ attrs t' = TagAttrs.empty) /\
   (fst (Tag.attr 0 None [("klass", c)] h) = Ok (VRef 0) /\
    exists t', snd (Tag.attr 0 None [("klass", c)] h) !! 0 = Some (OTag t')
               /\ dict_get "klass" (TagAttrs.items (attrs t'))
                  = Some (VList [c]))) /\
  fst (Tag.hide 0 h) = Raise KeyError /\
  fst (Tag.toggle 0 h) = Raise KeyError.
Proof.
  destruct (C10_add_class_needs_existing_list Scenario.fresh_div 0
              (mkTag TagC "div" None [] None [] TagAttrs.empty None false [])
              (VStr "big") eq_refl) as [Hk Hs].
  split; [apply Hk; reflexivity | apply Hs; reflexivity].
Defined.

(** An element with a style mapping and no class list,
    [Div().css(color='red')], is such an element: [add_class] raises. *)
Example add_class_on_styled_div :
  fst (Tag.add_class 0 (VStr "big") Scenario.styled_div) = Raise KeyError /\
  fst (Tag.hide 0 Scenario.styled_div) = Ok (VRef 0).
Proof. vm_compute. split; reflexivity. Qed.

(** With a class list in place [add_class] does add to it. *)
Example add_class_after_attr :
  fst ((Tag.attr 0 None [("klass", VStr "a")] ;;;
        Tag.add_class 0 (VStr "b") ;;;
        Tag.render true 1 0 [] []) Scenario.fresh_div)
  = Ok ("<div class=" +:+ dquote +:+ "a b" +:+ dquote +:+ "></div>").
Proof. vm_compute; reflexivity. Qed.

(** ** Further properties *)

(** *** Render and the document of a subtree *)

Lemma dom_nested_ind (P : dom -> Prop) :
  (forall s, P (DText s)) -> P DNone ->
  (forall c name a kids, Forall P kids -> P (DNode c name a kids)) ->
  forall d, P d.
Proof.
  intros Ht Hn Hk. fix IH 1. intros [s| |c name a kids].
  - apply Ht.
  - apply Hn.
  - apply Hk. induction kids as [|k kids IHk]; constructor.
    + apply IH.
    + exact IHk.
Qed.

Lemma discard_cache_lookup (h : heap) (n : nat) :
  discard_cache h !! n = uncache <$> (h !! n).
Proof.
  unfold discard_cache. revert n.
  induction h as [|o h IH]; intros [|n]; try reflexivity. apply IH.
Qed.

Lemma same_but_cache (h h' : heap) (n : nat) (t : tagobj) :
  discard_cache h' = discard_cache h -> h !! n = Some (OTag t) ->
  exists t', h' !! n = Some (OTag t') /\ cls t' = cls t /\
             tag_name t' = tag_name t /\ childs t' = childs t /\
             attrs t' = attrs t.
Proof.
  intros E Et.
  assert (uncache <$> (h' !! n) = uncache <$> (h !! n)) as E'
    by (rewrite <- !discard_cache_lookup, E; reflexivity).
  rewrite Et in E'. destruct (h' !! n) as [[t'|c']|]; try discriminate.
  exists t'. split; [reflexivity|]. destruct t, t'.
  cbn in E'. injection E' as -> -> -> -> -> -> -> ->.
  cbn. auto.
Qed.

Lemma discard_cache_insert (h : heap) (n : nat) (o o' : obj) :
  h !! n = Some o -> uncache o' = uncache o ->
  discard_cache (<[n := o']> h) = discard_cache h.
Proof.
  intros Eo Eu. apply list_eq. intros i. rewrite !discard_cache_lookup.
  destruct (decide (i = n)) as [->|Hi].
  - rewrite (lookup_insert_same _ _ _ _ Eo), Eo. simpl. f_equal. exact Eu.
  - rewrite list_lookup_insert_ne by congruence. reflexivity.
Qed.

(** What a value stands for does not depend on the caches. *)
Lemma rep_frame (h h' : heap) (v : pyval) (d : dom) :
  discard_cache h' = discard_cache h -> rep h v d -> rep h' v d.
Proof.
  intros E. revert v.
  induction d as [s| |c name a kids IH] using dom_nested_ind; intros v Hr.
  - inversion Hr; subst. constructor.
  - inversion Hr; subst. constructor.
  - inversion Hr as [ | |n t a' kids' Et Hcls Ha Hkids]; subst.
    destruct (same_but_cache h h' n t E Et) as (t' & Et' & Ec & En & Hc & Hat).
    rewrite <- Ec, <- En. apply rep_node; try congruence.
    rewrite Hc. clear - IH Hkids.
    induction Hkids as [|x k xs ks Hx Hxs IHk]; constructor.
    + apply (Forall_inv IH), Hx.
    + apply IHk, (Forall_inv_tail IH).
Qed.

(** A value stands for one document. *)
Lemma rep_functional (h : heap) (v : pyval) (d d' : dom) :
  rep h v d -> rep h v d' -> d = d'.
Proof.
  revert v d'.
  induction d as [s| |c name a kids IH] using dom_nested_ind;
    intros v d' Hr Hr'.
  - inversion Hr; subst. inversion Hr'; subst. reflexivity.
  - inversion Hr; subst. inversion Hr'; subst. reflexivity.
  - inversion Hr as [ | |n t a1 kids1 Et Hcls Ha Hkids]; subst.
    inversion Hr' as [ | |n2 t2 a2 kids2 Et2 Hcls2 Ha2 Hkids2]; subst.
    assert (t2 = t) as -> by congruence.
    assert (a2 = a) as -> by congruence.
    f_equal. clear - IH Hkids Hkids2. revert kids2 Hkids2.
    induction Hkids as [|x k xs ks Hx Hxs IHk]; intros kids2 Hkids2.
    + inversion Hkids2. reflexivity.
    + inversion Hkids2 as [|x' k2 xs' ks2 Hx2 Hxs2]; subst. f_equal.
      * apply (Forall_inv IH x k2 Hx Hx2).
      * apply IHk; [apply (Forall_inv_tail IH) | exact Hxs2].
Qed.

Lemma run_genexp_cons_ok {A} (gs : bool) (s : H A) (r : list (H A))
    (h h1 : heap) (x : A) :
  s h = (Ok x, h1) ->
  Tag.run_genexp gs (s :: r) h
  = match Tag.run_genexp gs r h1 with
    | (Ok xs, h2) => (Ok (x :: xs), h2)
    | (Raise e, h2) => (Raise e, h2)
    | (Beyond, h2) => (Beyond, h2)
    end.
Proof. intros E. cbn [Tag.run_genexp]. rewrite E, bind_run. reflexivity. Qed.

Lemma height_kids (f : nat) (kids : list dom) :
  foldr Nat.max 0 (map height kids) <= f ->
  Forall (fun d => height d <= f) kids.
Proof.
  induction kids as [|k kids IH]; cbn [map foldr]; intros Hf; constructor.
  - lia.
  - apply IH. lia.
Qed.

(** The children of a represented element render to the markups of their
    documents, one after the other. *)
Lemma kids_run (gs : bool) (dispatch : nat -> H string) (kids : list dom) :
  Forall (fun d => forall m h, rep h (VRef m) d -> honest h ->
            exists h', dispatch m h = (Ok (markup d), h') /\
                       discard_cache h' = discard_cache h /\ honest h')
         kids ->
  forall cs h,
    Forall2 (rep h) cs kids -> honest h ->
    exists h',
      Tag.run_genexp gs
        (map (fun child => match child with
                           | VRef n => dispatch n
                           | _ => lift_outcome (py_str child)
                           end) cs) h
      = (Ok (map markup kids), h') /\
      discard_cache h' = discard_cache h /\ honest h'.
Proof.
  induction 1 as [|k kids Hk Hkids IH]; intros cs h Hcs Hh.
  - inversion Hcs; subst. exists h. auto.
  - inversion Hcs as [|c k' cs' kids' Hc Hcs']; subst.
    assert (exists h1,
      (match c with
       | VRef n => dispatch n
       | _ => lift_outcome (py_str c)
       end) h = (Ok (markup k), h1) /\
      discard_cache h1 = discard_cache h /\ honest h1) as (h1 & E1 & F1 & H1).
    { inversion Hc as [s| |n t a ks Et Hcls Ha Hks]; subst.
      - exists h. auto.
      - exists h. auto.
      - apply Hk; assumption. }
    destruct (IH cs' h1) as (h2 & E2 & F2 & H2).
    { clear - Hcs' F1. induction Hcs'; constructor; auto.
      apply (rep_frame h); assumption. }
    { exact H1. }
    exists h2. cbn [map]. rewrite (run_genexp_cons_ok _ _ _ _ _ _ E1), E2.
    split; [reflexivity|]. split; [congruence | exact H2].
Qed.

Lemma format_template_void (c : pyclass) (name a inner inner' : string) :
  Tag.is_void c = true ->
  Tag.format_template c name a inner = Tag.format_template c name a inner'.
Proof. intros Hv. unfold Tag.format_template. rewrite Hv. reflexivity. Qed.

Lemma format_template_nonempty (c : pyclass) (name a inner : string) :
  Tag.format_template c name a inner <> "".
Proof. unfold Tag.format_template. destruct (Tag.is_void c); discriminate. Qed.

(** The class of the catalog has a tag name. *)
Lemma class_tag_run (t : tagobj) :
  cls t <> CssC -> Tag.class_tag t = Ok (tag_name t).
Proof. unfold Tag.class_tag. destruct (cls t); congruence. Qed.

(** One call of [Tag.render] on a represented element, given that the
    calls on the children behave. *)
Lemma render_with_doc (gs : bool) (dispatch : nat -> H string) (n : nat)
    (t : tagobj) (a : string) (kids : list dom) (h : heap) :
  h !! n = Some (OTag t) -> cls t <> CssC ->
  TagAttrs.render (attrs t) = Ok a ->
  Forall2 (rep h) (childs t) kids -> honest h ->
  Forall (fun d => forall m h, rep h (VRef m) d -> honest h ->
            exists h', dispatch m h = (Ok (markup d), h') /\
                       discard_cache h' = discard_cache h /\ honest h')
         kids ->
  exists h',
    Tag.render_with gs dispatch n [] [] h
    = (Ok (markup (DNode (cls t) (tag_name t) a kids)), h') /\
    discard_cache h' = discard_cache h /\ honest h'.
Proof.
  intros Et Hcls Ha Hkids Hh Hd.
  assert (rep h (VRef n) (DNode (cls t) (tag_name t) a kids)) as Hrep
    by (apply rep_node; assumption).
  unfold Tag.render_with. rewrite no_keyword_nil. cbn [for_each].
  rewrite !bind_ret_run, bind_run, (get_tag_run _ _ _ Et). cbv zeta.
  destruct (if _stable t
            then match _render t with
                 | Some r => if String.eqb r "" then None else Some r
                 | None => None
                 end
            else None) as [r|] eqn:Ec.
  - (* the cached render is returned *)
    exists h. split; [|auto].
    destruct (_stable t) eqn:Hs; [|discriminate].
    destruct (_render t) as [r0|] eqn:Hr; [|discriminate].
    destruct (String.eqb r0 "") eqn:Hne; [discriminate|].
    injection Ec as ->. apply String.eqb_neq in Hne.
    rewrite (Hh n t r _ Et Hs Hr Hne Hrep). reflexivity.
  - clear Ec. rewrite bind_run. unfold lift_outcome at 1.
    rewrite (class_tag_run _ Hcls). cbv beta iota.
    rewrite bind_run. unfold lift_outcome at 1. rewrite Ha.
    cbv beta iota. rewrite bind_run.
    match goal with
    | |- context [let (o, s') := ?x in _] => set (X := x)
    end.
    assert (exists inner h1,
      X = (Ok inner, h1) /\
      discard_cache h1 = discard_cache h /\ honest h1 /\
      Tag.format_template (cls t) (tag_name t) a inner
      = markup (DNode (cls t) (tag_name t) a kids))
      as (inner & h1 & E1 & F1 & H1 & Hm).
    { unfold X. destruct (Tag.is_void (cls t)) eqn:Hv; cbn [negb andb].
      { exists "", h. repeat split; auto.
        apply format_template_void, Hv. }
      destruct (childs t) as [|c cs] eqn:Hcs; cbn [length Nat.eqb negb].
      { exists "", h. inversion Hkids; subst. repeat split; auto. }
      rewrite <- Hcs in *.
      destruct (kids_run gs dispatch kids Hd (childs t) h Hkids Hh)
        as (h1 & E1 & F1 & H1).
      exists (join "" (map markup kids)), h1.
      unfold Tag._get_child_renders.
      rewrite bind_run, (get_tag_run _ _ _ Et), bind_run, E1.
      repeat split; auto. }
    rewrite E1. cbv beta iota zeta.
    destruct (same_but_cache h h1 n t F1 Et)
      as (t1 & Et1 & Ecl & Enm & Ech & Eat).
    rewrite Hm.
    set (r := markup (DNode (cls t) (tag_name t) a kids)).
    rewrite bind_run, (upd_tag_run _ _ _ _ Et1).
    rewrite bind_run,
      (upd_tag_run _ _ _ _ (lookup_insert_same _ _ _ _ Et1)).
    rewrite list_insert_insert_eq.
    set (t2 := set_stable true (set_render (Some r) t1)).
    assert (discard_cache (<[n := OTag t2]> h1) = discard_cache h) as F2.
    { rewrite (discard_cache_insert h1 n (OTag t1) (OTag t2) Et1);
        [exact F1 | reflexivity]. }
    exists (<[n := OTag t2]> h1). split; [reflexivity|].
    split; [exact F2|].
    intros m tm rm dm Em Hs Hr Hne Hrm.
    destruct (decide (m = n)) as [->|Hmn].
    + rewrite (lookup_insert_same _ _ _ _ Et1) in Em.
      injection Em as <-. cbn in Hr. injection Hr as <-.
      apply (rep_frame _ h) in Hrm; [|congruence].
      rewrite (rep_functional _ _ _ _ Hrm Hrep). reflexivity.
    + rewrite list_lookup_insert_ne in Em by congruence.
      apply (H1 m tm rm dm Em Hs Hr Hne).
      apply (rep_frame _ h1) in Hrm; [exact Hrm|].
      symmetry. apply (discard_cache_insert h1 n (OTag t1) (OTag t2) Et1).
      reflexivity.
Qed.

(** The render of a represented subtree, for every object of the subtree. *)
Lemma render_obj_doc (gs : bool) (f : nat) :
  forall d m h,
    height d <= f -> rep h (VRef m) d -> honest h ->
    exists h', Tag.render_obj gs f m h = (Ok (markup d), h') /\
               discard_cache h' = discard_cache h /\ honest h'.
Proof.
  induction f as [|f IH]; intros d m h Hht Hrep Hh.
  - inversion Hrep; subst. cbn [height] in Hht. lia.
  - inversion Hrep as [ | |n t a kids Et Hcls Ha Hkids]; subst.
    cbn [height] in Hht. cbn [Tag.render_obj].
    rewrite bind_run. unfold get_obj at 1. rewrite Et.
    assert (Forall (fun d => forall m h, rep h (VRef m) d -> honest h ->
              exists h', Tag.render_obj gs f m h = (Ok (markup d), h') /\
                         discard_cache h' = discard_cache h /\ honest h')
                   kids) as Hd.
    { apply (Forall_impl (fun d => height d <= f)).
      - apply height_kids. lia.
      - intros d' Hd' m' h' Hr' Hh'. apply IH; assumption. }
    pose proof (render_with_doc gs (Tag.render_obj gs f) m t a kids h
                  Et Hcls Ha Hkids Hh Hd) as Hdoc.
    destruct (cls t); [exact Hdoc | exact Hdoc | congruence].
Qed.

Lemma discard_cache_idem (h : heap) :
  discard_cache (discard_cache h) = discard_cache h.
Proof.
  apply list_eq. intros i. rewrite !discard_cache_lookup.
  destruct (h !! i) as [[t|c]|]; reflexivity.
Qed.

Lemma honest_discard_cache (h : heap) : honest (discard_cache h).
Proof.
  intros n t r d Hn Hs. rewrite discard_cache_lookup in Hn.
  destruct (h !! n) as [[t0|c]|]; try discriminate.
  injection Hn as <-. discriminate.
Qed.

(** X1. In a heap whose valid cached renders are all honest, [render()] on
    an element that stands for the document [d] returns the markup of [d];
    it writes caches and flags only, and the caches are honest
    afterwards. *)
Theorem render_gives_markup_of_subtree :
  forall (gs : bool) (fuel E : nat) (d : dom) (h : heap),
    rep h (VRef E) d -> height d <= S fuel -> honest h ->
    exists h',
      Tag.render gs fuel E [] [] h = (Ok (markup d), h') /\
      discard_cache h' = discard_cache h /\ honest h'.
Proof.
  intros gs fuel E d h Hrep Hht Hh.
  inversion Hrep as [ | |n t a kids Et Hcls Ha Hkids]; subst.
  cbn [height] in Hht.
  apply (render_with_doc gs (Tag.render_obj gs fuel) E t a kids h
           Et Hcls Ha Hkids Hh).
  apply (Forall_impl (fun d => height d <= fuel)).
  - apply height_kids. lia.
  - intros d' Hd' m' h' Hr' Hh'. apply render_obj_doc; assumption.
Qed.

(** X2. With honest caches the cached [render()] and the render recomputed
    from scratch give the same result for a represented element: the
    cache is invisible as long as no cached render is stale. *)
Theorem render_agrees_with_scratch_when_honest :
  forall (gs : bool) (fuel E : nat) (d : dom) (h : heap),
    rep h (VRef E) d -> height d <= S fuel -> honest h ->
    fst (Tag.render gs fuel E [] [] h)
    = fst (render_from_scratch gs fuel E h).
Proof.
  intros gs fuel E d h Hrep Hht Hh.
  assert (forall h0, rep h0 (VRef E) d -> honest h0 ->
            fst (Tag.render gs fuel E [] [] h0) = Ok (markup d)) as Hrun.
  { intros h0 Hrep0 Hh0.
    inversion Hrep0 as [ | |n t a kids Et Hcls Ha Hkids]; subst.
    cbn [height] in Hht.
    destruct (render_with_doc gs (Tag.render_obj gs fuel) E t a kids h0
                Et Hcls Ha Hkids Hh0) as (h' & E' & _).
    { apply (Forall_impl (fun d => height d <= fuel)).
      - apply height_kids. lia.
      - intros d' Hd' m' h' Hr' Hh'. apply render_obj_doc; assumption. }
    unfold Tag.render. rewrite E'. reflexivity. }
  unfold render_from_scratch.
  rewrite (Hrun h Hrep Hh). symmetry. apply Hrun.
  - apply (rep_frame h); [apply discard_cache_idem | exact Hrep].
  - apply honest_discard_cache.
Qed.

(** [rep_node] with the class and the name spelled out. *)
Lemma rep_node_at (h : heap) (n : nat) (t : tagobj) (c : pyclass)
    (name a : string) (kids : list dom) :
  h !! n = Some (OTag t) -> cls t = c -> tag_name t = name -> c <> CssC ->
  TagAttrs.render (attrs t) = Ok a ->
  Forall2 (rep h) (childs t) kids ->
  rep h (VRef n) (DNode c name a kids).
Proof. intros Et <- <- Hc Ha Hk. apply rep_node; assumption. Qed.

(** A heap in which only void elements hold a valid render, each the one
    that its constructor computed, is honest. *)
Lemma honest_unrendered (h : heap) :
  (forall n t, h !! n = Some (OTag t) -> _stable t = true ->
     cls t = VoidTagC /\
     exists a, TagAttrs.render (attrs t) = Ok a /\
               _render t
               = Some (Tag.format_template VoidTagC (tag_name t) a "")) ->
  honest h.
Proof.
  intros Hv n t r d Et Hs Hr Hne Hrep.
  destruct (Hv n t Et Hs) as (Hc & a & Ha & Hr').
  inversion Hrep as [ | |n' t' a' kids Et' Hcls Ha' Hkids]; subst.
  assert (t' = t) as -> by congruence.
  assert (a' = a) as -> by congruence.
  assert (r = Tag.format_template VoidTagC (tag_name t) a "") as ->
    by congruence.
  cbn [markup]. rewrite Hc. apply format_template_void. reflexivity.
Qed.

Lemma small_page_rep :
  rep Scenario.small_page (VRef 0) Scenario.small_page_doc.
Proof.
  eapply rep_node_at;
    [vm_compute; reflexivity | reflexivity | reflexivity | discriminate
    | vm_compute; reflexivity | ].
  cbn [childs]. repeat constructor.
  - eapply rep_node_at;
      [vm_compute; reflexivity | reflexivity | reflexivity | discriminate
      | vm_compute; reflexivity | ].
    cbn [childs]. repeat constructor.
  - eapply rep_node_at;
      [vm_compute; reflexivity | reflexivity | reflexivity | discriminate
      | vm_compute; reflexivity | ].
    cbn [childs]. constructor.
Qed.

Lemma small_page_honest : honest Scenario.small_page.
Proof.
  apply honest_unrendered. intros n t Et Hs.
  destruct n as [|[|[|n]]]; vm_compute in Et; try discriminate;
    injection Et as <-; try discriminate.
  split; [reflexivity|]. exists "". split; reflexivity.
Qed.

(** The theorem at [small_page]. *)
Lemma render_gives_markup_of_subtree_witness :
  rep Scenario.small_page (VRef 0) Scenario.small_page_doc /\
  honest Scenario.small_page /\
  exists h',
    Tag.render true 1 0 [] [] Scenario.small_page
    = (Ok (markup Scenario.small_page_doc), h') /\
    discard_cache h' = discard_cache Scenario.small_page /\ honest h'.
Proof.
  split; [exact small_page_rep|]. split; [exact small_page_honest|].
  apply (render_gives_markup_of_subtree true 1 0 Scenario.small_page_doc
           Scenario.small_page).
  - exact small_page_rep.
  - vm_compute. lia.
  - exact small_page_honest.
Defined.

Lemma render_agrees_with_scratch_when_honest_witness :
  fst (Tag.render true 1 0 [] [] Scenario.small_page)
  = fst (render_from_scratch true 1 0 Scenario.small_page).
Proof.
  apply (render_agrees_with_scratch_when_honest true 1 0
           Scenario.small_page_doc Scenario.small_page).
  - exact small_page_rep.
  - vm_compute. lia.
  - exact small_page_honest.
Defined.

(** *** The second render *)

Lemma keeps_tree_get_child_renders (gs : bool) (dispatch : nat -> H string)
    (self : nat) :
  (forall n, keeps_tree (dispatch n)) ->
  keeps_tree (Tag._get_child_renders gs dispatch self).
Proof.
  intros Hd. unfold Tag._get_child_renders. keeps_tree_auto.
  apply keeps_tree_run_genexp.
  match goal with |- Forall _ (map _ ?l) => induction l as [|c r IH] end;
    constructor; [|exact IH].
  destruct c; try (apply reads_only_keeps_tree; solve [auto with reads]).
  apply Hd.
Qed.

(** X3. A [render()] that returns is repeatable: the next [render()] on the
    same element returns the same string, whatever the recursion budget, and
    leaves the heap as it is. *)
Theorem render_twice_returns_the_cache :
  forall (gs : bool) (fuel fuel' E : nat) (h h1 : heap) (r : string),
    Tag.render gs fuel E [] [] h = (Ok r, h1) ->
    Tag.render gs fuel' E [] [] h1 = (Ok r, h1).
Proof.
  intros gs fuel fuel' E h h1 r Hrun.
  unfold Tag.render, Tag.render_with in Hrun.
  rewrite no_keyword_nil in Hrun. cbn [for_each] in Hrun.
  rewrite !bind_ret_run, bind_run in Hrun.
  destruct (h !! E) as [[t|c]|] eqn:Et;
    [|unfold get_tag, get_obj in Hrun; rewrite bind_run, Et in Hrun;
      discriminate ..].
  rewrite (get_tag_run _ _ _ Et) in Hrun. cbv zeta in Hrun.
  destruct (if _stable t
            then match _render t with
                 | Some r => if String.eqb r "" then None else Some r
                 | None => None
                 end
            else None) as [r0|] eqn:Ec.
  - injection Hrun as <- <-.
    destruct (_stable t) eqn:Hs; [|discriminate].
    destruct (_render t) as [r1|] eqn:Hr; [|discriminate].
    destruct (String.eqb r1 "") eqn:Hne; [discriminate|].
    injection Ec as ->. apply String.eqb_neq in Hne.
    apply (render_returns_cache gs fuel' E h t r0 Et Hs Hr Hne).
  - clear Ec. rewrite bind_run in Hrun. unfold lift_outcome at 1 in Hrun.
    destruct (Tag.class_tag t) as [name|e|] eqn:Hname; try discriminate.
    cbv beta iota in Hrun.
    rewrite bind_run in Hrun. unfold lift_outcome at 1 in Hrun.
    destruct (TagAttrs.render (attrs t)) as [a|e|]; try discriminate.
    cbv beta iota in Hrun. rewrite bind_run in Hrun.
    match type of Hrun with
    | context [let (o, s') := ?x ?y in _] =>
        assert (keeps_tree x) as Hk;
          [|specialize (Hk y); destruct (x y) as [[inner|e|] h2]]
    end.
    { destruct (negb (Tag.is_void (cls t))
                && negb (Nat.eqb (length (childs t)) 0)).
      - apply keeps_tree_get_child_renders, keeps_tree_render_obj.
      - apply reads_only_keeps_tree, reads_only_ret. }
    2,3: discriminate.
    cbn [snd] in Hk. cbv beta iota zeta in Hrun.
    assert (exists t2, h2 !! E = Some (OTag t2)) as [t2 Et2].
    { apply child_list_tag. rewrite (child_list_skeleton _ _ E Hk).
      unfold child_list. rewrite Et. discriminate. }
    rewrite bind_run, (upd_tag_run _ _ _ _ Et2) in Hrun.
    rewrite bind_run,
      (upd_tag_run _ _ _ _ (lookup_insert_same _ _ _ _ Et2)) in Hrun.
    rewrite list_insert_insert_eq in Hrun.
    injection Hrun as <- <-.
    apply (render_returns_cache gs fuel' E _
             (set_stable true
                (set_render
                   (Some (Tag.format_template (cls t) name a inner))
                   t2))).
    + apply (lookup_insert_same _ _ _ _ Et2).
    + reflexivity.
    + reflexivity.
    + apply format_template_nonempty.
Qed.

Lemma render_twice_returns_the_cache_witness :
  let first := Tag.render true 1 0 [] [] Scenario.small_page in
  Tag.render true 0 0 [] [] (snd first)
  = (Ok (markup Scenario.small_page_doc), snd first).
Proof.
  apply (render_twice_returns_the_cache true 1 0 0 Scenario.small_page).
  vm_compute. reflexivity.
Defined.

(** *** html *)

(** X4. [html()] on a represented element returns the markup of its
    children, one after the other, without the element's own tag; like
    [render] it writes caches only and keeps them honest. *)
Theorem html_gives_the_markup_of_the_children :
  forall (gs : bool) (fuel E : nat) (d : dom) (h : heap),
    rep h (VRef E) d -> height d <= S fuel -> honest h ->
    exists h',
      Tag.html gs fuel E h = (Ok (inner_markup d), h') /\
      discard_cache h' = discard_cache h /\ honest h'.
Proof.
  intros gs fuel E d h Hrep Hht Hh.
  inversion Hrep as [ | |n t a kids Et Hcls Ha Hkids]; subst.
  cbn [height] in Hht. cbn [inner_markup].
  destruct (kids_run gs (Tag.render_obj gs fuel) kids) with (cs := childs t)
    (h := h) as (h' & E' & F' & H'); try assumption.
  { apply (Forall_impl (fun d => height d <= fuel)).
    - apply height_kids. lia.
    - intros d' Hd' m' h0 Hr' Hh'. apply render_obj_doc; assumption. }
  exists h'. unfold Tag.html, Tag._get_child_renders.
  rewrite bind_run, (get_tag_run _ _ _ Et), bind_run, E'. auto.
Qed.

Lemma html_gives_the_markup_of_the_children_witness :
  exists h',
    Tag.html true 1 0 Scenario.small_page
    = (Ok (inner_markup Scenario.small_page_doc), h') /\
    discard_cache h' = discard_cache Scenario.small_page /\ honest h'.
Proof.
  apply (html_gives_the_markup_of_the_children true 1 0
           Scenario.small_page_doc Scenario.small_page).
  - exact small_page_rep.
  - vm_compute. lia.
  - exact small_page_honest.
Defined.

(** *** text *)

Lemma all_str_strings (ss : list string) : all_str (map VStr ss) = Ok ss.
Proof.
  induction ss as [|s ss IH]; [reflexivity|].
  cbn [map all_str]. rewrite IH. reflexivity.
Qed.

(** The loop of [text] over the children of a represented element whose
    leaves are strings. *)
Lemma text_loop_run (rec : nat -> H string) (crender : contentobj -> H string)
    (h : heap) (kids : list dom) :
  Forall (fun d => forall m, rep h (VRef m) d -> strings_only d = true ->
            rec m h = (Ok (text_of d), h)) kids ->
  forallb strings_only kids = true ->
  forall cs,
    Forall2 (rep h) cs kids ->
    (fix loop (cs : list pyval) : H (list pyval) :=
       match cs with
       | [] => ret []
       | child :: r =>
           x <- match child with
                | VRef n =>
                    o <- get_obj n ;;
                    match o with
                    | OTag _ => s <- rec n ;; ret (VStr s)
                    | OContent c => s <- crender c ;; ret (VStr s)
                    end
                | _ => ret child
                end ;;
           xs <- loop r ;;
           ret (x :: xs)
       end) cs h
    = (Ok (map VStr (map text_of kids)), h).
Proof.
  induction 1 as [|k kids Hk Hkids IH]; intros Hs cs Hcs.
  - inversion Hcs; subst. reflexivity.
  - inversion Hcs as [|c k' cs' kids' Hc Hcs']; subst.
    cbn [forallb] in Hs. apply andb_prop in Hs as [Hsk Hss].
    specialize (IH Hss cs' Hcs').
    inversion Hc as [s| |n t a ks Et Hcls Ha Hks]; subst; cbv beta iota.
    + rewrite bind_run. unfold ret at 1. rewrite bind_run, IH. reflexivity.
    + discriminate.
    + rewrite !bind_run. unfold get_obj at 1. rewrite Et.
      rewrite bind_run, (Hk n Hc Hsk). cbv beta iota.
      unfold ret at 1. rewrite bind_run, IH. reflexivity.
Qed.

(** X5. [text()] on a represented element whose leaves are all strings
    returns these strings in document order, without any tag, and changes
    nothing. *)
Theorem text_gives_the_strings_of_the_subtree :
  forall (gs : bool) (fuel E : nat) (d : dom) (h : heap),
    rep h (VRef E) d -> strings_only d = true -> height d <= fuel ->
    Tag.text gs fuel E h = (Ok (text_of d), h).
Proof.
  intros gs fuel. induction fuel as [|fuel IH]; intros E d h Hrep Hs Hht.
  - inversion Hrep; subst. cbn [height] in Hht. lia.
  - inversion Hrep as [ | |n t a kids Et Hcls Ha Hkids]; subst.
    cbn [height] in Hht. cbn [strings_only] in Hs. cbn [Tag.text].
    rewrite bind_run, (get_tag_run _ _ _ Et), bind_run.
    rewrite (text_loop_run (Tag.text gs fuel)
               (fun c => Content.render_with (Tag.render_obj gs fuel)
                           (DOMElement._find_content fuel) c)
               h kids).
    + rewrite bind_run. unfold lift_outcome at 1.
      rewrite all_str_strings. reflexivity.
    + apply (Forall_impl (fun d => height d <= fuel)).
      * apply height_kids. lia.
      * intros d' Hd' m Hr' Hs'. apply IH; assumption.
    + exact Hs.
    + exact Hkids.
Qed.

(** The theorem at [small_page]: the text of the whole page. *)
Lemma text_gives_the_strings_of_the_subtree_witness :
  Tag.text true 2 0 Scenario.small_page = (Ok "xy", Scenario.small_page).
Proof.
  apply (text_gives_the_strings_of_the_subtree true 2 0
           Scenario.small_page_doc Scenario.small_page).
  - exact small_page_rep.
  - reflexivity.
  - vm_compute. lia.
Defined.

(** *** The constructor of an element *)

(** X6. The constructor of a class other than [Css], called with keywords
    that name none of the parameters [self] and [attrs] and that the
    attribute container stores and renders: it raises [TagError], with the
    heap unchanged, when a needed keyword is missing.  Otherwise it adds
    one object to the heap and touches no other; the new element has no
    children and no parent, and its [render()] is the tag with the given
    attributes and an empty inside (for a void class, the string computed
    at construction). *)
Theorem fresh_element_renders_without_content :
  forall (gs : bool) (fuel : nat) (c : pyclass) (name : string)
         (needed : list string) (kw : dict) (h : heap) (a : TagAttrs.t)
         (s : string),
    c <> CssC ->
    dict_has "self" kw = false -> dict_get "attrs" kw = None ->
    TagAttrs.update (Some kw) [] TagAttrs.empty = (Ok tt, a) ->
    TagAttrs.render a = Ok s ->
    let r := Tag.__init__ c name needed kw h in
    if forallb (fun k => dict_has k kw) needed then
      fst r = Ok (length h) /\
      length (snd r) = S (length h) /\
      (forall n, n < length h -> snd r !! n = h !! n) /\
      child_list (snd r) (length h) = Some [] /\
      parent_ref (snd r) (length h) = None /\
      fst (Tag.render gs fuel (length h) [] [] (snd r))
      = Ok (Tag.format_template c name s "")
    else r = (Raise TagError, h).
Proof.
  intros gs fuel c name needed kw h a s Hc Hself Hattrs Hu Hr r.
  destruct (forallb (fun k => dict_has k kw) needed) eqn:Hn.
  2:{ unfold r, Tag.__init__. rewrite (no_keyword_run _ _ _ Hself), Hn.
      destruct needed; [discriminate | reflexivity]. }
  set (t0 := mkTag c name None [] None [] a None false []).
  assert (Tag.class_tag t0 = Ok name) as Hname
    by (apply (class_tag_run t0), Hc).
  assert (r = (Ok (length h),
               h ++ [OTag (if Tag.is_void c
                           then set_stable true
                                  (set_render
                                     (Some (Tag.format_template c name s ""))
                                     t0)
                           else t0)])) as ->.
  { unfold r, Tag.__init__. rewrite (no_keyword_run _ _ _ Hself), Hn.
    cbn [negb]. rewrite andb_false_r.
    rewrite bind_run. unfold lift_outcome at 1, Tag.attr_chosen.
    rewrite Hself, Hattrs. cbv beta iota zeta. rewrite Hu. cbn [fst snd].
    rewrite bind_run. unfold lift_outcome at 1. cbv beta iota.
    rewrite bind_run. unfold alloc at 1. cbv beta iota. fold t0.
    assert ((h ++ [OTag t0]) !! length h = Some (OTag t0)) as E0
      by (apply list_lookup_middle; reflexivity).
    destruct (Tag.is_void c) eqn:Hv.
    - rewrite !bind_run. unfold Tag.render_with. rewrite no_keyword_nil.
      cbn [for_each].
      rewrite !bind_ret_run, bind_run, (get_tag_run _ _ _ E0).
      cbv zeta. cbn [_stable t0].
      rewrite bind_run. unfold lift_outcome at 1. rewrite Hname.
      cbv beta iota. cbn [attrs t0 cls childs].
      rewrite bind_run. unfold lift_outcome at 1. rewrite Hr.
      cbv beta iota. rewrite Hv. cbn [negb andb].
      rewrite bind_ret_run, bind_run, (upd_tag_run _ _ _ _ E0).
      rewrite bind_run,
        (upd_tag_run _ _ _ _ (lookup_insert_same _ _ _ _ E0)).
      rewrite list_insert_insert_eq. unfold ret at 1.
      rewrite (upd_tag_run _ _ _ _ (lookup_insert_same _ _ _ _ E0)).
      rewrite list_insert_insert_eq. cbv beta iota. unfold ret.
      f_equal.
      replace (length h) with (length h + 0) at 1 by lia.
      rewrite insert_app_r. reflexivity.
    - rewrite bind_ret_run. reflexivity. }
  cbn [fst snd].
  set (t1 := if Tag.is_void c
             then set_stable true
                    (set_render (Some (Tag.format_template c name s "")) t0)
             else t0).
  assert ((h ++ [OTag t1]) !! length h = Some (OTag t1)) as E1
    by (apply list_lookup_middle; reflexivity).
  split; [reflexivity|].
  split; [rewrite length_app; cbn [length]; lia|].
  split; [intros n Hlt; apply lookup_app_l, Hlt|].
  split.
  { unfold child_list. rewrite E1. unfold t1.
    destruct (Tag.is_void c); reflexivity. }
  split.
  { unfold parent_ref. rewrite E1. unfold t1.
    destruct (Tag.is_void c); reflexivity. }
  destruct (Tag.is_void c) eqn:Hv.
  - rewrite (render_returns_cache gs fuel (length h) _ t1
               (Tag.format_template c name s "") E1);
      try reflexivity.
    apply format_template_nonempty.
  - unfold Tag.render, Tag.render_with. rewrite no_keyword_nil.
    cbn [for_each].
    rewrite !bind_ret_run, bind_run, (get_tag_run _ _ _ E1).
    cbv zeta. unfold t1. cbn [_stable t0].
    rewrite bind_run. unfold lift_outcome at 1. rewrite Hname.
    cbv beta iota. cbn [attrs t0 cls childs].
    rewrite bind_run. unfold lift_outcome at 1. rewrite Hr.
    cbv beta iota. rewrite ?Hv. cbn [length Nat.eqb negb andb].
    rewrite bind_ret_run, bind_run, (upd_tag_run _ _ _ _ E1).
    rewrite bind_run,
      (upd_tag_run _ _ _ _ (lookup_insert_same _ _ _ _ E1)).
    reflexivity.
Qed.

(** The theorem at [A(href='x')], a class that needs [href]. *)
Lemma fresh_element_renders_without_content_witness :
  let r := Tag.__init__ TagC "a" ["href"] [("href", VStr "x")] [] in
  fst r = Ok 0 /\
  length (snd r) = 1 /\
  (forall n, n < 0 -> snd r !! n = @nil obj !! n) /\
  child_list (snd r) 0 = Some [] /\
  parent_ref (snd r) 0 = None /\
  fst (Tag.render true 0 0 [] [] (snd r))
  = Ok (Tag.format_template TagC "a"
          (" href=" +:+ dquote +:+ "x" +:+ dquote) "").
Proof.
  apply (fresh_element_renders_without_content true 0 TagC "a" ["href"]
           [("href", VStr "x")] []
           (TagAttrs.mk [("href", VStr "x")] None)
           (" href=" +:+ dquote +:+ "x" +:+ dquote));
    [discriminate | reflexivity ..].
Defined.

(** What the theorem leaves out.  A keyword that names a parameter is
    bound to it: [Div(self=...)], [attr(self=...)] and [P(inst=...)] are
    [TypeError]s, and [Div(attrs=m)] stores the keys of the mapping [m]
    and drops the other keywords.  A style sheet has no [__tag]: its
    [render()] is [Css.render], and [Tag.render] applied to it ends in an
    [AttributeError]. *)
Example keywords_that_name_a_parameter :
  fst (Tag.__init__ TagC "div" [] [("self", VStr "x")] []) = Raise TypeError /\
  fst (Tag.attr 0 None [("self", VStr "x")] Scenario.fresh_div)
  = Raise TypeError /\
  fst (DOMElement.__call__ 0 [] [("inst", VStr "x")] Scenario.fresh_div)
  = Raise TypeError /\
  fst ((div <- Tag.__init__ TagC "div" []
                 [("attrs", VDict [("id", VStr "x")]); ("k", VStr "v")] ;;
        Tag.render true 1 div [] []) [])
  = Ok ("<div id=" +:+ dquote +:+ "x" +:+ dquote +:+ "></div>").
Proof. vm_compute. repeat split; reflexivity. Qed.

Example render_of_a_style_sheet :
  fst (Tag.render_obj true 1 0 Scenario.small_sheet)
  = Ok "<style>id: x; </style>" /\
  fst (Tag.render true 1 0 [] [] Scenario.small_sheet)
  = Raise AttributeError.
Proof. vm_compute. split; reflexivity. Qed.

(** *** pop *)

(** [pop] up to the removal from the child list: the position [j] is the
    one that [list.pop] computes from [idx]. *)
Lemma pop_at (self : nat) (idx : option Z) (h : heap) (t : tagobj)
    (k : nat) (x : pyval) :
  h !! self = Some (OTag t) ->
  (let n := Z.of_nat (length (childs t)) in
   let idx1 := match idx with
               | Some i => if (i =? 0)%Z then (n - 1)%Z else i
               | None => (n - 1)%Z
               end in
   if (idx1 <? 0)%Z then (idx1 + n)%Z else idx1) = Z.of_nat k ->
  childs t !! k = Some x ->
  DOMElement.pop self idx h
  = (match x with
     | VRef c =>
         o <- get_obj c ;;
         match o with
         | OTag _ => upd_tag c (set_parent None)
         | OContent _ => ret tt
         end
     | _ => ret tt
     end ;;; ret x)
      (<[self := OTag (set_childs (delete k (childs t))
                         (set_stable false t))]> h).
Proof.
  intros Et Hj Hx. unfold DOMElement.pop.
  rewrite bind_run, (upd_tag_run _ _ _ _ Et).
  rewrite bind_run, (get_tag_run _ _ _ (lookup_insert_same _ _ _ _ Et)).
  cbv zeta in Hj |- *. cbn [childs set_stable]. rewrite Hj.
  pose proof (lookup_lt_Some _ _ _ Hx) as Hlt.
  assert ((Z.of_nat k <? 0)%Z = false) as -> by (apply Z.ltb_ge; lia).
  assert ((Z.of_nat (length (childs t)) <=? Z.of_nat k)%Z = false) as ->
    by (apply Z.leb_gt; lia).
  cbn [orb]. rewrite Nat2Z.id, Hx.
  rewrite bind_run,
    (upd_tag_run _ _ _ _ (lookup_insert_same _ _ _ _ Et)).
  rewrite list_insert_insert_eq. reflexivity.
Qed.

(** The end of [pop]: the parent reference of the removed value is
    cleared when the value is an element. *)
Lemma pop_tail (x : pyval) (h0 : heap) :
  live h0 x ->
  (match x with
   | VRef c =>
       o <- get_obj c ;;
       match o with
       | OTag _ => upd_tag c (set_parent None)
       | OContent _ => ret tt
       end
   | _ => ret tt
   end ;;; ret x) h0
  = (Ok x,
     match x with
     | VRef c =>
         match h0 !! c with
         | Some (OTag tc) => <[c := obj_set_parent None (OTag tc)]> h0
         | _ => h0
         end
     | _ => h0
     end).
Proof.
  intros Hl. destruct x; try reflexivity.
  cbn [live] in Hl. destruct (lookup_lt_is_Some_2 h0 n Hl) as [o Eo].
  rewrite !bind_run. unfold get_obj at 1. rewrite Eo.
  destruct o as [tc|co]; [|reflexivity].
  rewrite (upd_tag_run _ _ _ _ Eo). reflexivity.
Qed.

Lemma pop_tail_child_list (x : pyval) (h0 : heap) (q : nat) :
  child_list (match x with
              | VRef c =>
                  match h0 !! c with
                  | Some (OTag tc) => <[c := obj_set_parent None (OTag tc)]> h0
                  | _ => h0
                  end
              | _ => h0
              end) q
  = child_list h0 q.
Proof.
  destruct x; try reflexivity.
  destruct (h0 !! n) as [[tc|co]|] eqn:Eo; try reflexivity.
  apply (child_list_set_parent _ _ _ _ _ Eo).
Qed.

(** What a [pop] that finds its position does to the child lists. *)
Lemma pop_removes (self : nat) (idx : option Z) (h : heap) (t : tagobj)
    (k : nat) (x : pyval) :
  h !! self = Some (OTag t) ->
  (let n := Z.of_nat (length (childs t)) in
   let idx1 := match idx with
               | Some i => if (i =? 0)%Z then (n - 1)%Z else i
               | None => (n - 1)%Z
               end in
   if (idx1 <? 0)%Z then (idx1 + n)%Z else idx1) = Z.of_nat k ->
  childs t !! k = Some x -> live h x ->
  fst (DOMElement.pop self idx h) = Ok x /\
  child_list (snd (DOMElement.pop self idx h)) self
  = Some (delete k (childs t)) /\
  forall q, q <> self ->
    child_list (snd (DOMElement.pop self idx h)) q = child_list h q.
Proof.
  intros Et Hj Hx Hl.
  rewrite (pop_at self idx h t k x Et Hj Hx), pop_tail.
  2:{ destruct x; try exact I. cbn [live] in *.
      rewrite length_insert. exact Hl. }
  cbn [fst snd]. split; [reflexivity|].
  split; [|intros q Hq]; rewrite pop_tail_child_list,
    (child_list_set_childs _ _ _ _ _ Et).
  - rewrite decide_True; reflexivity.
  - rewrite decide_False; [reflexivity | exact Hq].
Qed.


(** X7. [pop(idx)] returns the child at the position [k] that [idx] names
    and takes it out of the child list, leaving the other child lists alone.
    A missing [idx] and [idx = 0] both name the last child; a positive
    [idx] names its own position, a negative one counts from the end. *)
Theorem pop_takes_the_child_that_list_pop_would :
  forall (self : nat) (idx : option Z) (h : heap) (t : tagobj) (k : nat)
         (x : pyval),
    h !! self = Some (OTag t) -> childs t !! k = Some x -> live h x ->
    ((idx = None \/ idx = Some 0%Z) /\ S k = length (childs t)) \/
    (k <> 0 /\ idx = Some (Z.of_nat k)) \/
    idx = Some (Z.of_nat k - Z.of_nat (length (childs t)))%Z ->
    fst (DOMElement.pop self idx h) = Ok x /\
    child_list (snd (DOMElement.pop self idx h)) self
    = Some (delete k (childs t)) /\
    forall q, q <> self ->
      child_list (snd (DOMElement.pop self idx h)) q = child_list h q.
Proof.
  intros self idx h t k x Et Hx Hl Hidx.
  pose proof (lookup_lt_Some _ _ _ Hx) as Hlt.
  apply (pop_removes self idx h t k x Et); [|exact Hx|exact Hl].
  cbv zeta.
  destruct Hidx as [[[-> | ->] Hk] | [[Hk ->] | ->]]; cbn [Z.eqb];
    repeat match goal with
           | |- context [(?a =? ?b)%Z] => destruct (Z.eqb_spec a b)
           | |- context [(?a <? ?b)%Z] => destruct (Z.ltb_spec a b)
           end; lia.
Qed.

(** X8. [pop] on an element without children, or with an index beyond either
    end of the child list: the element is marked as changed and nothing
    else is written.  The call ends in an [IndexError] when the index has
    at most 32 bits, and in an [OverflowError] when it has more than 64. *)
Theorem pop_out_of_range_raises :
  forall (self : nat) (idx : option Z) (h : heap) (t : tagobj),
    h !! self = Some (OTag t) ->
    childs t = [] \/
    (exists i, idx = Some i /\
               (Z.of_nat (length (childs t)) <= i \/
                i < - Z.of_nat (length (childs t)))%Z) ->
    (small_index idx ->
     DOMElement.pop self idx h
     = (Raise IndexError, <[self := OTag (set_stable false t)]> h)) /\
    (forall i, idx = Some i -> (i < - 2 ^ 63 \/ 2 ^ 63 <= i)%Z ->
     DOMElement.pop self idx h
     = (Raise OverflowError, <[self := OTag (set_stable false t)]> h)).
Proof.
  intros self idx h t Et Hr. unfold DOMElement.pop.
  rewrite bind_run, (upd_tag_run _ _ _ _ Et).
  rewrite bind_run, (get_tag_run _ _ _ (lookup_insert_same _ _ _ _ Et)).
  cbv zeta. cbn [childs set_stable].
  match goal with
  | |- context [if ?b then bind _ _ else _] =>
      assert (b = true) as ->
  end.
  { destruct Hr as [Hnil | (i & -> & Hi)].
    - rewrite Hnil. cbn [length].
      destruct idx as [i|]; [destruct (Z.eqb_spec i 0)|];
        repeat match goal with
               | |- context [(?a <? ?b)%Z] => destruct (Z.ltb_spec a b)
               | |- context [(?a <=? ?b)%Z] => destruct (Z.leb_spec a b)
               end; try reflexivity; lia.
    - destruct (Z.eqb_spec i 0);
        repeat match goal with
               | |- context [(?a <? ?b)%Z] => destruct (Z.ltb_spec a b)
               | |- context [(?a <=? ?b)%Z] => destruct (Z.leb_spec a b)
               end; try reflexivity; lia. }
  rewrite bind_run. unfold lift_outcome at 1, as_ssize.
  assert (childs t = [] \/ idx <> Some 0%Z) as Hz.
  { destruct Hr as [Hnil | (i & -> & Hi)]; [left; exact Hnil|].
    destruct (childs t); [left; reflexivity|].
    right. intros [= ->]. cbn [length] in Hi. lia. }
  split.
  - intros Hs.
    match goal with
    | |- context [((- 2 ^ 31 <=? ?x) && (?x <? 2 ^ 31))%Z] =>
        assert (((- 2 ^ 31 <=? x) && (x <? 2 ^ 31))%Z = true) as ->;
          [|reflexivity]
    end.
    apply andb_true_intro. rewrite Z.leb_le, Z.ltb_lt.
    destruct idx as [i|]; cbn [small_index] in Hs.
    + destruct (Z.eqb_spec i 0) as [->|Hne].
      * destruct Hz as [-> | Hz]; [cbn [length]; lia | congruence].
      * lia.
    + destruct Hz as [-> | Hz]; [cbn [length]; lia|].
      destruct Hr as [Hnil | (i & [=] & _)]. rewrite Hnil. cbn [length]. lia.
  - intros i -> Hi.
    assert ((i =? 0)%Z = false) as -> by (apply Z.eqb_neq; lia).
    assert (((- 2 ^ 31 <=? i) && (i <? 2 ^ 31))%Z = false) as ->.
    { apply andb_false_iff. rewrite Z.leb_gt, Z.ltb_ge. lia. }
    assert (((- 2 ^ 63 <=? i) && (i <? 2 ^ 63))%Z = false) as ->.
    { apply andb_false_iff. rewrite Z.leb_gt, Z.ltb_ge. lia. }
    reflexivity.
Qed.

(** A [pop] that returns has found its position. *)
Lemma pop_ok_inv (self : nat) (idx : option Z) (h : heap) (x : pyval) :
  fst (DOMElement.pop self idx h) = Ok x ->
  exists t k,
    h !! self = Some (OTag t) /\
    (let n := Z.of_nat (length (childs t)) in
     let idx1 := match idx with
                 | Some i => if (i =? 0)%Z then (n - 1)%Z else i
                 | None => (n - 1)%Z
                 end in
     if (idx1 <? 0)%Z then (idx1 + n)%Z else idx1) = Z.of_nat k /\
    childs t !! k = Some x.
Proof.
  unfold DOMElement.pop.
  destruct (h !! self) as [[t|c]|] eqn:Et.
  - rewrite bind_run, (upd_tag_run _ _ _ _ Et).
    rewrite bind_run, (get_tag_run _ _ _ (lookup_insert_same _ _ _ _ Et)).
    cbv zeta. cbn [childs set_stable].
    match goal with
    | |- context [if (?j <? 0)%Z || _ then bind _ _ else _] =>
        set (J := j)
    end.
    assert (forall i h0,
              fst ((lift_outcome (as_ssize i) ;;;
                    @raise heap pyval IndexError) h0) <> Ok x) as Hno.
    { intros i h0. rewrite bind_run. unfold lift_outcome at 1.
      destruct (as_ssize i) as [[]|e|]; discriminate. }
    destruct (Z.ltb_spec J 0) as [Hneg|Hpos]; cbn [orb];
      [intros Hx; destruct (Hno _ _ Hx)|].
    destruct (Z.of_nat (length (childs t)) <=? J)%Z;
      [intros Hx; destruct (Hno _ _ Hx)|].
    destruct (childs t !! Z.to_nat J) as [elem|] eqn:Ek; [|discriminate].
    rewrite bind_run,
      (upd_tag_run _ _ _ _ (lookup_insert_same _ _ _ _ Et)).
    rewrite bind_run.
    match goal with
    | |- context [let (o, s') := ?m in _] => destruct m as [[[]|e|] h2]
    end; try discriminate.
    intros [= <-]. exists t, (Z.to_nat J).
    split; [reflexivity|]. split; [|exact Ek].
    rewrite Z2Nat.id by exact Hpos. reflexivity.
  - unfold upd_tag, upd_obj, modify, get_tag, get_obj.
    rewrite !bind_run, Et. cbn. rewrite list_insert_id by exact Et.
    rewrite Et. discriminate.
  - unfold upd_tag, upd_obj, modify, get_tag, get_obj.
    rewrite !bind_run, Et. cbn. rewrite Et. discriminate.
Qed.

(** X9. When [pop] returns a tree node, the node was in the heap; if it is
    an element its parent reference is cleared, if it is a placeholder its
    parent reference stays as it was. *)
Theorem pop_clears_the_parent_of_elements_only :
  forall (self c : nat) (idx : option Z) (h : heap),
    fst (DOMElement.pop self idx h) = Ok (VRef c) ->
    match h !! c with
    | Some (OTag _) =>
        parent_ref (snd (DOMElement.pop self idx h)) c = None
    | Some (OContent co) =>
        parent_ref (snd (DOMElement.pop self idx h)) c = c_parent co
    | None => False
    end.
Proof.
  intros self c idx h Hok.
  destruct (pop_ok_inv self idx h (VRef c) Hok) as (t & k & Et & Hj & Hx).
  rewrite (pop_at self idx h t k (VRef c) Et Hj Hx) in Hok |- *.
  set (h0 := <[self := OTag (set_childs (delete k (childs t))
                              (set_stable false t))]> h) in *.
  destruct (h !! c) as [[tc|co]|] eqn:Ec.
  - assert (exists tc0, h0 !! c = Some (OTag tc0)) as [tc0 Ec0].
    { unfold h0. destruct (decide (c = self)) as [->|Hne].
      - rewrite (lookup_insert_same _ _ _ _ Et). eauto.
      - rewrite list_lookup_insert_ne by congruence. eauto. }
    pose proof (pop_tail (VRef c) h0 (lookup_lt_Some _ _ _ Ec0)) as Ht.
    cbv beta iota in Ht. rewrite Ht.
    cbn [snd]. rewrite Ec0.
    rewrite (parent_ref_set_parent _ _ _ _ _ Ec0), decide_True; reflexivity.
  - assert (h0 !! c = Some (OContent co)) as Ec0.
    { unfold h0. rewrite list_lookup_insert_ne; [exact Ec | congruence]. }
    pose proof (pop_tail (VRef c) h0 (lookup_lt_Some _ _ _ Ec0)) as Ht.
    cbv beta iota in Ht. rewrite Ht.
    cbn [snd]. rewrite Ec0. unfold parent_ref. rewrite Ec0. reflexivity.
  - assert (h0 !! c = None) as Ec0.
    { apply lookup_ge_None. unfold h0. rewrite length_insert.
      apply lookup_ge_None. exact Ec. }
    revert Hok. rewrite !bind_run. unfold get_obj at 1. rewrite Ec0.
    discriminate.
Qed.


(** The theorem at [ul = Ul()(Li(), Li())] and [ul.pop(0)]: the second
    item is taken. *)
Lemma pop_takes_the_child_that_list_pop_would_witness :
  let h := Scenario.two_children in
  fst (DOMElement.pop 0 (Some 0%Z) h) = Ok (VRef 2) /\
  child_list (snd (DOMElement.pop 0 (Some 0%Z) h)) 0 = Some [VRef 1] /\
  forall q, q <> 0 ->
    child_list (snd (DOMElement.pop 0 (Some 0%Z) h)) q = child_list h q.
Proof.
  apply (pop_takes_the_child_that_list_pop_would 0 (Some 0%Z)
           Scenario.two_children
           (mkTag TagC "ul" None [VRef 1; VRef 2] None [] TagAttrs.empty
                  None false [])
           1 (VRef 2)).
  - vm_compute. reflexivity.
  - reflexivity.
  - vm_compute. lia.
  - left. split; [right; reflexivity | reflexivity].
Defined.

(** The theorem at [Div().pop()], and at [ul = Ul()(Li(), Li())] and
    [ul.pop(2**63)]. *)
Lemma pop_out_of_range_raises_witness :
  (exists t,
     Scenario.fresh_div !! 0 = Some (OTag t) /\
     DOMElement.pop 0 None Scenario.fresh_div
     = (Raise IndexError, <[0 := OTag (set_stable false t)]>
                            Scenario.fresh_div)) /\
  (exists t,
     Scenario.two_children !! 0 = Some (OTag t) /\
     DOMElement.pop 0 (Some (2 ^ 63)%Z) Scenario.two_children
     = (Raise OverflowError, <[0 := OTag (set_stable false t)]>
                               Scenario.two_children)).
Proof.
  split.
  - eexists. split; [vm_compute; reflexivity|].
    apply (pop_out_of_range_raises 0 None Scenario.fresh_div).
    + vm_compute. reflexivity.
    + left. reflexivity.
    + exact I.
  - exists (mkTag TagC "ul" None [VRef 1; VRef 2] None [] TagAttrs.empty
                  None false []).
    split; [vm_compute; reflexivity|].
    destruct (pop_out_of_range_raises 0 (Some (2 ^ 63)%Z)
                Scenario.two_children
                (mkTag TagC "ul" None [VRef 1; VRef 2] None [] TagAttrs.empty
                       None false [])) as [_ Hbig].
    + vm_compute. reflexivity.
    + right. exists (2 ^ 63)%Z. split; [reflexivity|]. left.
      vm_compute. discriminate.
    + apply (Hbig (2 ^ 63)%Z eq_refl). right. vm_compute. discriminate.
Defined.

(** The theorem at [div = Div()(Content(name='x'), 'tail')] and
    [div.pop(-2)]: the placeholder is taken out and still has [div] as its
    parent. *)
Lemma pop_clears_the_parent_of_elements_only_witness :
  let h := Scenario.unbound_placeholder in
  fst (DOMElement.pop 0 (Some (-2)%Z) h) = Ok (VRef 1) /\
  child_list (snd (DOMElement.pop 0 (Some (-2)%Z) h)) 0
  = Some [VStr "tail"] /\
  parent_ref (snd (DOMElement.pop 0 (Some (-2)%Z) h)) 1 = Some 0.
Proof.
  split; [vm_compute; reflexivity|]. split; [vm_compute; reflexivity|].
  apply (pop_clears_the_parent_of_elements_only 0 1 (Some (-2)%Z)
           Scenario.unbound_placeholder).
  vm_compute. reflexivity.
Defined.

(** *** Where [_insert] puts a child *)

(** An insertion of a value that can be inserted, at an index that is
    converted, returns; the child list of the element is the old one with
    the value inserted, the value's parent is the element, and nothing
    else in the tree changes. *)
Lemma insert_run (p : nat) (child : pyval) (idx : option Z)
    (prepend : bool) (h : heap) (t : tagobj) :
  h !! p = Some (OTag t) -> insertable h child = true ->
  index_fits (DOMElement.insert_index idx prepend (length (childs t)))
    (length (childs t)) = Ok tt ->
  exists h',
    DOMElement._insert p child idx prepend h = (Ok tt, h') /\
    length h' = length h /\
    obj_name <$> h' = obj_name <$> h /\
    child_list h' p
    = Some (list_insert_at
              (DOMElement.insert_index idx prepend (length (childs t)))
              child (childs t)) /\
    (forall q, q <> p -> child_list h' q = child_list h q) /\
    (forall c, child = VRef c -> parent_ref h' c = Some p) /\
    (forall n, child <> VRef n -> parent_ref h' n = parent_ref h n).
Proof.
  intros Ep Hins Hfit.
  pose proof (keeps_names_insert p child idx prepend h) as Hnames.
  assert ((exists c, child = VRef c) \/ (forall n, child <> VRef n))
    as [[c ->]|Hplain].
  { destruct child; try (right; intros n0; discriminate). left. eauto. }
  - destruct (lookup_lt_is_Some_2 h c (insertable_live _ _ Hins)) as [o Ec].
    destruct (insert_ref_run p c idx prepend h t o Ep Ec Hfit)
      as (o1 & r & h' & Ec1 & Erun & Hok & Esk).
    rewrite (Hok Hins) in Erun. rewrite Erun in Hnames. cbn [snd] in Hnames.
    exists h'. split; [exact Erun|].
    split.
    { rewrite (skeleton_length _ _ Esk), !length_insert. reflexivity. }
    split; [exact Hnames|].
    split.
    { rewrite (child_list_skeleton _ _ p Esk),
        (child_list_set_parent _ _ _ _ _ Ec1),
        (child_list_set_childs _ _ _ _ _ Ep), decide_True; reflexivity. }
    split.
    { intros q Hq.
      rewrite (child_list_skeleton _ _ q Esk),
        (child_list_set_parent _ _ _ _ _ Ec1),
        (child_list_set_childs _ _ _ _ _ Ep), decide_False;
        [reflexivity | exact Hq]. }
    split.
    { intros c' [= <-]. rewrite (parent_ref_skeleton _ _ c Esk),
        (parent_ref_set_parent _ _ _ _ _ Ec1), decide_True; reflexivity. }
    intros n Hn. rewrite (parent_ref_skeleton _ _ n Esk),
      (parent_ref_set_parent _ _ _ _ _ Ec1), decide_False by congruence.
    apply (parent_ref_set_childs _ _ _ _ _ Ep). reflexivity.
  - rewrite (insert_plain_run p child idx prepend h t Ep Hplain Hfit)
      in Hnames |- *.
    cbn [snd] in Hnames.
    eexists. split; [reflexivity|].
    split; [apply length_insert|].
    split; [exact Hnames|].
    split.
    { rewrite (child_list_set_childs _ _ _ _ _ Ep), decide_True;
        reflexivity. }
    split.
    { intros q Hq.
      rewrite (child_list_set_childs _ _ _ _ _ Ep), decide_False;
        [reflexivity | exact Hq]. }
    split; [intros c Hc; destruct (Hplain c Hc)|].
    intros n _. apply (parent_ref_set_childs _ _ _ _ _ Ep). reflexivity.
Qed.

(** The position of an insertion, counted from the front. *)
Lemma list_insert_at_position {A} (idx : option Z) (prepend : bool)
    (x : A) (l : list A) :
  list_insert_at (DOMElement.insert_index idx prepend (length l)) x l
  = let k := if prepend then 0
             else match idx with
                  | None => length l
                  | Some i => Z.to_nat (Z.min (Z.max i 0)
                                              (Z.of_nat (length l)))
                  end in
    take k l ++ x :: drop k l.
Proof.
  unfold list_insert_at. cbv zeta.
  match goal with
  | |- take ?a l ++ _ = take ?b l ++ _ => assert (a = b) as ->; [|reflexivity]
  end.
  unfold DOMElement.insert_index.
  destruct prepend; [|destruct idx as [i|]];
    repeat match goal with
           | |- context [(?a <? ?b)%Z] => destruct (Z.ltb_spec a b)
           end; lia.
Qed.

(** X10. [_insert(child, idx, prepend)] with a child that can be inserted
    (a plain value, or a node of the heap whose name is not the name of an
    attribute of an element) and an index of at most 32 bits returns and
    puts the child at position [k] of the child list: the front with
    [prepend], the end without [idx], and otherwise [idx] clamped to the
    list, so that a negative [idx] means the front.  A tree node gets the
    element as parent, and no other child list changes.  With an index of
    more than 64 bits that lies behind the list, [list.insert] ends in
    an [OverflowError] and nothing is written. *)
Theorem insert_puts_the_child_at_the_clamped_position :
  forall (p : nat) (child : pyval) (idx : option Z) (prepend : bool)
         (h : heap) (t : tagobj),
    h !! p = Some (OTag t) ->
    (insertable h child = true -> small_index idx ->
     let k := if prepend then 0
              else match idx with
                   | None => length (childs t)
                   | Some i => Z.to_nat (Z.min (Z.max i 0)
                                           (Z.of_nat (length (childs t))))
                   end in
     let h' := snd (DOMElement._insert p child idx prepend h) in
     fst (DOMElement._insert p child idx prepend h) = Ok tt /\
     child_list h' p
     = Some (take k (childs t) ++ child :: drop k (childs t)) /\
     (forall c, child = VRef c -> parent_ref h' c = Some p) /\
     (forall q, q <> p -> child_list h' q = child_list h q)) /\
    (forall i, idx = Some i -> prepend = false ->
       (2 ^ 63 <= i)%Z -> (Z.of_nat (length (childs t)) < i)%Z ->
       DOMElement._insert p child idx prepend h = (Raise OverflowError, h)).
Proof.
  intros p child idx prepend h t Ep. split.
  - intros Hins Hsm k h'.
    destruct (insert_run p child idx prepend h t Ep Hins
                (index_fits_small idx prepend _ Hsm))
      as (h1 & Erun & _ & _ & Hcs & Hq & Hpc & _).
    unfold h'. rewrite Erun. cbn [fst snd].
    split; [reflexivity|]. split; [|split; [exact Hpc | exact Hq]].
    rewrite Hcs, list_insert_at_position. reflexivity.
  - intros i -> -> Hbig Hlen. unfold DOMElement._insert.
    rewrite bind_run, (get_tag_run _ _ _ Ep). cbv zeta.
    rewrite bind_run. unfold lift_outcome at 1.
    unfold DOMElement.insert_index, index_fits, as_ssize.
    assert ((i <? 0)%Z = false) as -> by (apply Z.ltb_ge; lia).
    assert ((i <=? Z.of_nat (length (childs t)))%Z = false) as ->
      by (apply Z.leb_gt; lia).
    rewrite andb_false_r.
    assert (2 ^ 31 < 2 ^ 63)%Z as Hpow by reflexivity.
    assert ((i <? 2 ^ 31)%Z = false) as -> by (apply Z.ltb_ge; lia).
    assert ((i <? 2 ^ 63)%Z = false) as -> by (apply Z.ltb_ge; lia).
    rewrite !andb_false_r. reflexivity.
Qed.

(** The theorem at [ul = Ul()(Li(), Li())] and
    [ul._insert('x', idx=-1)], where the text goes to the front, and at
    [ul._insert('x', idx=2**63)]. *)
Lemma insert_puts_the_child_at_the_clamped_position_witness :
  let h := Scenario.two_children in
  let h' := snd (DOMElement._insert 0 (VStr "x") (Some (-1)%Z) false h) in
  (fst (DOMElement._insert 0 (VStr "x") (Some (-1)%Z) false h) = Ok tt /\
   child_list h' 0 = Some [VStr "x"; VRef 1; VRef 2] /\
   (forall c, VStr "x" = VRef c -> parent_ref h' c = Some 0) /\
   (forall q, q <> 0 -> child_list h' q = child_list h q)) /\
  DOMElement._insert 0 (VStr "x") (Some (2 ^ 63)%Z) false h
  = (Raise OverflowError, h).
Proof.
  split.
  - apply (insert_puts_the_child_at_the_clamped_position 0 (VStr "x")
             (Some (-1)%Z) false Scenario.two_children
             (mkTag TagC "ul" None [VRef 1; VRef 2] None [] TagAttrs.empty
                    None false [])).
    + vm_compute. reflexivity.
    + reflexivity.
    + vm_compute. split; [discriminate | reflexivity].
  - destruct (insert_puts_the_child_at_the_clamped_position 0 (VStr "x")
                (Some (2 ^ 63)%Z) false Scenario.two_children
                (mkTag TagC "ul" None [VRef 1; VRef 2] None []
                       TagAttrs.empty None false [])) as [_ Hbig].
    + vm_compute. reflexivity.
    + apply (Hbig (2 ^ 63)%Z eq_refl eq_refl).
      * vm_compute. discriminate.
      * vm_compute. reflexivity.
Defined.

(** X11. [p._insert(x)] followed by [p.pop()], for a value [x] that can be
    inserted (a plain value, or a node of the heap whose name is not the
    name of an attribute of an element), returns [x] and gives every
    element its old child list back; an element [x] has no parent
    afterwards. *)
Theorem insert_then_pop_round_trip :
  forall (p : nat) (x : pyval) (h : heap) (t : tagobj),
    h !! p = Some (OTag t) -> insertable h x = true ->
    let h1 := snd (DOMElement._insert p x None false h) in
    let r := DOMElement.pop p None h1 in
    fst (DOMElement._insert p x None false h) = Ok tt /\
    fst r = Ok x /\
    child_list (snd r) p = Some (childs t) /\
    (forall q, q <> p -> child_list (snd r) q = child_list h q) /\
    (forall c tc, x = VRef c -> h !! c = Some (OTag tc) ->
                  parent_ref (snd r) c = None).
Proof.
  intros p x h t Ep Hins h1 r.
  pose proof (insertable_live _ _ Hins) as Hl.
  destruct (insert_run p x None false h t Ep Hins
              (index_fits_small None false _ I))
    as (h1' & Erun & Hlen & _ & Hcs & Hq & _ & _).
  assert (h1 = h1') as -> by (unfold h1; rewrite Erun; reflexivity).
  split; [rewrite Erun; reflexivity|].
  rewrite list_insert_at_position in Hcs. cbv zeta in Hcs.
  rewrite firstn_all, drop_all in Hcs.
  destruct (child_list_Some _ _ _ Hcs) as (t1 & Et1 & Hc1).
  assert (live h1' x) as Hl1.
  { destruct x; try exact I. cbn [live] in *. rewrite Hlen. exact Hl. }
  assert (childs t1 !! length (childs t) = Some x) as Hx.
  { rewrite Hc1. apply list_lookup_middle. reflexivity. }
  assert ((let n := Z.of_nat (length (childs t1)) in
           let idx1 := (n - 1)%Z in
           if (idx1 <? 0)%Z then (idx1 + n)%Z else idx1)
          = Z.of_nat (length (childs t))) as Hj.
  { cbv zeta. rewrite Hc1, length_app. cbn [length].
    destruct (Z.ltb_spec (Z.of_nat (length (childs t) + 1) - 1) 0); lia. }
  assert (delete (length (childs t)) (childs t1) = childs t) as Hdel.
  { rewrite Hc1, delete_middle. apply app_nil_r. }
  destruct (pop_removes p None h1' t1 (length (childs t)) x Et1 Hj Hx Hl1)
    as (R1 & R2 & R3).
  fold r in R1, R2, R3.
  split; [exact R1|]. split; [rewrite R2, Hdel; reflexivity|].
  split; [intros q Hne; rewrite (R3 q Hne); apply Hq, Hne|].
  intros c tc -> Ec. unfold r.
  rewrite (pop_at p None h1' t1 (length (childs t)) (VRef c) Et1 Hj Hx).
  set (h0 := <[p := OTag (set_childs (delete (length (childs t)) (childs t1))
                            (set_stable false t1))]> h1').
  assert (exists tc0, h0 !! c = Some (OTag tc0)) as [tc0 Ec0].
  { apply child_list_tag. unfold h0.
    rewrite (child_list_set_childs _ _ _ _ _ Et1).
    destruct (decide (c = p)) as [->|Hne]; [discriminate|].
    rewrite (Hq c Hne). unfold child_list. rewrite Ec. discriminate. }
  pose proof (pop_tail (VRef c) h0 (lookup_lt_Some _ _ _ Ec0)) as Ht.
  cbv beta iota in Ht. rewrite Ht. cbn [snd]. rewrite Ec0.
  rewrite (parent_ref_set_parent _ _ _ _ _ Ec0), decide_True; reflexivity.
Qed.

(** What the two theorems leave out.  A child named like a property of the
    element is inserted and linked, and then [setattr] raises; a child
    named like another attribute of the element ([childs], say) replaces
    that attribute, and what the element does from then on is not
    described; an index of 64 bits or more is refused by the list before
    anything is written. *)
Example insert_of_a_child_named_like_an_attribute :
  let h := Scenario.div_and_placeholder "length" in
  fst (DOMElement._insert 0 (VRef 1) None false h) = Raise AttributeError /\
  child_list (snd (DOMElement._insert 0 (VRef 1) None false h)) 0
  = Some [VRef 1] /\
  parent_ref (snd (DOMElement._insert 0 (VRef 1) None false h)) 1 = Some 0 /\
  fst (DOMElement._insert 0 (VRef 1) None false
         (Scenario.div_and_placeholder "childs")) = Beyond /\
  fst (DOMElement.__call__ 0 [VRef 1] []
         (Scenario.div_and_placeholder "parent")) = Beyond /\
  insertable (Scenario.div_and_placeholder "childs") (VRef 1) = false /\
  insertable (Scenario.div_and_placeholder "x") (VRef 1) = true.
Proof. vm_compute. repeat split; reflexivity. Qed.

Example insert_and_pop_at_an_index_beyond_ssize :
  let h := Scenario.two_children in
  DOMElement._insert 0 (VStr "x") (Some (2 ^ 63)%Z) false h
  = (Raise OverflowError, h) /\
  fst (DOMElement.pop 0 (Some (2 ^ 63)%Z) h) = Raise OverflowError /\
  child_list (snd (DOMElement.pop 0 (Some (2 ^ 63)%Z) h)) 0
  = Some [VRef 1; VRef 2] /\
  fst (DOMElement.pop 0 (Some 2%Z) h) = Raise IndexError.
Proof. vm_compute. repeat split; reflexivity. Qed.

(** The theorem at [page = Html(); head = Head()]: [page._insert(head)]
    followed by [page.pop()]. *)
Lemma insert_then_pop_round_trip_witness :
  let h := Scenario.page_head_body in
  let h1 := snd (DOMElement._insert 0 (VRef 1) None false h) in
  let r := DOMElement.pop 0 None h1 in
  fst (DOMElement._insert 0 (VRef 1) None false h) = Ok tt /\
  fst r = Ok (VRef 1) /\
  child_list (snd r) 0 = Some [] /\
  (forall q, q <> 0 -> child_list (snd r) q = child_list h q) /\
  (forall c tc, VRef 1 = VRef c -> h !! c = Some (OTag tc) ->
                parent_ref (snd r) c = None).
Proof.
  apply (insert_then_pop_round_trip 0 (VRef 1) Scenario.page_head_body
           (mkTag TagC "html" None [] None [] TagAttrs.empty None false [])).
  - vm_compute. reflexivity.
  - vm_compute. reflexivity.
Defined.

(** *** The constructor call *)

Lemma pyval_nested_ind (P : pyval -> Prop) :
  P VNone -> (forall s, P (VStr s)) -> (forall n, P (VRef n)) ->
  (forall l, Forall P l -> P (VList l)) ->
  (forall l, Forall P l -> P (VTuple l)) ->
  (forall l, P (VGen l)) -> (forall d, P (VDict d)) ->
  (forall r, P (VFun r)) ->
  forall v, P v.
Proof.
  intros HN HS HR HL HT HG HD HF. fix IH 1. intros [ |s|n|l|l|l|d|r].
  - apply HN.
  - apply HS.
  - apply HR.
  - apply HL. induction l as [|x l IHl]; constructor;
      [apply IH | exact IHl].
  - apply HT. induction l as [|x l IHl]; constructor;
      [apply IH | exact IHl].
  - apply HG.
  - apply HD.
  - apply HF.
Qed.

(** The elements of an unnamed sequence without generators are yielded
    depth first, in order. *)
Lemma yield_elements_flatten (l : list pyval) :
  Forall (fun v => gen_free v = true ->
            forall i, snd (DOMElement.yield_item i None v) = Ok tt /\
                      map snd (fst (DOMElement.yield_item i None v))
                      = flatten v) l ->
  forallb gen_free l = true ->
  forall j,
    snd ((fix items (j : nat) (l : list pyval) {struct l}
            : DOMElement.yields :=
            match l with
            | [] => ([], Ok tt)
            | x :: r =>
                DOMElement.then_yields (DOMElement.yield_item j None x)
                  (items (S j) r)
            end) j l) = Ok tt /\
    map snd (fst ((fix items (j : nat) (l : list pyval) {struct l}
                     : DOMElement.yields :=
                     match l with
                     | [] => ([], Ok tt)
                     | x :: r =>
                         DOMElement.then_yields
                           (DOMElement.yield_item j None x) (items (S j) r)
                     end) j l))
    = concat (map flatten l).
Proof.
  induction 1 as [|x r Hx Hr IH]; intros Hg j; [split; reflexivity|].
  cbn [forallb] in Hg. apply andb_prop in Hg as [Hgx Hgr].
  destruct (Hx Hgx j) as [Ex1 Ex2]. destruct (IH Hgr (S j)) as [Er1 Er2].
  cbn [map concat]. unfold DOMElement.then_yields at 1 3.
  rewrite Ex1. cbn [fst snd]. split; [exact Er1|].
  rewrite map_app, Ex2, Er2. reflexivity.
Qed.

Lemma yield_item_flatten (v : pyval) :
  gen_free v = true ->
  forall i, snd (DOMElement.yield_item i None v) = Ok tt /\
            map snd (fst (DOMElement.yield_item i None v)) = flatten v.
Proof.
  induction v as [ |s|n|l IH|l IH|l|d|r] using pyval_nested_ind;
    intros Hg i; try (split; reflexivity); try discriminate.
  - cbn [gen_free] in Hg. apply (yield_elements_flatten l IH Hg 0).
  - cbn [gen_free] in Hg. apply (yield_elements_flatten l IH Hg 0).
Qed.

Lemma yield_chain_flatten (args : list pyval) :
  forallb gen_free args = true ->
  forall i,
    snd (DOMElement.yield_chain i
           (map (fun item => (@None string, item)) args)) = Ok tt /\
    map snd (fst (DOMElement.yield_chain i
                    (map (fun item => (@None string, item)) args)))
    = concat (map flatten args).
Proof.
  induction args as [|x r IH]; intros Hg i; [split; reflexivity|].
  cbn [forallb] in Hg. apply andb_prop in Hg as [Hgx Hgr].
  destruct (yield_item_flatten x Hgx i) as [Ex1 Ex2].
  destruct (IH Hgr (S i)) as [Er1 Er2].
  cbn [map concat DOMElement.yield_chain]. unfold DOMElement.then_yields.
  rewrite Ex1. cbn [fst snd]. split; [exact Er1|].
  rewrite map_app, Ex2, Er2. reflexivity.
Qed.

(** The loop of [__call__]: every yielded value goes to the end of the
    child list and gets the element as parent. *)
Lemma call_loop (P : nat) (ys : list (nat * pyval)) :
  forall (h : heap) (t : tagobj),
    h !! P = Some (OTag t) -> forallb (insertable h) (map snd ys) = true ->
    exists h',
      for_each ys
        (fun it => upd_tag P (set_stable false) ;;;
                   DOMElement.call3
                     (DOMElement.Def3
                        (fun self _ child =>
                           DOMElement._insert self child None false))
                     P (fst it) (snd it)) h
      = (Ok tt, h') /\
      length h' = length h /\
      child_list h' P = Some (childs t ++ map snd ys) /\
      (forall q, q <> P -> child_list h' q = child_list h q) /\
      (forall c, VRef c ∈ map snd ys -> parent_ref h' c = Some P) /\
      (forall n, n ∉ refs (map snd ys) -> parent_ref h' n = parent_ref h n).
Proof.
  induction ys as [|[i x] ys IH]; intros h t Et Hl.
  - exists h. cbn [for_each map]. rewrite app_nil_r.
    split; [reflexivity|]. split; [reflexivity|].
    split; [unfold child_list; rewrite Et; reflexivity|].
    split; [reflexivity|]. split; [|reflexivity].
    intros c Hc. apply elem_of_nil in Hc. destruct Hc.
  - cbn [map snd fst forallb] in Hl |- *. apply andb_prop in Hl as [Hx Hys].
    cbn [for_each DOMElement.call3 fst snd].
    rewrite !bind_run, (upd_tag_run _ _ _ _ Et).
    set (ha := <[P := OTag (set_stable false t)]> h).
    assert (ha !! P = Some (OTag (set_stable false t))) as Eta
      by apply (lookup_insert_same _ _ _ _ Et).
    assert (length ha = length h) as Hla by apply length_insert.
    assert (obj_name <$> ha = obj_name <$> h) as Hna.
    { pose proof (keeps_names_upd_tag P (set_stable false)
                    (fun t0 => eq_refl) h) as E.
      rewrite (upd_tag_run _ _ _ _ Et) in E. exact E. }
    assert (insertable ha x = true) as Hxa
      by (rewrite (insertable_names _ _ x Hna); exact Hx).
    destruct (insert_run P x None false ha _ Eta Hxa
                (index_fits_small None false _ I))
      as (hb & Erun & Hlb & Hnb & Hcs & Hq & Hpc & Hpn).
    rewrite Erun. cbn [childs set_stable] in Hcs.
    rewrite list_insert_at_position in Hcs. cbv zeta in Hcs.
    rewrite firstn_all, drop_all in Hcs.
    destruct (child_list_Some _ _ _ Hcs) as (tb & Etb & Hcb).
    destruct (IH hb tb Etb) as (h' & Eloop & Hl' & Hcs' & Hq' & Hpc' & Hpn').
    { rewrite (forallb_insertable_names h hb); [exact Hys|].
      rewrite Hnb. exact Hna. }
    exists h'. split; [exact Eloop|].
    split; [congruence|].
    split; [rewrite Hcs', Hcb, <- app_assoc; reflexivity|].
    split.
    { intros q Hne. rewrite (Hq' q Hne), (Hq q Hne). unfold ha.
      rewrite (child_list_set_childs _ _ _ _ _ Et), decide_False;
        [reflexivity | exact Hne]. }
    assert (forall n, parent_ref ha n = parent_ref h n) as Hpa.
    { intros n. unfold ha.
      apply (parent_ref_set_childs _ _ _ _ _ Et). reflexivity. }
    split.
    + intros c Hc.
      destruct (decide (c ∈ refs (map snd ys))) as [Hin|Hout].
      * apply Hpc', elem_of_refs, Hin.
      * rewrite (Hpn' c Hout). apply Hpc.
        apply elem_of_cons in Hc as [Hc|Hc]; [congruence|].
        apply elem_of_refs in Hc. contradiction.
    + intros n Hn.
      assert (x <> VRef n) as Hn1.
      { intros ->. apply Hn, elem_of_refs, elem_of_cons. auto. }
      assert (n ∉ refs (map snd ys)) as Hn2.
      { intros Hin. apply Hn, elem_of_refs, elem_of_cons. right.
        apply elem_of_refs, Hin. }
      rewrite (Hpn' n Hn2), (Hpn n Hn1). apply Hpa.
Qed.

(** X12. The call [P(a1, ..., an)] with arguments that contain no generator
    and whose values can be inserted (plain values, and nodes of the heap
    whose names are not names of attributes of an element) returns [P] and
    appends to the child list of [P] the arguments with their lists and
    tuples flattened depth first, in order; every tree node among them
    gets [P] as parent, and no other child list changes. *)
Theorem call_appends_the_flattened_arguments :
  forall (P : nat) (args : list pyval) (h : heap) (t : tagobj),
    h !! P = Some (OTag t) -> forallb gen_free args = true ->
    forallb (insertable h) (concat (map flatten args)) = true ->
    let r := DOMElement.__call__ P args [] h in
    fst r = Ok (VRef P) /\
    child_list (snd r) P = Some (childs t ++ concat (map flatten args)) /\
    (forall q, q <> P -> child_list (snd r) q = child_list h q) /\
    (forall c, VRef c ∈ concat (map flatten args) ->
               parent_ref (snd r) c = Some P).
Proof.
  intros P args h t Et Hg Hl r. unfold r, DOMElement.__call__,
    DOMElement.content_receiver. rewrite no_keyword_nil.
  rewrite yield_items_forward.
  destruct (yield_chain_flatten args Hg 0) as [E1 E2].
  destruct (DOMElement.yield_chain 0 _) as [ys fin].
  cbn [fst snd] in E1, E2 |- *. subst fin. rewrite <- E2 in Hl |- *.
  destruct (call_loop P ys h t Et Hl) as (h' & Eloop & _ & Hcs & Hq & Hpc & _).
  rewrite bind_run, Eloop. cbn [fst snd].
  split; [reflexivity|]. split; [exact Hcs|]. split; [exact Hq | exact Hpc].
Qed.

(** The theorem at [page = Html(); head = Head(); body = Body()] and the
    call [page([head, ('x', body)])]. *)
Lemma call_appends_the_flattened_arguments_witness :
  let h := Scenario.page_head_body in
  let r := DOMElement.__call__ 0
             [VList [VRef 1; VTuple [VStr "x"; VRef 2]]] [] h in
  fst r = Ok (VRef 0) /\
  child_list (snd r) 0 = Some [VRef 1; VStr "x"; VRef 2] /\
  (forall q, q <> 0 -> child_list (snd r) q = child_list h q) /\
  (forall c, VRef c ∈ [VRef 1; VStr "x"; VRef 2] ->
             parent_ref (snd r) c = Some 0).
Proof.
  apply (call_appends_the_flattened_arguments 0
           [VList [VRef 1; VTuple [VStr "x"; VRef 2]]]
           Scenario.page_head_body
           (mkTag TagC "html" None [] None [] TagAttrs.empty None false [])).
  - vm_compute. reflexivity.
  - reflexivity.
  - vm_compute. reflexivity.
Defined.



(** *** Keyword children *)

Lemma yield_chain_named_single (kw : dict) (j : nat) :
  forallb single_child (map snd kw) = true ->
  DOMElement.yield_chain j (map (fun kv => (Some (fst kv), snd kv)) kw)
  = (numbered j (map snd kw), Ok tt).
Proof.
  revert j. induction kw as [|[k v] r IH]; intros j Hl; [reflexivity|].
  cbn [map snd forallb] in Hl. apply andb_prop in Hl as [Hx Hr].
  cbn [map fst snd DOMElement.yield_chain numbered].
  rewrite (yield_item_single j (Some k) v Hx), (IH (S j) Hr). reflexivity.
Qed.


Lemma yield_item_named (i : nat) (k : string) (v : pyval) :
  negb (String.eqb k "") = true ->
  DOMElement.yield_item i (Some k) v = ([(i, v)], Ok tt).
Proof.
  intros Hk. destruct v; try reflexivity; cbn [DOMElement.yield_item];
    unfold name_truthy; rewrite Hk; reflexivity.
Qed.

Lemma yield_chain_named (kw : dict) (j : nat) :
  forallb (fun kv => negb (String.eqb (fst kv) "")) kw = true ->
  DOMElement.yield_chain j (map (fun kv => (Some (fst kv), snd kv)) kw)
  = (numbered j (map snd kw), Ok tt).
Proof.
  revert j. induction kw as [|[k v] r IH]; intros j Hl; [reflexivity|].
  cbn [forallb fst] in Hl. apply andb_prop in Hl as [Hx Hr].
  cbn [map fst snd DOMElement.yield_chain numbered].
  rewrite (yield_item_named j k v Hx), (IH (S j) Hr). reflexivity.
Qed.

Lemma map_snd_numbered (j : nat) (l : list pyval) :
  map snd (numbered j l) = l.
Proof.
  revert j. induction l as [|x r IH]; intros j; [reflexivity|].
  cbn [numbered map snd]. rewrite IH. reflexivity.
Qed.

(** X14. Keyword arguments of a call, none of them named [inst], are
    children like the others: with single children
    [P(k1=v1, ..., kn=vn)] is the call [P(v1, ..., vn)], and with non-empty
    keywords and values that can be inserted (plain values, and nodes of
    the heap whose names are not names of attributes of an element) every
    value, also a list, a tuple or a generator, is appended whole as one
    child. *)
Theorem call_inserts_keyword_children_without_their_names :
  forall (P : nat) (kw : dict) (h : heap) (t : tagobj),
    h !! P = Some (OTag t) -> dict_has "inst" kw = false ->
    (forallb single_child (map snd kw) = true ->
     DOMElement.__call__ P [] kw h
     = DOMElement.__call__ P (map snd kw) [] h) /\
    (forallb (fun kv => negb (String.eqb (fst kv) "")) kw = true ->
     forallb (insertable h) (map snd kw) = true ->
     fst (DOMElement.__call__ P [] kw h) = Ok (VRef P) /\
     child_list (snd (DOMElement.__call__ P [] kw h)) P
     = Some (childs t ++ map snd kw)).
Proof.
  intros P kw h t Et Hinst. split.
  - intros Hs. unfold DOMElement.__call__, DOMElement.content_receiver.
    rewrite no_keyword_nil, (no_keyword_run _ _ _ Hinst).
    rewrite yield_items_forward, (yield_chain_single _ 0 Hs).
    unfold DOMElement._yield_items, slice_step.
    cbn [Z.eqb Pos.eqb map concat app].
    rewrite app_nil_r, (yield_chain_named_single kw 0 Hs). reflexivity.
  - intros Hk Hl. unfold DOMElement.__call__,
      DOMElement.content_receiver, DOMElement._yield_items, slice_step.
    rewrite (no_keyword_run _ _ _ Hinst).
    cbn [Z.eqb Pos.eqb map concat app].
    rewrite app_nil_r, (yield_chain_named kw 0 Hk). cbn [fst snd].
    rewrite <- (map_snd_numbered 0 (map snd kw)) in Hl.
    destruct (call_loop P _ h t Et Hl) as (h' & Eloop & _ & Hcs & _).
    rewrite bind_run, Eloop. cbn [fst snd].
    rewrite map_snd_numbered in Hcs. split; [reflexivity | exact Hcs].
Qed.

(** The theorem at [page(parts=[head, body])], where the list is one
    child, and at [page(a=head, b=body)]. *)
Lemma call_inserts_keyword_children_without_their_names_witness :
  let h := Scenario.page_head_body in
  let r := DOMElement.__call__ 0 [] [("parts", VList [VRef 1; VRef 2])] h in
  (fst r = Ok (VRef 0) /\
   child_list (snd r) 0 = Some [VList [VRef 1; VRef 2]]) /\
  DOMElement.__call__ 0 [] [("a", VRef 1); ("b", VRef 2)] h
  = DOMElement.__call__ 0 [VRef 1; VRef 2] [] h.
Proof.
  split.
  - apply (proj2 (call_inserts_keyword_children_without_their_names 0
                    [("parts", VList [VRef 1; VRef 2])]
                    Scenario.page_head_body
                    (mkTag TagC "html" None [] None [] TagAttrs.empty None
                           false [])
                    ltac:(vm_compute; reflexivity)
                    ltac:(reflexivity)));
      reflexivity.
  - apply (proj1 (call_inserts_keyword_children_without_their_names 0
                    [("a", VRef 1); ("b", VRef 2)]
                    Scenario.page_head_body
                    (mkTag TagC "html" None [] None [] TagAttrs.empty None
                           false [])
                    ltac:(vm_compute; reflexivity)
                    ltac:(reflexivity))).
    reflexivity.
Defined.

(** *** Operations that never do their work *)

(** X15. [remove()] never changes the heap, for any node and any heap; it
    returns normally only for a node whose index in its parent is not a
    positive number. *)
Theorem remove_never_changes_the_heap :
  forall (self : nat) (h : heap),
    snd (DOMElement.remove self h) = h /\
    (fst (DOMElement.remove self h) = Ok (VRef self) ->
     forall k, fst (DOMElement._own_index self h) <> Ok (Some (S k))).
Proof.
  intros self h.
  pose proof (own_index_pure self h) as Hpure.
  destruct (DOMElement._own_index self h) as [o h'] eqn:Eown.
  cbn [snd] in Hpure. subst h'.
  destruct o as [[[|k]|]|e|].
  - rewrite (remove_first_child_noop self h) by (rewrite Eown; reflexivity).
    split; [reflexivity|]. intros _ k'. discriminate.
  - rewrite (remove_later_child_raises self k h)
      by (rewrite Eown; reflexivity).
    split; [reflexivity | discriminate].
  - unfold DOMElement.remove. rewrite !bind_run, Eown. cbv beta iota.
    split; [reflexivity|]. intros _ k'. discriminate.
  - unfold DOMElement.remove. rewrite !bind_run, Eown. cbv beta iota.
    split; [reflexivity | discriminate].
  - unfold DOMElement.remove. rewrite !bind_run, Eown. cbv beta iota.
    split; [reflexivity | discriminate].
Qed.

(** [before] ends in the [ValueError] of the zero slice step before
    anything is read or written. *)
Lemma before_raises_at_once (node : nat) (args : list pyval) (h : heap) :
  DOMElement.before node args [] h = (Raise ValueError, h).
Proof.
  unfold DOMElement.before, DOMElement.content_receiver.
  rewrite no_keyword_nil.
  rewrite yield_items_reverse. cbn [fst snd for_each].
  rewrite bind_ret_run, bind_run. reflexivity.
Qed.

(** X16. [move(new_father, idx, prepend)] never returns normally and never
    changes the heap. *)
Theorem move_never_moves :
  forall (self new_father : nat) (idx : option Z) (prepend : option bool)
         (h : heap),
    snd (DOMElement.move self new_father idx prepend h) = h /\
    forall v, fst (DOMElement.move self new_father idx prepend h) <> Ok v.
Proof.
  intros self new_father idx prepend h. unfold DOMElement.move.
  rewrite bind_run.
  pose proof (reads_only_get_tag self h) as Ht.
  destruct (get_tag self h) as [[t|e|] h1]; cbn [snd] in Ht; subst h1;
    [|split; [reflexivity | discriminate] ..].
  destruct (parent t) as [p|]; [|split; [reflexivity | discriminate]].
  rewrite bind_run.
  pose proof (own_index_pure self h) as Hpure.
  destruct (DOMElement._own_index self h) as [[own|e|] h1];
    cbn [snd] in Hpure; subst h1; split; try reflexivity; discriminate.
Qed.

(** X17. [wrap(other)] never returns normally, and no child list and no
    parent reference is different afterwards. *)
Theorem wrap_never_wraps :
  forall (self other : nat) (h : heap),
    (forall v, fst (DOMElement.wrap self other h) <> Ok v) /\
    (forall n, child_list (snd (DOMElement.wrap self other h)) n
               = child_list h n) /\
    (forall n, parent_ref (snd (DOMElement.wrap self other h)) n
               = parent_ref h n).
Proof.
  intros self other h.
  assert (skeleton <$> snd (DOMElement.wrap self other h) = skeleton <$> h
          /\ forall v, fst (DOMElement.wrap self other h) <> Ok v)
    as [Hsk Hno].
  { unfold DOMElement.wrap. rewrite bind_run.
    pose proof (reads_only_get_tag other h) as Ho.
    destruct (get_tag other h) as [[ot|e|] h1]; cbn [snd] in Ho; subst h1;
      [|split; [reflexivity | discriminate] ..].
    destruct (childs ot); [|split; [reflexivity | discriminate]].
    rewrite bind_run.
    pose proof (reads_only_get_tag self h) as Hs.
    destruct (get_tag self h) as [[t|e|] h1]; cbn [snd] in Hs; subst h1;
      [|split; [reflexivity | discriminate] ..].
    rewrite bind_run.
    match goal with
    | |- context [let (o, s') := ?m h in _] =>
        assert (reads_only m) as Hb
          by (destruct (parent t); auto with reads);
        specialize (Hb h); destruct (m h) as [[[|]|e|] h1]
    end; cbn [snd] in Hb; subst h1;
      [| |split; [reflexivity | discriminate] ..].
    - rewrite !bind_run.
      rewrite (before_raises_at_once self [VRef other] h).
      split; [reflexivity | discriminate].
    - rewrite bind_ret_run.
      destruct (append_raises other (VRef self) [] [] h eq_refl) as [E1 _].
      pose proof (upd_tag_skeleton other (set_stable false) h) as [_ E2].
      { intros t0; split; reflexivity. }
      revert E1. unfold DOMElement.append, DOMElement.content_receiver,
        DOMElement._yield_items, slice_step.
      rewrite no_keyword_nil.
      cbn [Z.eqb map Pos.eqb concat app DOMElement.yield_chain
           DOMElement.yield_item DOMElement.then_yields fst snd for_each
           DOMElement.call3].
      rewrite !bind_run.
      destruct (upd_tag other (set_stable false) h) as [[[]|e|] h1];
        cbn [fst snd] in *; intros E1; (split; [exact E2|]);
        intros v; rewrite E1; discriminate. }
  split; [exact Hno|]. split; intros n.
  - apply child_list_skeleton, Hsk.
  - apply parent_ref_skeleton, Hsk.
Qed.

(** [append] with one child: the element is marked as changed, then the
    call of the two-parameter function with three arguments fails. *)
Lemma append_single_run (P : nat) (x : pyval) (h : heap) :
  single_child x = true ->
  DOMElement.append P [x] [] h
  = (Raise TypeError, snd (upd_tag P (set_stable false) h)).
Proof.
  intros Hx. unfold DOMElement.append, DOMElement.content_receiver.
  rewrite no_keyword_nil.
  rewrite yield_items_forward. cbn [map DOMElement.yield_chain].
  rewrite (yield_item_single 0 None x Hx).
  cbn [DOMElement.then_yields fst snd app for_each DOMElement.call3].
  rewrite !bind_run. unfold upd_tag, upd_obj, modify. reflexivity.
Qed.

(** [prepend_to] and [append_to] share the defects of [prepend] and
    [append]: neither attaches the node. *)
Lemma prepend_to_and_append_to_never_attach :
  forall (self father : nat) (h : heap),
    DOMElement.prepend_to self father h = (Raise ValueError, h) /\
    fst (DOMElement.append_to self father h) = Raise TypeError /\
    (forall n, child_list (snd (DOMElement.append_to self father h)) n
               = child_list h n) /\
    (forall n, parent_ref (snd (DOMElement.append_to self father h)) n
               = parent_ref h n).
Proof.
  intros self father h. split.
  - unfold DOMElement.prepend_to.
    rewrite bind_run, prepend_always_raises. reflexivity.
  - unfold DOMElement.append_to.
    rewrite bind_run, (append_single_run father (VRef self) h eq_refl).
    cbn [fst snd]. split; [reflexivity|].
    pose proof (set_stable_skeleton father false h) as Hsk.
    split; intros n.
    + apply child_list_skeleton, Hsk.
    + apply parent_ref_skeleton, Hsk.
Qed.

(** *** The index of a node and [after] *)

Lemma index_of_after_elements (self : nat) (pre rest : list pyval) (i : nat) :
  Forall (fun v => exists c, v = VRef c /\ c <> self) pre ->
  DOMElement.index_of self (pre ++ VRef self :: rest) i
  = Ok (i + length pre).
Proof.
  intros Hpre. revert i. induction Hpre as [|v pre (c & -> & Hc) _ IH];
    intros i; cbn [app DOMElement.index_of length].
  - rewrite Nat.eqb_refl. f_equal. lia.
  - apply Nat.eqb_neq in Hc. rewrite Hc, IH. f_equal. lia.
Qed.

Lemma index_of_after_plain (self : nat) (pre rest : list pyval) (x : pyval)
    (i : nat) :
  Forall (fun v => exists c, v = VRef c /\ c <> self) pre ->
  (forall n, x <> VRef n) ->
  DOMElement.index_of self (pre ++ x :: rest) i = Raise AttributeError.
Proof.
  intros Hpre Hx. revert i. induction Hpre as [|v pre (c & -> & Hc) _ IH];
    intros i; cbn [app DOMElement.index_of].
  - destruct x; try reflexivity. destruct (Hx n eq_refl).
  - apply Nat.eqb_neq in Hc. rewrite Hc. apply IH.
Qed.

(** X18. For a node whose earlier siblings are all tree nodes,
    [node.after(a1, ..., an)] with single children that can be inserted
    (plain values, and nodes of the heap whose names are not names of
    attributes of an element) returns the node and puts the arguments
    right behind it in its parent's child list, in argument order. *)
Theorem after_puts_the_arguments_behind_the_node :
  forall (self p : nat) (ts : tagobj) (pre rest args : list pyval)
         (h : heap),
    h !! self = Some (OTag ts) -> parent ts = Some p ->
    child_list h p = Some (pre ++ VRef self :: rest) ->
    Forall (fun v => exists c, v = VRef c /\ c <> self) pre ->
    forallb single_child args = true ->
    forallb (insertable h) args = true ->
    exists h',
      DOMElement.after self args [] h = (Ok (VRef self), h') /\
      child_list h' p = Some (pre ++ VRef self :: args ++ rest).
Proof.
  intros self p ts pre rest args h Es Hp HL Hpre Hs Hl.
  destruct (after_inserts_in_order self p (length pre) args
              (pre ++ VRef self :: rest) h) as (h' & Erun & Hcs).
  - unfold parent_ref. rewrite Es. exact Hp.
  - unfold child_list. rewrite Es. discriminate.
  - exact HL.
  - apply (index_of_after_elements self pre rest 0 Hpre).
  - exact Hs.
  - exact Hl.
  - exists h'. split; [exact Erun|]. rewrite Hcs.
    replace (S (length pre)) with (length (pre ++ [VRef self]))
      by (rewrite length_app; cbn [length]; lia).
    replace (pre ++ VRef self :: rest) with ((pre ++ [VRef self]) ++ rest)
      by (rewrite <- app_assoc; reflexivity).
    rewrite take_app_length, drop_app_length, <- app_assoc. reflexivity.
Qed.

(** The theorem at [ul = Ul()(Li(), Li())] and [first.after(a, b)]. *)
Lemma after_puts_the_arguments_behind_the_node_witness :
  exists h',
    DOMElement.after 1 [VRef 3; VRef 4] [] Scenario.two_children_two_fresh
    = (Ok (VRef 1), h') /\
    child_list h' 0 = Some [VRef 1; VRef 3; VRef 4; VRef 2].
Proof.
  apply (after_puts_the_arguments_behind_the_node 1 0
           (mkTag TagC "li" None [] (Some 0) [] TagAttrs.empty None false [])
           [] [VRef 2] [VRef 3; VRef 4] Scenario.two_children_two_fresh).
  - vm_compute. reflexivity.
  - reflexivity.
  - vm_compute. reflexivity.
  - constructor.
  - reflexivity.
  - vm_compute. reflexivity.
Defined.

(** X19. For a node that has a plain value (a string, say) among its earlier
    siblings, reading [index] ends in an [AttributeError], and so do [remove()]
    and [after(...)], which inserts nothing. *)
Theorem text_before_a_node_breaks_its_index :
  forall (self p : nat) (ts : tagobj) (pre rest : list pyval) (x : pyval)
         (h : heap),
    h !! self = Some (OTag ts) -> parent ts = Some p ->
    child_list h p = Some (pre ++ x :: rest) ->
    Forall (fun v => exists c, v = VRef c /\ c <> self) pre ->
    (forall n, x <> VRef n) ->
    Tag.index self h = (Raise AttributeError, h) /\
    DOMElement.remove self h = (Raise AttributeError, h) /\
    forall a args,
      single_child a = true ->
      fst (DOMElement.after self (a :: args) [] h) = Raise AttributeError /\
      child_list (snd (DOMElement.after self (a :: args) [] h)) p
      = Some (pre ++ x :: rest).
Proof.
  intros self p ts pre rest x h Es Hp HL Hpre Hx.
  destruct (child_list_Some _ _ _ HL) as (tp & Ep & Hcp).
  assert (DOMElement._own_index self h = (Raise AttributeError, h)) as Eown.
  { unfold DOMElement._own_index.
    rewrite bind_run, (get_tag_run _ _ _ Es), Hp, bind_run.
    unfold truthy. cbn [truthy_plain]. rewrite bind_run.
    unfold get_obj at 1. rewrite Ep. unfold ret at 1.
    rewrite Hcp, length_app. cbn [length].
    replace (length pre + S (length rest)) with (S (length pre + length rest))
      by lia.
    cbn [Nat.eqb negb].
    rewrite bind_run, (get_tag_run _ _ _ Ep), Hcp, bind_run.
    unfold lift_outcome at 1.
    rewrite (index_of_after_plain self pre rest x 0 Hpre Hx). reflexivity. }
  split; [exact Eown|]. split.
  - unfold DOMElement.remove. rewrite !bind_run, Eown. reflexivity.
  - intros a args Ha.
    unfold DOMElement.after, DOMElement.content_receiver.
    rewrite no_keyword_nil.
    rewrite yield_items_forward. cbn [map DOMElement.yield_chain].
    rewrite (yield_item_single 0 None a Ha).
    destruct (DOMElement.yield_chain 1 _) as [ys fin].
    cbn [DOMElement.then_yields fst snd app for_each DOMElement.call3].
    rewrite !bind_run, (upd_tag_run _ _ _ _ Es).
    set (h1 := <[self := OTag (set_stable false ts)]> h).
    assert (h1 !! self = Some (OTag (set_stable false ts))) as Es1
      by apply (lookup_insert_same _ _ _ _ Es).
    assert (skeleton <$> h1 = skeleton <$> h) as Hsk.
    { pose proof (set_stable_skeleton self false h) as E.
      rewrite (upd_tag_run _ _ _ _ Es) in E. exact E. }
    assert (DOMElement._own_index self h1 = (Raise AttributeError, h1))
      as Eown1.
    { destruct (child_list_Some h1 p (pre ++ x :: rest)) as (tp1 & Ep1 & Hcp1).
      { rewrite (child_list_skeleton _ _ p Hsk). exact HL. }
      unfold DOMElement._own_index.
      rewrite bind_run, (get_tag_run _ _ _ Es1). cbn [parent set_stable].
      rewrite Hp, bind_run.
      unfold truthy. cbn [truthy_plain]. rewrite bind_run.
      unfold get_obj at 1. rewrite Ep1. unfold ret at 1.
      rewrite Hcp1, length_app. cbn [length].
      replace (length pre + S (length rest))
        with (S (length pre + length rest)) by lia.
      cbn [Nat.eqb negb].
      rewrite bind_run, (get_tag_run _ _ _ Ep1), Hcp1, bind_run.
      unfold lift_outcome at 1.
      rewrite (index_of_after_plain self pre rest x 0 Hpre Hx).
      reflexivity. }
    unfold DOMElement.insert_sibling.
    rewrite bind_run, (get_tag_run _ _ _ Es1). cbn [parent set_stable].
    rewrite Hp, bind_run, Eown1. cbn [fst snd].
    split; [reflexivity|].
    rewrite (child_list_skeleton _ _ p Hsk). exact HL.
Qed.

(** The theorem at [div = Div()('text', P())] and the paragraph. *)
Lemma text_before_a_node_breaks_its_index_witness :
  let h := Scenario.text_then_element in
  Tag.index 1 h = (Raise AttributeError, h) /\
  DOMElement.remove 1 h = (Raise AttributeError, h) /\
  forall a args,
    single_child a = true ->
    fst (DOMElement.after 1 (a :: args) [] h) = Raise AttributeError /\
    child_list (snd (DOMElement.after 1 (a :: args) [] h)) 0
    = Some [VStr "text"; VRef 1].
Proof.
  apply (text_before_a_node_breaks_its_index 1 0
           (mkTag TagC "p" None [] (Some 0) [] TagAttrs.empty None false [])
           [] [VRef 1] (VStr "text") Scenario.text_then_element).
  - vm_compute. reflexivity.
  - reflexivity.
  - vm_compute. reflexivity.
  - constructor.
  - intros n. discriminate.
Defined.

(** *** replace_with *)

(** X20. [replace_with] given an element returns that element and changes
    nothing.  Given a list, for a node that is in the child list of its
    parent and whose earlier siblings are all tree nodes, it puts the
    items of the list in the place of the node in the parent's child list
    and returns the node; no parent reference changes, so the node keeps
    its parent and the items get none. *)
Theorem replace_with_does_not_relink :
  forall (self : nat) (h : heap),
    (forall n tn, h !! n = Some (OTag tn) ->
       DOMElement.replace_with self (VRef n) h = (Ok (VRef n), h)) /\
    (forall (p : nat) (ts : tagobj) (pre rest l : list pyval),
       h !! self = Some (OTag ts) -> parent ts = Some p ->
       child_list h p = Some (pre ++ VRef self :: rest) ->
       Forall (fun v => exists c, v = VRef c /\ c <> self) pre ->
       let r := DOMElement.replace_with self (VList l) h in
       fst r = Ok (VRef self) /\
       child_list (snd r) p = Some (pre ++ l ++ rest) /\
       (forall q, q <> p -> child_list (snd r) q = child_list h q) /\
       (forall n, parent_ref (snd r) n = parent_ref h n)).
Proof.
  intros self h. split.
  - intros n tn En. unfold DOMElement.replace_with.
    rewrite bind_run. unfold get_obj at 1. rewrite En. reflexivity.
  - intros p ts pre rest l Es Hp HL Hpre.
    destruct (child_list_Some _ _ _ HL) as (tp & Ep & Hcp).
    assert (DOMElement._own_index self h = (Ok (Some (length pre)), h))
      as Eown.
    { apply (own_index_run self p (length pre) h (pre ++ VRef self :: rest)).
      - unfold parent_ref. rewrite Es. exact Hp.
      - unfold child_list. rewrite Es. discriminate.
      - exact HL.
      - apply (index_of_after_elements self pre rest 0 Hpre). }
    assert (DOMElement.replace_with self (VList l) h
            = (Ok (VRef self),
               <[p := OTag (set_childs
                              (take (length pre) (childs tp) ++ l
                               ++ drop (S (length pre)) (childs tp)) tp)]> h))
      as Erun.
    { unfold DOMElement.replace_with.
      rewrite bind_run, (get_tag_run _ _ _ Es), Hp.
      rewrite bind_run, (get_tag_run _ _ _ Ep), bind_run, Eown.
      cbv beta iota. rewrite bind_run, (upd_tag_run _ _ _ _ Ep).
      reflexivity. }
    cbv zeta. rewrite Erun. cbn [fst snd].
    split; [reflexivity|]. split.
    { rewrite (child_list_set_childs _ _ _ _ _ Ep), decide_True by reflexivity.
      cbn [childs set_childs]. rewrite Hcp.
      replace (S (length pre)) with (length (pre ++ [VRef self]))
        by (rewrite length_app; cbn [length]; lia).
      replace (pre ++ VRef self :: rest) with ((pre ++ [VRef self]) ++ rest)
        by (rewrite <- app_assoc; reflexivity).
      rewrite drop_app_length, <- app_assoc, take_app_length.
      reflexivity. }
    split.
    { intros q Hq.
      rewrite (child_list_set_childs _ _ _ _ _ Ep), decide_False;
        [reflexivity | exact Hq]. }
    intros n. apply (parent_ref_set_childs _ _ _ _ _ Ep). reflexivity.
Qed.

(** The theorem at [ul = Ul()(Li(), Li())], the first item and the list
    [['x', 'y']]. *)
Lemma replace_with_does_not_relink_witness :
  let h := Scenario.two_children in
  (forall n tn, h !! n = Some (OTag tn) ->
     DOMElement.replace_with 1 (VRef n) h = (Ok (VRef n), h)) /\
  let r := DOMElement.replace_with 1 (VList [VStr "x"; VStr "y"]) h in
  fst r = Ok (VRef 1) /\
  child_list (snd r) 0 = Some [VStr "x"; VStr "y"; VRef 2] /\
  (forall q, q <> 0 -> child_list (snd r) q = child_list h q) /\
  (forall n, parent_ref (snd r) n = parent_ref h n).
Proof.
  destruct (replace_with_does_not_relink 1 Scenario.two_children)
    as [Helem Hlist].
  split; [exact Helem|].
  apply (Hlist 0
           (mkTag TagC "li" None [] (Some 0) [] TagAttrs.empty None false [])
           [] [VRef 2] [VStr "x"; VStr "y"]).
  - vm_compute. reflexivity.
  - reflexivity.
  - vm_compute. reflexivity.
  - constructor.
Defined.

(** *** Content data and placeholders *)

Lemma dict_get_set (k k' : string) (v : pyval) (d : dict) :
  dict_get k (dict_set k' v d)
  = if String.eqb k k' then Some v else dict_get k d.
Proof.
  induction d as [|[k0 v0] r IH]; cbn [dict_set dict_get].
  - destruct (String.eqb k k'); reflexivity.
  - destruct (String.eqb k' k0) eqn:E0; cbn [dict_get].
    + apply String.eqb_eq in E0. subst k0.
      destruct (String.eqb k k'); reflexivity.
    + rewrite IH. destruct (String.eqb k k') eqn:E1; [|reflexivity].
      apply String.eqb_eq in E1. subst k'. rewrite E0. reflexivity.
Qed.

(** [dict.update]: the keys of the argument get its values, the other
    keys keep theirs. *)
Lemma dict_get_update (k : string) (d other : dict) :
  NoDup (map fst other) ->
  dict_get k (dict_update d other)
  = match dict_get k other with
    | Some v => Some v
    | None => dict_get k d
    end.
Proof.
  unfold dict_update. revert d.
  induction other as [|[k0 v0] r IH]; intros d Hnd; [reflexivity|].
  cbn [map fst] in Hnd. apply NoDup_cons in Hnd as [Hk0 Hr].
  cbn [fold_left fst snd dict_get]. rewrite (IH _ Hr), dict_get_set.
  destruct (String.eqb k k0) eqn:E; [|reflexivity].
  apply String.eqb_eq in E. subst k0.
  assert (dict_get k r = None) as ->; [|reflexivity].
  clear - Hk0. induction r as [|[k1 v1] r IH]; [reflexivity|].
  cbn [map fst] in Hk0. apply not_elem_of_cons in Hk0 as [Hne Hr].
  cbn [dict_get]. apply String.eqb_neq in Hne. rewrite Hne. apply IH, Hr.
Qed.

(** X21. [inject(d)] returns the element and leaves its children and parent
    alone; afterwards the content data binds every key of [d] to its value
    in [d] and every other key as before. *)
Theorem inject_overrides_and_keeps :
  forall (self : nat) (d : dict) (h : heap) (t : tagobj),
    h !! self = Some (OTag t) -> NoDup (map fst d) ->
    let r := DOMElement.inject self (Some d) [] h in
    fst r = Ok (VRef self) /\
    exists t',
      snd r !! self = Some (OTag t') /\
      childs t' = childs t /\ parent t' = parent t /\
      forall k, dict_get k (content_data t')
                = match dict_get k d with
                  | Some v => Some v
                  | None => dict_get k (content_data t)
                  end.
Proof.
  intros self d h t Et Hnd r. unfold r, DOMElement.inject.
  rewrite no_keyword_nil. cbn [dict_get]. unfold DOMElement.inject_body.
  rewrite bind_run, (upd_tag_run _ _ _ _ Et).
  rewrite bind_run,
    (upd_tag_run _ _ _ _ (lookup_insert_same _ _ _ _ Et)).
  rewrite list_insert_insert_eq. cbn [fst snd].
  split; [reflexivity|]. eexists.
  split; [apply (lookup_insert_same _ _ _ _ Et)|].
  split; [reflexivity|]. split; [reflexivity|].
  intros k. cbn [content_data set_content_data set_stable].
  destruct d as [|x d']; [reflexivity|].
  apply dict_get_update, Hnd.
Qed.

Lemma inject_overrides_and_keeps_witness :
  let r := DOMElement.inject 0 (Some [("x", VStr "a"); ("y", VStr "b")]) []
             Scenario.fresh_div in
  fst r = Ok (VRef 0) /\
  exists t',
    snd r !! 0 = Some (OTag t') /\
    childs t' = [] /\ parent t' = None /\
    forall k, dict_get k (content_data t')
              = match dict_get k [("x", VStr "a"); ("y", VStr "b")] with
                | Some v => Some v
                | None => dict_get k []
                end.
Proof.
  apply (inject_overrides_and_keeps 0 [("x", VStr "a"); ("y", VStr "b")]
           Scenario.fresh_div
           (mkTag TagC "div" None [] None [] TagAttrs.empty None false [])).
  - reflexivity.
  - apply (bool_decide_unpack _). vm_compute. reflexivity.
Defined.

Lemma truthy_with_children (p : nat) (tp : tagobj) (h : heap) :
  h !! p = Some (OTag tp) -> childs tp <> [] ->
  truthy (VRef p) h = (Ok true, h).
Proof.
  intros Ep Hne. unfold truthy. cbn [truthy_plain].
  rewrite bind_run. unfold get_obj at 1. rewrite Ep.
  destruct (childs tp); [congruence | reflexivity].
Qed.

(** X22. [_find_content(k)] walks up from an element through elements that
    do not bind [k]; the first element [a] that binds [k] gives the value,
    and when the walk ends at a root without a binding the result is the
    empty string. *)
Theorem find_content_takes_the_nearest_binding :
  forall (h : heap) (k : string) (c a n : nat) (ta : tagobj),
    climbs h k c a n -> h !! a = Some (OTag ta) ->
    dict_get k (content_data ta) <> None \/ parent ta = None ->
    forall fuel, n < fuel ->
      DOMElement._find_content fuel c (Some k) h
      = (Ok (match dict_get k (content_data ta) with
             | Some v => v
             | None => VStr ""
             end), h).
Proof.
  intros h k c a n ta Hc Ea Hend.
  induction Hc as [a|c p a n t tp Ec Hk Hp Ep Hne Hc IH];
    intros fuel Hf; (destruct fuel as [|fuel]; [lia|]);
    cbn [DOMElement._find_content]; unfold DOMElement._find_content_step.
  - rewrite bind_run, (get_tag_run _ _ _ Ea).
    destruct (dict_get k (content_data ta)) as [v|]; [reflexivity|].
    destruct Hend as [Hend|Hend]; [congruence|].
    rewrite Hend. reflexivity.
  - rewrite bind_run, (get_tag_run _ _ _ Ec), Hk, Hp.
    rewrite bind_run, (truthy_with_children p tp h Ep Hne).
    apply (IH Ea). lia.
Qed.

(** The theorem at [div = Div()('text', P())] with [x] bound on [div],
    looked up from the paragraph. *)
Lemma find_content_takes_the_nearest_binding_witness :
  let h := snd (DOMElement.inject 0 (Some [("x", VStr "a")]) []
                  Scenario.text_then_element) in
  DOMElement._find_content 2 1 (Some "x") h = (Ok (VStr "a"), h).
Proof.
  apply (find_content_takes_the_nearest_binding
           (snd (DOMElement.inject 0 (Some [("x", VStr "a")]) []
                   Scenario.text_then_element))
           "x" 1 0 1
           (mkTag TagC "div" None [VStr "text"; VRef 1] None
                  [("x", VStr "a")] TagAttrs.empty None false [])).
  - eapply climbs_up;
      [vm_compute; reflexivity | reflexivity | reflexivity
      | vm_compute; reflexivity | discriminate | apply climbs_here].
  - vm_compute. reflexivity.
  - left. discriminate.
  - lia.
Defined.








(** *** has_class, remove_class and toggle_class *)

Lemma set_attrs_same (t : tagobj) : set_attrs (attrs t) t = t.
Proof. destruct t. reflexivity. Qed.

Lemma attrs_eta (a : TagAttrs.t) :
  TagAttrs.mk (TagAttrs.items a) (TagAttrs._comment a) = a.
Proof. destruct a. reflexivity. Qed.

Lemma dict_set_set (k : string) (v v' : pyval) (d : dict) :
  dict_set k v (dict_set k v' d) = dict_set k v d.
Proof.
  induction d as [|[k0 v0] r IH]; cbn [dict_set].
  - rewrite String.eqb_refl. reflexivity.
  - destruct (String.eqb k k0) eqn:E; cbn [dict_set].
    + rewrite String.eqb_refl. reflexivity.
    + rewrite E, IH. reflexivity.
Qed.

Lemma dict_set_same (k : string) (v : pyval) (d : dict) :
  dict_get k d = Some v -> dict_set k v d = d.
Proof.
  induction d as [|[k0 v0] r IH]; cbn [dict_get dict_set]; [discriminate|].
  destruct (String.eqb k k0) eqn:E.
  - apply String.eqb_eq in E. subst k0. intros [= ->]. reflexivity.
  - intros Hg. rewrite (IH Hg). reflexivity.
Qed.

Lemma find_str_absent_then_found (c : string) (l rest : list pyval)
    (i : nat) :
  Tag.find_str c l i = Ok None ->
  Tag.find_str c (l ++ VStr c :: rest) i = Ok (Some (i + length l)).
Proof.
  revert i. induction l as [|x l IH]; intros i; cbn [app Tag.find_str length].
  - rewrite String.eqb_refl. intros _. f_equal. f_equal. lia.
  - destruct x; try discriminate;
      try (intros Hl; rewrite (IH (S i) Hl); f_equal; f_equal; lia).
    destruct (String.eqb s c); [discriminate|].
    intros Hl. rewrite (IH (S i) Hl). f_equal. f_equal. lia.
Qed.

Lemma klass_contains_run (c : string) (a : TagAttrs.t) (l : list pyval)
    (found : option nat) :
  dict_get "klass" (TagAttrs.items a) = Some (VList l) ->
  Tag.find_str c l 0 = Ok found ->
  Tag.klass_contains (VStr c) a
  = (Ok (match found with Some _ => true | None => false end), a).
Proof.
  intros Hk Hf. unfold Tag.klass_contains, bind, TagAttrs.getitem.
  rewrite Hk. unfold lift_outcome. rewrite Hf. reflexivity.
Qed.

Lemma klass_append_run (v : pyval) (a : TagAttrs.t) (l : list pyval) :
  dict_get "klass" (TagAttrs.items a) = Some (VList l) ->
  TagAttrs.append_at "klass" v a
  = (Ok tt, TagAttrs.mk (dict_set "klass" (VList (l ++ [v]))
                           (TagAttrs.items a))
                        (TagAttrs._comment a)).
Proof.
  intros Hk. unfold TagAttrs.append_at, bind, TagAttrs.getitem.
  rewrite Hk. reflexivity.
Qed.

Lemma klass_remove_run (c : string) (a : TagAttrs.t) (l : list pyval)
    (found : option nat) :
  dict_get "klass" (TagAttrs.items a) = Some (VList l) ->
  Tag.find_str c l 0 = Ok found ->
  Tag.klass_remove (VStr c) a
  = match found with
    | Some i =>
        (Ok tt, TagAttrs.mk (dict_set "klass" (VList (delete i l))
                               (TagAttrs.items a))
                            (TagAttrs._comment a))
    | None => (Raise ValueError, a)
    end.
Proof.
  intros Hk Hf. unfold Tag.klass_remove, bind, TagAttrs.getitem.
  rewrite Hk. unfold lift_outcome. rewrite Hf.
  destruct found; reflexivity.
Qed.

(** [has_class] reads the class list and changes nothing. *)
Lemma has_class_run (self : nat) (c : string) (h : heap) (t : tagobj)
    (l : list pyval) (found : option nat) :
  h !! self = Some (OTag t) ->
  dict_get "klass" (TagAttrs.items (attrs t)) = Some (VList l) ->
  Tag.find_str c l 0 = Ok found ->
  Tag.has_class self (VStr c) h
  = (Ok (match found with Some _ => true | None => false end), h).
Proof.
  intros Et Hk Hf. unfold Tag.has_class.
  rewrite (on_attrs_run _ _ _ _ Et), (klass_contains_run c _ l found Hk Hf).
  cbn [fst snd]. rewrite set_attrs_same, list_insert_id by exact Et.
  reflexivity.
Qed.

(** [add_class] on an element that has a class list. *)
Lemma add_class_run (self : nat) (v : pyval) (h : heap) (t : tagobj)
    (l : list pyval) :
  h !! self = Some (OTag t) ->
  dict_get "klass" (TagAttrs.items (attrs t)) = Some (VList l) ->
  Tag.add_class self v h
  = (Ok (VRef self),
     <[self := OTag (set_attrs
                       (TagAttrs.mk
                          (dict_set "klass" (VList (l ++ [v]))
                             (TagAttrs.items (attrs t)))
                          (TagAttrs._comment (attrs t)))
                       (set_stable false t))]> h).
Proof.
  intros Et Hk. unfold Tag.add_class.
  rewrite bind_run, (upd_tag_run _ _ _ _ Et).
  rewrite bind_run,
    (on_attrs_run _ _ _ _ (lookup_insert_same _ _ _ _ Et)).
  rewrite list_insert_insert_eq. cbn [attrs set_stable].
  rewrite (klass_append_run v _ l Hk). reflexivity.
Qed.

(** [remove_class] on an element that has a class list. *)
Lemma remove_class_run (self : nat) (c : string) (h : heap) (t : tagobj)
    (l : list pyval) (found : option nat) :
  h !! self = Some (OTag t) ->
  dict_get "klass" (TagAttrs.items (attrs t)) = Some (VList l) ->
  Tag.find_str c l 0 = Ok found ->
  Tag.remove_class self (VStr c) h
  = match found with
    | Some i =>
        (Ok (VRef self),
         <[self := OTag (set_attrs
                           (TagAttrs.mk
                              (dict_set "klass" (VList (delete i l))
                                 (TagAttrs.items (attrs t)))
                              (TagAttrs._comment (attrs t)))
                           (set_stable false t))]> h)
    | None => (Raise ValueError, <[self := OTag (set_stable false t)]> h)
    end.
Proof.
  intros Et Hk Hf. unfold Tag.remove_class.
  rewrite bind_run, (upd_tag_run _ _ _ _ Et).
  rewrite bind_run,
    (on_attrs_run _ _ _ _ (lookup_insert_same _ _ _ _ Et)).
  rewrite list_insert_insert_eq. cbn [attrs set_stable].
  rewrite (klass_remove_run c _ l found Hk Hf).
  destruct found as [i|]; cbn [fst snd].
  - reflexivity.
  - change (set_attrs (attrs t) (set_stable false t))
      with (set_stable false (set_attrs (attrs t) t)).
    rewrite set_attrs_same. reflexivity.
Qed.

(** X25. For an element with a class list that does not hold [c],
    [toggle_class(c)] appends [c] and a second [toggle_class(c)] takes it out
    again: the element is as before, marked as changed. *)
Theorem toggle_class_twice_restores_the_class_list :
  forall (self : nat) (c : string) (h : heap) (t : tagobj)
         (l : list pyval),
    h !! self = Some (OTag t) ->
    dict_get "klass" (TagAttrs.items (attrs t)) = Some (VList l) ->
    Tag.find_str c l 0 = Ok None ->
    let r1 := Tag.toggle_class self (VStr c) h in
    let r2 := Tag.toggle_class self (VStr c) (snd r1) in
    fst r1 = Ok (VRef self) /\
    (exists t1, snd r1 !! self = Some (OTag t1) /\
                dict_get "klass" (TagAttrs.items (attrs t1))
                = Some (VList (l ++ [VStr c]))) /\
    r2 = (Ok (VRef self), <[self := OTag (set_stable false t)]> h).
Proof.
  intros self c h t l Et Hk Hf r1 r2.
  assert (r1 = (Ok (VRef self),
                <[self := OTag (set_attrs
                                  (TagAttrs.mk
                                     (dict_set "klass" (VList (l ++ [VStr c]))
                                        (TagAttrs.items (attrs t)))
                                     (TagAttrs._comment (attrs t)))
                                  (set_stable false t))]> h)) as E1.
  { unfold r1, Tag.toggle_class.
    rewrite bind_run, (upd_tag_run _ _ _ _ Et).
    pose proof (lookup_insert_same self _ (OTag (set_stable false t)) h Et)
      as Et0.
    rewrite bind_run, (has_class_run self c _ _ l None Et0 Hk Hf).
    rewrite (add_class_run self (VStr c) _ _ l Et0 Hk).
    rewrite list_insert_insert_eq. reflexivity. }
  unfold r2. rewrite E1. cbn [fst snd].
  set (a1 := TagAttrs.mk (dict_set "klass" (VList (l ++ [VStr c]))
                            (TagAttrs.items (attrs t)))
                         (TagAttrs._comment (attrs t))).
  set (t1 := set_attrs a1 (set_stable false t)).
  assert (<[self := OTag t1]> h !! self = Some (OTag t1)) as Et1
    by apply (lookup_insert_same _ _ _ _ Et).
  assert (dict_get "klass" (TagAttrs.items (attrs t1))
          = Some (VList (l ++ [VStr c]))) as Hk1.
  { unfold t1, a1. cbn [attrs set_attrs TagAttrs.items].
    rewrite dict_get_set. reflexivity. }
  split; [reflexivity|]. split; [exists t1; auto|].
  pose proof (find_str_absent_then_found c l [] 0 Hf) as Hf1.
  cbn [Nat.add] in Hf1.
  unfold Tag.toggle_class.
  rewrite bind_run, (upd_tag_run _ _ _ _ Et1), list_insert_insert_eq.
  pose proof (lookup_insert_same self _ (OTag (set_stable false t1)) h Et)
    as Et2.
  rewrite bind_run, (has_class_run self c _ _ _ _ Et2 Hk1 Hf1).
  rewrite (remove_class_run self c _ _ _ _ Et2 Hk1 Hf1).
  rewrite list_insert_insert_eq. f_equal. f_equal. f_equal.
  unfold t1, a1. cbn [attrs set_attrs set_stable TagAttrs.items
                      TagAttrs._comment].
  rewrite delete_middle, app_nil_r, dict_set_set, (dict_set_same _ _ _ Hk).
  rewrite attrs_eta. destruct t. reflexivity.
Qed.

(** The theorem at [Div(klass='a')] and the class [b]. *)
Lemma toggle_class_twice_restores_the_class_list_witness :
  let h := Scenario.div_with_class in
  let r1 := Tag.toggle_class 0 (VStr "b") h in
  let r2 := Tag.toggle_class 0 (VStr "b") (snd r1) in
  fst r1 = Ok (VRef 0) /\
  (exists t1, snd r1 !! 0 = Some (OTag t1) /\
              dict_get "klass" (TagAttrs.items (attrs t1))
              = Some (VList [VStr "a"; VStr "b"])) /\
  r2 = (Ok (VRef 0),
        <[0 := OTag (set_stable false
                       (mkTag TagC "div" None [] None []
                              (TagAttrs.mk [("klass", VList [VStr "a"])] None)
                              None false []))]> h).
Proof.
  apply (toggle_class_twice_restores_the_class_list 0 "b"
           Scenario.div_with_class
           (mkTag TagC "div" None [] None []
                  (TagAttrs.mk [("klass", VList [VStr "a"])] None)
                  None false [])
           [VStr "a"]); reflexivity.
Defined.

(** X26. [remove_class(c)] takes the first occurrence of [c] out of the class
    list and leaves the other attributes alone; when the list does not hold
    [c] it ends in a [ValueError] with the attributes unchanged. *)
Theorem remove_class_takes_the_first_occurrence :
  forall (self : nat) (c : string) (h : heap) (t : tagobj)
         (l : list pyval),
    h !! self = Some (OTag t) ->
    dict_get "klass" (TagAttrs.items (attrs t)) = Some (VList l) ->
    (forall pre rest,
       l = pre ++ VStr c :: rest -> Tag.find_str c pre 0 = Ok None ->
       fst (Tag.remove_class self (VStr c) h) = Ok (VRef self) /\
       exists t',
         snd (Tag.remove_class self (VStr c) h) !! self = Some (OTag t') /\
         forall k, dict_get k (TagAttrs.items (attrs t'))
                   = if String.eqb k "klass" then Some (VList (pre ++ rest))
                     else dict_get k (TagAttrs.items (attrs t))) /\
    (Tag.find_str c l 0 = Ok None ->
     Tag.remove_class self (VStr c) h
     = (Raise ValueError, <[self := OTag (set_stable false t)]> h)).
Proof.
  intros self c h t l Et Hk. split.
  - intros pre rest -> Hpre.
    pose proof (find_str_absent_then_found c pre rest 0 Hpre) as Hf.
    cbn [Nat.add] in Hf.
    rewrite (remove_class_run self c h t _ _ Et Hk Hf). cbn [fst snd].
    split; [reflexivity|]. eexists.
    split; [apply (lookup_insert_same _ _ _ _ Et)|].
    intros k. cbn [attrs set_attrs TagAttrs.items].
    rewrite dict_get_set, delete_middle. reflexivity.
  - intros Hf. apply (remove_class_run self c h t l None Et Hk Hf).
Qed.

(** The theorem at [Div(klass='a')] and the class [a]. *)
Lemma remove_class_takes_the_first_occurrence_witness :
  let h := Scenario.div_with_class in
  fst (Tag.remove_class 0 (VStr "a") h) = Ok (VRef 0) /\
  exists t',
    snd (Tag.remove_class 0 (VStr "a") h) !! 0 = Some (OTag t') /\
    forall k, dict_get k (TagAttrs.items (attrs t'))
              = if String.eqb k "klass" then Some (VList [])
                else dict_get k [("klass", VList [VStr "a"])].
Proof.
  apply (proj1 (remove_class_takes_the_first_occurrence 0 "a"
                  Scenario.div_with_class
                  (mkTag TagC "div" None [] None []
                         (TagAttrs.mk [("klass", VList [VStr "a"])] None)
                         None false [])
                  [VStr "a"] eq_refl eq_refl) [] []); reflexivity.
Defined.

(** *** Attributes that come and go *)

Lemma dict_del_absent (k : string) (d : dict) :
  dict_get k d = None -> dict_del k d = d.
Proof.
  induction d as [|[k0 v0] r IH]; cbn [dict_get dict_del]; [reflexivity|].
  destruct (String.eqb k k0); [discriminate|].
  intros Hg. rewrite (IH Hg). reflexivity.
Qed.

Lemma dict_del_set_absent (k : string) (v : pyval) (d : dict) :
  dict_get k d = None -> dict_del k (dict_set k v d) = d.
Proof.
  induction d as [|[k0 v0] r IH]; cbn [dict_get dict_set dict_del].
  - rewrite String.eqb_refl. reflexivity.
  - destruct (String.eqb k k0) eqn:E; [discriminate|].
    cbn [dict_del]. rewrite E. intros Hg. rewrite (IH Hg). reflexivity.
Qed.

(** [attr(k=v)] for a key that is neither multi-valued nor a mapping, and
    not the name of a parameter of [attr]. *)
Lemma attr_plain_run (self : nat) (k : string) (v : pyval) (h : heap)
    (t : tagobj) :
  h !! self = Some (OTag t) ->
  str_in k ["self"; "attrs"] = false ->
  str_in k TagAttrs._MULTI_VALUES_ATTRS = false ->
  str_in k TagAttrs._MAPPING_ATTRS = false ->
  Tag.attr self None [(k, v)] h
  = (Ok (VRef self),
     <[self := OTag (set_attrs
                       (TagAttrs.mk (dict_set k v (TagAttrs.items (attrs t)))
                                    (TagAttrs._comment (attrs t)))
                       (set_stable false t))]> h).
Proof.
  intros Et Hn Hm Hp.
  assert (dict_has "self" [(k, v)] = false
          /\ dict_get "attrs" [(k, v)] = None) as [Hself Hattrs].
  { unfold str_in in Hn. cbn [existsb] in Hn.
    apply orb_false_elim in Hn as [H1 H2].
    apply orb_false_elim in H2 as [H2 _].
    unfold dict_has. cbn [dict_get].
    rewrite (String.eqb_sym "self" k), H1, (String.eqb_sym "attrs" k), H2.
    split; reflexivity. }
  rewrite (attr_keywords self _ Hself Hattrs).
  rewrite bind_run, (upd_tag_run _ _ _ _ Et).
  rewrite bind_run,
    (on_attrs_run _ _ _ _ (lookup_insert_same _ _ _ _ Et)).
  rewrite list_insert_insert_eq. cbn [attrs set_stable].
  unfold TagAttrs.update. cbn [for_each fst snd].
  unfold TagAttrs.__setitem__. rewrite Hm, Hp. reflexivity.
Qed.

Lemma remove_attr_run (self : nat) (k : string) (h : heap) (t : tagobj) :
  h !! self = Some (OTag t) ->
  Tag.remove_attr self k h
  = (Ok (VRef self),
     <[self := OTag (set_attrs
                       (TagAttrs.mk (dict_del k (TagAttrs.items (attrs t)))
                                    (TagAttrs._comment (attrs t)))
                       (set_stable false t))]> h).
Proof.
  intros Et. unfold Tag.remove_attr.
  rewrite bind_run, (upd_tag_run _ _ _ _ Et).
  rewrite bind_run,
    (on_attrs_run _ _ _ _ (lookup_insert_same _ _ _ _ Et)).
  rewrite list_insert_insert_eq. reflexivity.
Qed.

(** X27. For an ordinary attribute name that the element does not have
    (not [klass], [typ] or [style], and, as it is passed as a keyword, not
    the name of one of the parameters [self] and [attrs] of [attr]),
    [attr(k=v)] stores [v] under [k] and [remove_attr(k)] afterwards gives
    the old attributes back; [remove_attr(k)] without the [attr] is silent
    and changes no attribute. *)
Theorem attr_then_remove_attr_round_trip :
  forall (self : nat) (k : string) (v : pyval) (h : heap) (t : tagobj),
    h !! self = Some (OTag t) ->
    dict_get k (TagAttrs.items (attrs t)) = None ->
    str_in k ["self"; "attrs"] = false ->
    str_in k TagAttrs._MULTI_VALUES_ATTRS = false ->
    str_in k TagAttrs._MAPPING_ATTRS = false ->
    let r1 := Tag.attr self None [(k, v)] h in
    let r2 := Tag.remove_attr self k (snd r1) in
    fst r1 = Ok (VRef self) /\
    (exists t1, snd r1 !! self = Some (OTag t1) /\
                dict_get k (TagAttrs.items (attrs t1)) = Some v) /\
    r2 = (Ok (VRef self), <[self := OTag (set_stable false t)]> h) /\
    Tag.remove_attr self k h
    = (Ok (VRef self), <[self := OTag (set_stable false t)]> h).
Proof.
  intros self k v h t Et Hk Hn Hm Hp r1 r2.
  unfold r2, r1. rewrite (attr_plain_run self k v h t Et Hn Hm Hp).
  cbn [fst snd]. split; [reflexivity|]. split.
  { eexists. split; [apply (lookup_insert_same _ _ _ _ Et)|].
    cbn [attrs set_attrs TagAttrs.items]. rewrite dict_get_set,
      String.eqb_refl. reflexivity. }
  split.
  - rewrite (remove_attr_run self k _ _ (lookup_insert_same _ _ _ _ Et)).
    rewrite list_insert_insert_eq.
    cbn [attrs set_attrs set_stable TagAttrs.items TagAttrs._comment].
    rewrite (dict_del_set_absent _ _ _ Hk), attrs_eta.
    destruct t. reflexivity.
  - rewrite (remove_attr_run self k h t Et), (dict_del_absent _ _ Hk),
      attrs_eta.
    destruct t. reflexivity.
Qed.

(** The theorem at [Div()] and [id='x']. *)
Lemma attr_then_remove_attr_round_trip_witness :
  let h := Scenario.fresh_div in
  let r1 := Tag.attr 0 None [("id", VStr "x")] h in
  let r2 := Tag.remove_attr 0 "id" (snd r1) in
  fst r1 = Ok (VRef 0) /\
  (exists t1, snd r1 !! 0 = Some (OTag t1) /\
              dict_get "id" (TagAttrs.items (attrs t1)) = Some (VStr "x")) /\
  r2 = (Ok (VRef 0),
        <[0 := OTag (set_stable false
                       (mkTag TagC "div" None [] None [] TagAttrs.empty
                              None false []))]> h) /\
  Tag.remove_attr 0 "id" h
  = (Ok (VRef 0),
     <[0 := OTag (set_stable false
                    (mkTag TagC "div" None [] None [] TagAttrs.empty
                           None false []))]> h).
Proof.
  apply (attr_then_remove_attr_round_trip 0 "id" (VStr "x")
           Scenario.fresh_div
           (mkTag TagC "div" None [] None [] TagAttrs.empty None false []));
    reflexivity.
Defined.

(** X28. An attribute whose value is falsy (an empty string, [None], an
    empty list or mapping) leaves no trace in the rendered attributes: the
    string is the one rendered after the attribute is popped. *)
Theorem falsy_attribute_renders_like_a_removed_one :
  forall (a : TagAttrs.t) (k : string) (v : pyval),
    dict_get k (TagAttrs.items a) = Some v ->
    truthy_plain v = Some false ->
    TagAttrs.render a = TagAttrs.render (snd (TagAttrs.pop_default k a)).
Proof.
  intros [d c] k v Hk Hv. unfold TagAttrs.render, TagAttrs.pop_default,
    modify. cbn [TagAttrs.items TagAttrs._comment snd] in *.
  destruct c as [c|]; [reflexivity|].
  assert (TagAttrs.render_items d = TagAttrs.render_items (dict_del k d))
    as ->; [|reflexivity].
  induction d as [|[k0 v0] r IH]; [discriminate|].
  cbn [dict_get dict_del TagAttrs.render_items] in *.
  destruct (String.eqb k k0).
  - injection Hk as ->. rewrite Hv. reflexivity.
  - cbn [TagAttrs.render_items]. rewrite (IH Hk). reflexivity.
Qed.

(** The theorem at the attributes [{'id': 'x', 'klass': []}]. *)
Lemma falsy_attribute_renders_like_a_removed_one_witness :
  TagAttrs.render (TagAttrs.mk [("id", VStr "x"); ("klass", VList [])] None)
  = TagAttrs.render (TagAttrs.mk [("id", VStr "x")] None).
Proof.
  apply (falsy_attribute_renders_like_a_removed_one
           (TagAttrs.mk [("id", VStr "x"); ("klass", VList [])] None)
           "klass" (VList [])); reflexivity.
Defined.

(** *** hide, show and toggle *)

Lemma style_setitem_run (k : string) (v : pyval) (a : TagAttrs.t)
    (d : dict) :
  dict_get "style" (TagAttrs.items a) = Some (VDict d) ->
  Tag.style_setitem k v a
  = (Ok tt, TagAttrs.mk (dict_set "style" (VDict (dict_set k v d))
                           (TagAttrs.items a))
                        (TagAttrs._comment a)).
Proof.
  intros Hs. unfold Tag.style_setitem, bind, TagAttrs.getitem.
  rewrite Hs. reflexivity.
Qed.

Lemma style_pop_run (k : string) (a : TagAttrs.t) (d : dict) :
  dict_get "style" (TagAttrs.items a) = Some (VDict d) ->
  Tag.style_pop k a
  = match dict_get k d with
    | Some _ =>
        (Ok tt, TagAttrs.mk (dict_set "style" (VDict (dict_del k d))
                               (TagAttrs.items a))
                            (TagAttrs._comment a))
    | None => (Raise KeyError, a)
    end.
Proof.
  intros Hs. unfold Tag.style_pop, bind, TagAttrs.getitem, dict_has.
  rewrite Hs. destruct (dict_get k d); reflexivity.
Qed.

Lemma display_is_none_run (a : TagAttrs.t) (d : dict) :
  dict_get "style" (TagAttrs.items a) = Some (VDict d) ->
  Tag.display_is_none a
  = match dict_get "display" d with
    | None => (Raise KeyError, a)
    | Some VNone => (Ok true, a)
    | Some (VRef _) => (Beyond, a)
    | Some _ => (Ok false, a)
    end.
Proof.
  intros Hs. unfold Tag.display_is_none, bind, TagAttrs.getitem.
  rewrite Hs. destruct (dict_get "display" d) as [[]|]; reflexivity.
Qed.

Lemma style_decls_snoc (d : dict) (ss : list string) (k s : string)
    (v : pyval) :
  TagAttrs.style_decls d = Ok ss -> py_str v = Ok s ->
  TagAttrs.style_decls (d ++ [(k, v)])
  = Ok (ss ++ [k +:+ ": " +:+ s +:+ ";"]).
Proof.
  intros Hd Hv. revert ss Hd.
  induction d as [|[k' v'] r IH]; intros ss Hd.
  - injection Hd as <-. cbn [app TagAttrs.style_decls]. rewrite Hv.
    reflexivity.
  - cbn [app TagAttrs.style_decls] in Hd |- *.
    destruct (py_str v') as [s'| |]; try discriminate.
    destruct (TagAttrs.style_decls r) as [ss'| |]; try discriminate.
    injection Hd as <-. rewrite (IH ss' eq_refl). reflexivity.
Qed.

(** [hide] on an element that has a style mapping. *)
Lemma hide_run (self : nat) (h : heap) (t : tagobj) (d : dict) :
  h !! self = Some (OTag t) ->
  dict_get "style" (TagAttrs.items (attrs t)) = Some (VDict d) ->
  Tag.hide self h
  = (Ok (VRef self),
     <[self := OTag (set_attrs
                       (TagAttrs.mk
                          (dict_set "style"
                             (VDict (dict_set "display" VNone d))
                             (TagAttrs.items (attrs t)))
                          (TagAttrs._comment (attrs t)))
                       (set_stable false t))]> h).
Proof.
  intros Et Hs. unfold Tag.hide.
  rewrite bind_run, (upd_tag_run _ _ _ _ Et).
  rewrite bind_run,
    (on_attrs_run _ _ _ _ (lookup_insert_same _ _ _ _ Et)).
  rewrite list_insert_insert_eq. cbn [attrs set_stable].
  rewrite (style_setitem_run "display" VNone _ d Hs). reflexivity.
Qed.

(** X29. For an element with a style mapping that has no [display] key:
    [hide()] adds [display: None], which renders as the declaration
    [display: None;]; [show()] and [toggle()] after it both give the old
    element back; and [toggle()] and [show()] without a [hide()] before end
    in a [KeyError]. *)
Theorem hide_then_show_restores_and_toggle_cannot_hide :
  forall (self : nat) (h : heap) (t : tagobj) (d : dict),
    h !! self = Some (OTag t) ->
    dict_get "style" (TagAttrs.items (attrs t)) = Some (VDict d) ->
    dict_get "display" d = None ->
    let hidden := Tag.hide self h in
    fst hidden = Ok (VRef self) /\
    (exists t1, snd hidden !! self = Some (OTag t1) /\
                dict_get "style" (TagAttrs.items (attrs t1))
                = Some (VDict (d ++ [("display", VNone)]))) /\
    Tag.show self (snd hidden)
    = (Ok (VRef self), <[self := OTag (set_stable false t)]> h) /\
    Tag.toggle self (snd hidden)
    = (Ok (VRef self), <[self := OTag (set_stable false t)]> h) /\
    Tag.toggle self h
    = (Raise KeyError, <[self := OTag (set_stable false t)]> h) /\
    Tag.show self h
    = (Raise KeyError, <[self := OTag (set_stable false t)]> h) /\
    forall ss, TagAttrs.style_decls d = Ok ss ->
      TagAttrs.format_value "style" (VDict (d ++ [("display", VNone)]))
      = Ok (join " " (ss ++ ["display: None;"])).
Proof.
  intros self h t d Et Hs Hd hidden.
  set (a1 := TagAttrs.mk
               (dict_set "style" (VDict (dict_set "display" VNone d))
                  (TagAttrs.items (attrs t)))
               (TagAttrs._comment (attrs t))).
  set (t1 := set_attrs a1 (set_stable false t)).
  assert (hidden = (Ok (VRef self), <[self := OTag t1]> h)) as ->.
  { unfold hidden. apply (hide_run self h t d Et Hs). }
  cbn [fst snd].
  assert (<[self := OTag t1]> h !! self = Some (OTag t1)) as Et1
    by apply (lookup_insert_same _ _ _ _ Et).
  assert (dict_get "style" (TagAttrs.items (attrs t1))
          = Some (VDict (dict_set "display" VNone d))) as Hs1.
  { unfold t1, a1. cbn [attrs set_attrs TagAttrs.items].
    rewrite dict_get_set. reflexivity. }
  assert (dict_get "display" (dict_set "display" VNone d) = Some VNone)
    as Hd1 by (rewrite dict_get_set; reflexivity).
  assert (Tag.show self (<[self := OTag t1]> h)
          = (Ok (VRef self), <[self := OTag (set_stable false t)]> h))
    as Eshow.
  { unfold Tag.show.
    rewrite bind_run, (upd_tag_run _ _ _ _ Et1), list_insert_insert_eq.
    rewrite bind_run,
      (on_attrs_run _ _ _ _ (lookup_insert_same _ _ _ _ Et)).
    rewrite list_insert_insert_eq. cbn [attrs set_stable].
    rewrite (style_pop_run "display" _ _ Hs1), Hd1. cbn [fst snd].
    f_equal. f_equal. f_equal. unfold t1, a1.
    cbn [attrs set_attrs set_stable TagAttrs.items TagAttrs._comment].
    rewrite (dict_del_set_absent _ _ _ Hd), dict_set_set,
      (dict_set_same _ _ _ Hs), attrs_eta.
    destruct t. reflexivity. }
  split; [reflexivity|]. split.
  { exists t1. split; [exact Et1|].
    rewrite Hs1, (dict_set_absent _ _ _ Hd). reflexivity. }
  split; [exact Eshow|]. split.
  - unfold Tag.toggle.
    rewrite bind_run, (upd_tag_run _ _ _ _ Et1), list_insert_insert_eq.
    pose proof (lookup_insert_same self _ (OTag (set_stable false t1)) h Et)
      as Et2.
    rewrite bind_run, (on_attrs_run _ _ _ _ Et2), list_insert_insert_eq.
    cbn [attrs set_stable].
    rewrite (display_is_none_run _ _ Hs1), Hd1. cbn [fst snd].
    change (set_attrs (attrs t1) (set_stable false t1))
      with (set_stable false (set_attrs (attrs t1) t1)).
    rewrite set_attrs_same.
    assert (set_stable false t1 = t1) as -> by reflexivity.
    exact Eshow.
  - split.
    + unfold Tag.toggle.
      rewrite bind_run, (upd_tag_run _ _ _ _ Et).
      rewrite bind_run,
        (on_attrs_run _ _ _ _ (lookup_insert_same _ _ _ _ Et)).
      rewrite list_insert_insert_eq. cbn [attrs set_stable].
      rewrite (display_is_none_run _ _ Hs), Hd. cbn [fst snd].
      change (set_attrs (attrs t) (set_stable false t))
        with (set_stable false (set_attrs (attrs t) t)).
      rewrite set_attrs_same. reflexivity.
    + split.
      * unfold Tag.show.
        rewrite bind_run, (upd_tag_run _ _ _ _ Et).
        rewrite bind_run,
          (on_attrs_run _ _ _ _ (lookup_insert_same _ _ _ _ Et)).
        rewrite list_insert_insert_eq. cbn [attrs set_stable].
        rewrite (style_pop_run "display" _ _ Hs), Hd. cbn [fst snd].
        change (set_attrs (attrs t) (set_stable false t))
          with (set_stable false (set_attrs (attrs t) t)).
        rewrite set_attrs_same. reflexivity.
      * intros ss Hss. unfold TagAttrs.format_value.
        cbn [String.eqb Ascii.eqb Bool.eqb].
        rewrite (style_decls_snoc d ss "display" "None" VNone Hss eq_refl).
        reflexivity.
Qed.

(** The theorem at [Div().css(color='red')]. *)
Lemma hide_then_show_restores_and_toggle_cannot_hide_witness :
  let h := Scenario.styled_div in
  let t := mkTag TagC "div" None [] None []
             (TagAttrs.mk [("style", VDict [("color", VStr "red")])] None)
             None false [] in
  let hidden := Tag.hide 0 h in
  fst hidden = Ok (VRef 0) /\
  (exists t1, snd hidden !! 0 = Some (OTag t1) /\
              dict_get "style" (TagAttrs.items (attrs t1))
              = Some (VDict [("color", VStr "red"); ("display", VNone)])) /\
  Tag.show 0 (snd hidden) = (Ok (VRef 0), <[0 := OTag (set_stable false t)]> h)
  /\
  Tag.toggle 0 (snd hidden)
  = (Ok (VRef 0), <[0 := OTag (set_stable false t)]> h) /\
  Tag.toggle 0 h = (Raise KeyError, <[0 := OTag (set_stable false t)]> h) /\
  Tag.show 0 h = (Raise KeyError, <[0 := OTag (set_stable false t)]> h) /\
  forall ss, TagAttrs.style_decls [("color", VStr "red")] = Ok ss ->
    TagAttrs.format_value "style"
      (VDict [("color", VStr "red"); ("display", VNone)])
    = Ok (join " " (ss ++ ["display: None;"])).
Proof.
  apply (hide_then_show_restores_and_toggle_cannot_hide 0
           Scenario.styled_div
           (mkTag TagC "div" None [] None []
              (TagAttrs.mk [("style", VDict [("color", VStr "red")])] None)
              None false [])
           [("color", VStr "red")]); reflexivity.
Defined.

(** *** Flat style sheets *)

Lemma parse_node_declarations (pretty : bool) (parents : list string)
    (decls : list (string * string)) :
  Css.parse_node pretty parents
    (map (fun kv => (fst kv, VStr (snd kv))) decls)
  = Ok (map (fun kv => fst kv +:+ ": " +:+ snd kv +:+ "; "
                       +:+ (if pretty then Css.nl else "")) decls,
        []).
Proof.
  induction decls as [|[k v] r IH]; [reflexivity|].
  cbn [map fst snd Css.parse_node]. rewrite IH. reflexivity.
Qed.

Lemma parse_node_rules (pretty : bool)
    (rules : list (string * list (string * string))) :
  Css.parse_node pretty [] (TagAttrs.items (flat_sheet rules))
  = Ok ([], map (fun r => ([fst r],
                           map (fun kv => (fst kv, VStr (snd kv))) (snd r)))
                rules).
Proof.
  unfold flat_sheet. cbn [TagAttrs.items].
  induction rules as [|[sel decls] r IH]; [reflexivity|].
  cbn [map fst snd Css.parse_node]. rewrite IH. reflexivity.
Qed.

Lemma parse_loop_rules (pretty : bool)
    (rules : list (string * list (string * string))) :
  forall (fuel : nat) (result : list string),
    length rules <= fuel ->
    Css.parse_loop fuel pretty
      (map (fun r => ([fst r],
                      map (fun kv => (fst kv, VStr (snd kv))) (snd r)))
           rules)
      result
    = Ok (result ++ concat (map (rule_strings pretty) rules)).
Proof.
  induction rules as [|[sel decls] r IH]; intros fuel result Hf.
  - cbn [map concat]. rewrite app_nil_r. destruct fuel; reflexivity.
  - destruct fuel as [|fuel]; [cbn [length] in Hf; lia|].
    cbn [map fst snd Css.parse_loop].
    rewrite parse_node_declarations. cbv zeta. rewrite app_nil_r.
    assert (forall (l1 l2 l3 : list string) (x : string),
              match (l1 ++ [x]) ++ l2 with
              | [] => (l1 ++ [x]) ++ l2
              | _ :: _ => ((l1 ++ [x]) ++ l2) ++ l3
              end = ((l1 ++ [x]) ++ l2) ++ l3) as Hne.
    { intros l1 l2 l3 x. destruct l1; reflexivity. }
    rewrite Hne. rewrite IH by (cbn [length] in Hf; lia).
    f_equal. cbn [concat]. unfold rule_strings at 2. cbn [fst snd].
    change (join " " [sel]) with sel.
    rewrite <- !app_assoc. cbn [app]. rewrite <- !app_assoc. reflexivity.
Qed.

Lemma dict_nodes_flat_sheet
    (rules : list (string * list (string * string))) :
  Css.dict_nodes (VDict (TagAttrs.items (flat_sheet rules)))
  = S (length rules).
Proof.
  unfold flat_sheet. cbn [TagAttrs.items Css.dict_nodes]. f_equal.
  induction rules as [|[sel decls] r IH]; [reflexivity|].
  cbn [map fst snd length]. rewrite IH. cbn [Css.dict_nodes].
  assert ((fix go (d : list (string * pyval)) : nat :=
             match d with
             | [] => 0
             | (_, x) :: r0 => Css.dict_nodes x + go r0
             end) (map (fun kv => (fst kv, VStr (snd kv))) decls) = 0) as ->.
  { induction decls as [|[k v] ds IHd]; [reflexivity|].
    cbn [map fst snd Css.dict_nodes]. exact IHd. }
  reflexivity.
Qed.

(** X30. The render of a style sheet of flat rules is [<style>], then for
    each rule in order its selector with an opening brace and its
    declarations, then [</style>]; a block is closed by a brace in the pretty
    form only. *)
Theorem flat_sheet_renders_rule_by_rule :
  forall (pretty : bool) (rules : list (string * list (string * string))),
    Css.render (flat_sheet rules) pretty
    = Ok ("<style>" +:+ join "" (concat (map (rule_strings pretty) rules))
          +:+ "</style>").
Proof.
  intros pretty rules. unfold Css.render. cbv zeta.
  rewrite dict_nodes_flat_sheet. cbn [Css.parse_loop].
  rewrite parse_node_rules. cbv zeta. cbn [app].
  rewrite parse_loop_rules by lia. reflexivity.
Qed.

